(** * ArtCanvas.js: a shallow embedding of the path-record model, the
      transform engine, the layer stack and the pointer-gesture handlers.

    Source: [src/ArtCanvas.js].

    Numbers.  A JavaScript number is modelled as an exact real number or
    one of the three special values [NaN], [+Infinity], [-Infinity];
    rounding, overflow to an infinity and the sign of zero are not
    represented.  The builtins ([parseFloat], [parseInt], [Math.*], the 2D
    context) are modelled from the ECMAScript and HTML standards over this
    domain; strings are ASCII.  Where a property depends on it, it gives
    a result as the code computes it, operation by operation, takes
    integer coordinates where an identity of the real numbers would be
    needed, and reads [parseInt] of a number on numbers that are printed
    without an exponent ([plainArgument]) or through the index that
    [parseInt] yields.

    Exceptions.  A method that can raise a [TypeError] (reading a property
    of [undefined] or [null]) returns a [result].

    Rendering surface.  A 2D context is its settable state (styles, line
    width, font, current transformation matrix, the stack of [save]) and
    the list of the drawing calls made on it, each with the matrix it was
    made under.  Style strings are kept as assigned.

    Callbacks.  The user callbacks are modelled as notifications: every
    invocation is appended to a log and does not change the model.

    Not modelled: [setCallbacks], [showLayer] and [hideLayer] (CSS
    visibility), the CSS styling of the container and of the canvases. *)

From Stdlib Require Import Reals Lra Lia ZArith List String Ascii Bool.
From Stdlib Require Import Zfloor.
Import ListNotations.

Set Implicit Arguments.

(* ------------------------------------------------------------------ *)
(** ** Results of code that may throw *)

Inductive result (A : Type) : Type :=
| Ok (a : A)
| TypeError.

Arguments Ok {A} a.
Arguments TypeError {A}.

Definition bind {A B : Type} (m : result A) (k : A -> result B) : result B :=
  match m with
  | Ok a => k a
  | TypeError => TypeError
  end.

Notation "x <- m ;; k" := (bind m (fun x => k))
  (at level 61, m at next level, right associativity).

Definition isOk {A : Type} (m : result A) : bool :=
  match m with Ok _ => true | TypeError => false end.

(* ------------------------------------------------------------------ *)
(** ** JavaScript numbers *)

Module JS.

Local Open Scope R_scope.

Inductive num : Type :=
| Fin (r : R)
| PInf
| NInf
| NaN.

Definition Rltb (x y : R) : bool := if Rlt_dec x y then true else false.
Definition Reqb (x y : R) : bool := if Req_dec_T x y then true else false.

Definition zero : num := Fin 0.
Definition ofZ (z : Z) : num := Fin (IZR z).

(** [Number.MAX_VALUE] *)
Definition MAX_VALUE : R := (2 - / 2 ^ 52) * 2 ^ 1023.

Definition isNaN (n : num) : bool :=
  match n with NaN => true | _ => false end.

Definition isFinite (n : num) : bool :=
  match n with Fin _ => true | _ => false end.

(** ToBoolean on a number: [0] and [NaN] are falsy. *)
Definition truthy (n : num) : bool :=
  match n with
  | Fin r => negb (Reqb r 0)
  | NaN => false
  | _ => true
  end.

Definition neg (n : num) : num :=
  match n with
  | Fin r => Fin (- r)
  | PInf => NInf
  | NInf => PInf
  | NaN => NaN
  end.

Definition add (a b : num) : num :=
  match a, b with
  | NaN, _ | _, NaN => NaN
  | Fin x, Fin y => Fin (x + y)
  | PInf, NInf | NInf, PInf => NaN
  | PInf, _ | _, PInf => PInf
  | NInf, _ | _, NInf => NInf
  end.

Definition sub (a b : num) : num := add a (neg b).

(** an infinity times (or divided by) a finite factor [r]; the zero is
    the positive zero *)
Definition scaleInf (inf : num) (r : R) : num :=
  if Rltb r 0 then neg inf else inf.

Definition mul (a b : num) : num :=
  match a, b with
  | NaN, _ | _, NaN => NaN
  | Fin x, Fin y => Fin (x * y)
  | Fin x, inf | inf, Fin x => if Reqb x 0 then NaN else scaleInf inf x
  | PInf, PInf | NInf, NInf => PInf
  | PInf, NInf | NInf, PInf => NInf
  end.

Definition div (a b : num) : num :=
  match a, b with
  | NaN, _ | _, NaN => NaN
  | Fin x, Fin y =>
      if Reqb y 0
      then (if Reqb x 0 then NaN else scaleInf PInf x)
      else Fin (x / y)
  | Fin _, _ => Fin 0
  | inf, Fin y => scaleInf inf y
  | _, _ => NaN
  end.

(** comparisons: every comparison with [NaN] is false *)
Definition lt (a b : num) : bool :=
  match a, b with
  | NaN, _ | _, NaN => false
  | Fin x, Fin y => Rltb x y
  | NInf, NInf => false
  | NInf, _ => true
  | _, PInf => match a with PInf => false | _ => true end
  | _, _ => false
  end.

Definition gt (a b : num) : bool := lt b a.

Definition eq (a b : num) : bool :=
  match a, b with
  | Fin x, Fin y => Reqb x y
  | PInf, PInf | NInf, NInf => true
  | _, _ => false
  end.

Definition le (a b : num) : bool := lt a b || eq a b.
Definition ge (a b : num) : bool := le b a.

Definition Math_sqrt (a : num) : num :=
  match a with
  | Fin x => if Rltb x 0 then NaN else Fin (sqrt x)
  | PInf => PInf
  | _ => NaN
  end.

(** [Math.pow] at a natural exponent *)
Fixpoint Math_pow (a : num) (n : nat) : num :=
  match n with
  | O => Fin 1
  | S k => mul a (Math_pow a k)
  end.

Definition Math_cos (a : num) : num :=
  match a with Fin x => Fin (cos x) | _ => NaN end.

Definition Math_sin (a : num) : num :=
  match a with Fin x => Fin (sin x) | _ => NaN end.

Definition Math_min (a b : num) : num :=
  match a, b with
  | NaN, _ | _, NaN => NaN
  | _, _ => if lt b a then b else a
  end.

Definition Math_max (a b : num) : num :=
  match a, b with
  | NaN, _ | _, NaN => NaN
  | _, _ => if lt a b then b else a
  end.

Definition Math_PI : num := Fin PI.

(** [Math.atan2(y, x)] *)
Definition Math_atan2 (y x : num) : num :=
  match y, x with
  | NaN, _ | _, NaN => NaN
  | Fin b, Fin a =>
      if Rltb 0 a then Fin (atan (b / a))
      else if Rltb a 0
           then (if Rltb b 0 then Fin (atan (b / a) - PI)
                 else Fin (atan (b / a) + PI))
           else if Rltb 0 b then Fin (PI / 2)
                else if Rltb b 0 then Fin (- (PI / 2)) else Fin 0
  | Fin b, PInf => Fin 0
  | Fin b, NInf => if Rltb b 0 then Fin (- PI) else Fin PI
  | PInf, Fin _ => Fin (PI / 2)
  | NInf, Fin _ => Fin (- (PI / 2))
  | PInf, PInf => Fin (PI / 4)
  | PInf, NInf => Fin (3 * PI / 4)
  | NInf, PInf => Fin (- (PI / 4))
  | NInf, NInf => Fin (- (3 * PI / 4))
  end.

(** truncation toward zero *)
Definition trunc (r : R) : Z := if Rltb r 0 then Zceil r else Zfloor r.

(** *** Values passed to the library *)

Inductive value : Type :=
| VUndefined
| VNull
| VBool (b : bool)
| VNum (n : num)
| VStr (s : string)
| VObject.

Local Open Scope char_scope.

Definition isWhite (c : ascii) : bool :=
  match c with
  | " " | "009" | "010" | "011" | "012" | "013" => true
  | _ => false
  end.

Fixpoint skipWhite (s : string) : string :=
  match s with
  | String c r => if isWhite c then skipWhite r else s
  | EmptyString => s
  end.

Definition digitVal (c : ascii) : option Z :=
  let n := Z.of_N (N_of_ascii c) in
  if ((48 <=? n) && (n <=? 57))%Z then Some (n - 48)%Z
  else if ((97 <=? n) && (n <=? 102))%Z then Some (n - 87)%Z
  else if ((65 <=? n) && (n <=? 70))%Z then Some (n - 55)%Z
  else None.

Definition digitIn (radix : Z) (c : ascii) : option Z :=
  match digitVal c with
  | Some d => if (d <? radix)%Z then Some d else None
  | None => None
  end.

(** the longest prefix of digits: its value, how many there are, and
    what follows *)
Fixpoint readDigits (radix : Z) (s : string) (acc : Z) (count : nat)
  : Z * nat * string :=
  match s with
  | String c r =>
      match digitIn radix c with
      | Some d => readDigits radix r (acc * radix + d)%Z (S count)
      | None => (acc, count, s)
      end
  | EmptyString => (acc, count, s)
  end.

Definition readSign (s : string) : bool * string :=
  match s with
  | String "-" r => (true, r)
  | String "+" r => (false, r)
  | _ => (false, s)
  end.

Definition signed (negative : bool) (z : Z) : Z :=
  if negative then (- z)%Z else z.

(** [parseInt(string)] with no radix argument *)
Definition parseIntString (s : string) : option Z :=
  let (negative, s1) := readSign (skipWhite s) in
  let (radix, s2) :=
    match s1 with
    | String "0" (String "x" r) | String "0" (String "X" r) => (16%Z, r)
    | _ => (10%Z, s1)
    end in
  match readDigits radix s2 0%Z O with
  | (_, O, _) => None
  | (z, _, _) => Some (signed negative z)
  end.

(** the optional exponent part of a decimal literal; it counts only when
    at least one digit follows *)
Definition readExponent (s : string) : Z :=
  match s with
  | String "e" r | String "E" r =>
      let (negative, r1) := readSign r in
      match readDigits 10%Z r1 0%Z O with
      | (_, O, _) => 0%Z
      | (z, _, _) => signed negative z
      end
  | _ => 0%Z
  end.

Definition signedNum (negative : bool) (n : num) : num :=
  if negative then neg n else n.

(** [parseFloat(string)]; a literal beyond the range of a double stays
    finite here, where the source gets an infinity *)
Definition parseFloatString (s : string) : num :=
  let (negative, s1) := readSign (skipWhite s) in
  if prefix "Infinity" s1 then signedNum negative PInf
  else
    let '(ip, icount, s2) := readDigits 10%Z s1 0%Z O in
    let '(fp, fcount, s3) :=
      match s2 with
      | String "." r => readDigits 10%Z r 0%Z O
      | _ => (0%Z, O, s2)
      end in
    match icount, fcount with
    | O, O => NaN
    | _, _ =>
        signedNum negative
          (Fin ((IZR ip + IZR fp / 10 ^ fcount) * powerRZ 10 (readExponent s3)))
    end.

(** [parseFloat]: the argument is converted to a string first; a
    number's decimal form reads back as the number, and the strings of
    [undefined], [null], booleans and plain objects hold no number. *)
Definition parseFloat (v : value) : num :=
  match v with
  | VNum n => n
  | VStr s => parseFloatString s
  | _ => NaN
  end.

(** [parseInt]: [None] stands for [NaN].  The argument is printed first.
    A number that is 0 or whose absolute value lies from 10^-6 up to
    below 10^21 is printed without an exponent, and [parseInt] reads its
    integer part: the truncation of the number, which is what this
    definition gives on every finite number.  A number outside of that
    range is printed with an exponent ([1e+21], [1e-7]) and [parseInt]
    reads the digits before it ([parseInt(1e21)] is 1): that is not
    represented. *)
Definition parseInt (v : value) : option Z :=
  match v with
  | VNum (Fin r) => Some (trunc r)
  | VStr s => parseIntString s
  | _ => None
  end.

Definition ofInt (i : option Z) : num :=
  match i with Some z => ofZ z | None => NaN end.

(** [String.prototype.toLowerCase] on ASCII *)
Definition lowerChar (c : ascii) : ascii :=
  let n := N_of_ascii c in
  if ((65 <=? n) && (n <=? 90))%N then ascii_of_N (n + 32) else c.

Fixpoint toLowerCase (s : string) : string :=
  match s with
  | String c r => String (lowerChar c) (toLowerCase r)
  | EmptyString => EmptyString
  end.

(** does [s] contain [p]?  (a regular expression that is a plain word) *)
Fixpoint contains (p s : string) : bool :=
  prefix p s ||
  match s with
  | String _ r => contains p r
  | EmptyString => false
  end.

End JS.

Import JS.

(* ------------------------------------------------------------------ *)
(** ** Geometry primitives *)

Module Point.

Record t : Type := mk { x : num; y : num }.

(** [function Point(pointX, pointY)] *)
Definition new (pointX pointY : value) : t :=
  let fx := parseFloat pointX in
  let fy := parseFloat pointY in
  {| x := if negb (isNaN fx) then fx else zero;
     y := if negb (isNaN fy) then fy else zero |}.

Definition getX (p : t) : num := x p.
Definition getY (p : t) : num := y p.

(** [Point.getOffsetPoint]; an argument that is not an instance of
    [Point] is [None] *)
Definition getOffsetPoint (point1 point2 : option t) : t :=
  match point1, point2 with
  | Some p1, Some p2 =>
      new (VNum (sub (getX p2) (getX p1))) (VNum (sub (getY p2) (getY p1)))
  | _, _ => new (VNum zero) (VNum zero)
  end.

(** [Point.getDistance] *)
Definition getDistance (point1 point2 : option t) : num :=
  let point := getOffsetPoint point1 point2 in
  Math_sqrt (add (Math_pow (getX point) 2) (Math_pow (getY point) 2)).

End Point.

Module Rectangle.

Record t : Type := mk { top : num; left : num; width : num; height : num }.

(** [function Rectangle(top, left, width, height)] *)
Definition new (vtop vleft vwidth vheight : value) : t :=
  let ft := parseFloat vtop in
  let fl := parseFloat vleft in
  let fw := parseFloat vwidth in
  let fh := parseFloat vheight in
  {| top    := if negb (isNaN ft) then ft else zero;
     left   := if negb (isNaN fl) then fl else zero;
     width  := if ge fw zero then fw else zero;
     height := if ge fh zero then fh else zero |}.

Definition getTop (r : t) : num := top r.
Definition getLeft (r : t) : num := left r.
Definition getBottom (r : t) : num := add (top r) (height r).
Definition getRight (r : t) : num := add (left r) (width r).
Definition getWidth (r : t) : num := width r.
Definition getHeight (r : t) : num := height r.

End Rectangle.

Module Circle.

Record t : Type := mk { centerX : num; centerY : num; radius : num }.

(** [function Circle(centerX, centerY, radius)] *)
Definition new (vcenterX vcenterY vradius : value) : t :=
  let cx := parseFloat vcenterX in
  let cy := parseFloat vcenterY in
  let r  := parseFloat vradius in
  {| centerX := if negb (isNaN cx) then cx else zero;
     centerY := if negb (isNaN cy) then cy else zero;
     radius  := if ge r zero then r else zero |}.

Definition getCenterX (c : t) : num := centerX c.
Definition getCenterY (c : t) : num := centerY c.
Definition getRadius (c : t) : num := radius c.

End Circle.

Module Line.

(** [None] is [null] *)
Record t : Type := mk { startPoint : option Point.t; endPoint : option Point.t }.

(** [function Line(startPoint, endPoint)]; an argument that is not an
    instance of [Point] is [None] *)
Definition new (vstart vend : option Point.t) : t :=
  {| startPoint := vstart; endPoint := vend |}.

Definition getStartPoint (l : t) : option Point.t := startPoint l.
Definition getEndPoint (l : t) : option Point.t := endPoint l.

End Line.

Module Font.

Record t : Type := mk { family : string; style : string; size : string }.

(** [function Font(family, style, size)], on the [String(...)] of its
    arguments *)
Definition new (vfamily vstyle vsize : string) : t :=
  {| family := vfamily; style := vstyle; size := vsize |}.

Definition getFamily (f : t) : string := family f.
Definition getStyle (f : t) : string := style f.
Definition getSize (f : t) : string := size f.

Definition dquote : string := String (ascii_of_nat 34) EmptyString.

Definition getFontString (f : t) : string :=
  (style f ++ " " ++ size f ++ " " ++ dquote ++ family f ++ dquote)%string.

End Font.

Module TextStyle.

Record t : Type := mk { font : option Font.t; color : string }.

Definition new (vfont : option Font.t) (vcolor : string) : t :=
  {| font := vfont; color := vcolor |}.

Definition getFont (s : t) : option Font.t := font s.
Definition getColor (s : t) : string := color s.

End TextStyle.

Module Text.

Record t : Type :=
  mk { text : string; point : Point.t; textStyle : option TextStyle.t }.

(** [function Text(text, point, textStyle)] *)
Definition new (vtext : string) (vpoint : option Point.t)
           (vstyle : option TextStyle.t) : t :=
  {| text := vtext;
     point := match vpoint with
              | Some p => p
              | None => Point.new (VNum zero) (VNum zero)
              end;
     textStyle := vstyle |}.

Definition getText (s : t) : string := text s.
Definition getPoint (s : t) : Point.t := point s.
Definition getTextStyle (s : t) : option TextStyle.t := textStyle s.

End Text.

(** An entry of [Canvas.paths]: an array of points (a stroke, or the
    anchor of a gesture in progress) or a shape.  An array element may be
    [undefined] ([None]). *)
Inductive path : Type :=
| Points (ps : list (option Point.t))
| PRectangle (r : Rectangle.t)
| PCircle (c : Circle.t)
| PLine (l : Line.t)
| PText (s : Text.t).

(** [Array.prototype.pop]: the array without its last element, and that
    element ([None] on the empty array, where JavaScript gives
    [undefined]) *)
Definition pop {A : Type} (l : list A) : list A * option A :=
  match rev l with
  | [] => ([], None)
  | a :: r => (rev r, Some a)
  end.

Definition push {A : Type} (l : list A) (a : A) : list A := l ++ [a].

(* ------------------------------------------------------------------ *)
(** ** The rendering surface: a 2D context *)

(** The affine map [a b c d e f] of the canvas API, the matrix
    [[a c e] [b d f] [0 0 1]]. *)
Record matrix : Type :=
  Matrix { ma : R; mb : R; mc : R; md : R; me : R; mf : R }.

Definition identity : matrix := Matrix 1 0 0 1 0 0.

(** the product [m * n]: [n] is applied to a point first *)
Definition mmul (m n : matrix) : matrix :=
  Matrix (ma m * ma n + mc m * mb n)
         (mb m * ma n + md m * mb n)
         (ma m * mc n + mc m * md n)
         (mb m * mc n + md m * md n)
         (ma m * me n + mc m * mf n + me m)
         (mb m * me n + md m * mf n + mf m).

Module Context.

(** the pixels read by [getImageData]: what the first [pixels] drawing
    calls left on the surface *)
Record ImageData : Type := mkImageData { pixels : nat }.

Inductive call : Type :=
| clearRect_ (x y w h : num)
| beginPath_
| moveTo_ (x y : num)
| lineTo_ (x y : num)
| stroke_
| fill_
| rect_ (x y w h : num)
| arc_ (x y r sa ea : num) (anticlockwise : bool)
| fillText_ (text : string) (x y : num)
| putImageData_ (data : ImageData) (x y : num).

(** what [save] keeps *)
Record state : Type :=
  mkState { s_ctm : matrix; s_strokeStyle : string; s_fillStyle : string;
            s_lineWidth : num; s_font : string }.

Record t : Type :=
  mk { strokeStyle : string; fillStyle : string; lineWidth : num;
       font : string;
       (** the current transformation matrix *)
       ctm : matrix;
       (** the stack of [save] *)
       saved : list state;
       (** the drawing calls made so far, each with the matrix it was
           made under *)
       drawn : list (matrix * call);
       (** [measureText(text).width] under a font *)
       measure : string -> string -> R }.

Definition fresh (msr : string -> string -> R) : t :=
  {| strokeStyle := "#000000"; fillStyle := "#000000"; lineWidth := Fin 1;
     font := "10px sans-serif"; ctm := identity; saved := []; drawn := [];
     measure := msr |}.

Definition set_strokeStyle (s : string) (c : t) : t :=
  mk s (fillStyle c) (lineWidth c) (font c) (ctm c) (saved c) (drawn c)
     (measure c).
Definition set_fillStyle (s : string) (c : t) : t :=
  mk (strokeStyle c) s (lineWidth c) (font c) (ctm c) (saved c) (drawn c)
     (measure c).
Definition set_lineWidth (w : num) (c : t) : t :=
  mk (strokeStyle c) (fillStyle c) w (font c) (ctm c) (saved c) (drawn c)
     (measure c).
Definition set_font (s : string) (c : t) : t :=
  mk (strokeStyle c) (fillStyle c) (lineWidth c) s (ctm c) (saved c)
     (drawn c) (measure c).
Definition set_ctm (m : matrix) (c : t) : t :=
  mk (strokeStyle c) (fillStyle c) (lineWidth c) (font c) m (saved c)
     (drawn c) (measure c).

(** assigning [lineWidth]: the API keeps the old value unless the new
    one is finite and positive *)
Definition assign_lineWidth (w : num) (c : t) : t :=
  match w with
  | Fin r => if Rltb 0 r then set_lineWidth w c else c
  | _ => c
  end.

(** a drawing call is recorded with the current matrix *)
Definition emit (k : call) (c : t) : t :=
  mk (strokeStyle c) (fillStyle c) (lineWidth c) (font c) (ctm c) (saved c)
     (drawn c ++ [(ctm c, k)]) (measure c).

Definition clearRect (x y w h : num) : t -> t := emit (clearRect_ x y w h).
Definition beginPath : t -> t := emit beginPath_.
Definition moveTo (x y : num) : t -> t := emit (moveTo_ x y).
Definition lineTo (x y : num) : t -> t := emit (lineTo_ x y).
Definition stroke : t -> t := emit stroke_.
Definition fill : t -> t := emit fill_.
Definition rect (x y w h : num) : t -> t := emit (rect_ x y w h).
Definition arc (x y r sa ea : num) (acw : bool) : t -> t :=
  emit (arc_ x y r sa ea acw).
Definition fillText (s : string) (x y : num) : t -> t :=
  emit (fillText_ s x y).

Definition getImageData (c : t) : ImageData :=
  mkImageData (List.length (drawn c)).

(** [putImageData(null, 0, 0)] throws *)
Definition putImageData (data : option ImageData) (x y : num) (c : t)
  : result t :=
  match data with
  | Some d => Ok (emit (putImageData_ d x y) c)
  | None => TypeError
  end.

Definition save (c : t) : t :=
  mk (strokeStyle c) (fillStyle c) (lineWidth c) (font c) (ctm c)
     (mkState (ctm c) (strokeStyle c) (fillStyle c) (lineWidth c) (font c)
        :: saved c)
     (drawn c) (measure c).

Definition restore (c : t) : t :=
  match saved c with
  | [] => c
  | s :: r =>
      mk (s_strokeStyle s) (s_fillStyle s) (s_lineWidth s) (s_font s)
         (s_ctm s) r (drawn c) (measure c)
  end.

(** the six arguments as a matrix; the API ignores a call with an
    argument that is not finite *)
Definition finiteMatrix (a b c d e f : num) : option matrix :=
  match a, b, c, d, e, f with
  | Fin a', Fin b', Fin c', Fin d', Fin e', Fin f' =>
      Some (Matrix a' b' c' d' e' f')
  | _, _, _, _, _, _ => None
  end.

Definition setTransform (a b c d e f : num) (x : t) : t :=
  match finiteMatrix a b c d e f with
  | Some m => set_ctm m x
  | None => x
  end.

Definition transform (a b c d e f : num) (x : t) : t :=
  match finiteMatrix a b c d e f with
  | Some m => set_ctm (mmul (ctm x) m) x
  | None => x
  end.

(** setting a dimension of the canvas element resets its context *)
Definition reset (c : t) : t := fresh (measure c).

End Context.

(* ------------------------------------------------------------------ *)
(** ** The container element shared by the layers *)

Module Container.

(** the text input made by [createTextbox]; [left] and [top] are the
    numbers written into its style *)
Record Textbox : Type := mkTextbox { value : string; left : num; top : num }.

Record t : Type :=
  mk { offsetLeft : R; offsetTop : R; scrollLeft : R; scrollTop : R;
       (** [style.width], [style.height] in pixels *)
       styleWidth : Z; styleHeight : Z;
       (** the element found by [querySelector('[type="text"]')] *)
       textbox : option Textbox;
       (** the text metrics of the page, given to each new context *)
       measureText : string -> string -> R }.

Definition set_textbox (b : option Textbox) (c : t) : t :=
  mk (offsetLeft c) (offsetTop c) (scrollLeft c) (scrollTop c)
     (styleWidth c) (styleHeight c) b (measureText c).

Definition set_size (w h : Z) (c : t) : t :=
  mk (offsetLeft c) (offsetTop c) (scrollLeft c) (scrollTop c)
     w h (textbox c) (measureText c).

End Container.

(* ------------------------------------------------------------------ *)
(** ** Pointer events *)

Module Event.

Record Touch : Type := mkTouch { t_pageX : R; t_pageY : R }.

(** The properties the handlers read.  A mouse event has [pageX] and
    [pageY] and no touch lists; a touch event has the lists and no
    [pageX]. *)
Record t : Type :=
  mk { type : string;
       pageX : option R; pageY : option R;
       touches : option (list Touch);
       changedTouches : option (list Touch) }.

Definition mouse (ty : string) (x y : R) : t :=
  mk ty (Some x) (Some y) None None.

Definition touch (ty : string) (ts cs : list Touch) : t :=
  mk ty None None (Some ts) (Some cs).

End Event.

(* ------------------------------------------------------------------ *)
(** ** Canvas: one layer *)

(** the second argument of [Canvas.prototype.transform] *)
Inductive amountsArg : Type :=
| IsArray (l : list value)
| NotArray (v : value).

Module Transform.
Definition TRANSLATE : string := "translate".
Definition SCALE : string := "scale".
Definition ROTATE : string := "rotate".
End Transform.

Module Canvas.

Record xy : Type := mkXY { x : num; y : num }.

(** [this.transforms] *)
Record Transforms : Type :=
  mkTransforms { translate : xy; scale : xy; skew : xy; rotate : num }.

(** the HTMLCanvasElement *)
Record Element : Type :=
  mkElement { width : Z; height : Z; zIndex : Z }.

Record t : Type :=
  mk { canvas : Element; context : Context.t; textStyle : TextStyle.t;
       paths : list path; transforms : Transforms }.

Definition set_canvas (e : Element) (cv : t) : t :=
  mk e (context cv) (textStyle cv) (paths cv) (transforms cv).
Definition set_context (c : Context.t) (cv : t) : t :=
  mk (canvas cv) c (textStyle cv) (paths cv) (transforms cv).
Definition set_paths (p : list path) (cv : t) : t :=
  mk (canvas cv) (context cv) (textStyle cv) p (transforms cv).
Definition set_transforms (tr : Transforms) (cv : t) : t :=
  mk (canvas cv) (context cv) (textStyle cv) (paths cv) tr.

Definition getCanvas (cv : t) : Element := canvas cv.
Definition getContext (cv : t) : Context.t := context cv.

(** [Canvas.prototype.clear] *)
Definition clear (cv : t) : t :=
  set_context
    (Context.clearRect zero zero (ofZ (width (canvas cv)))
       (ofZ (height (canvas cv))) (context cv))
    cv.

(** [Canvas.prototype.clearPaths] *)
Definition clearPaths (cv : t) : t := set_paths [] cv.

Definition initialTransforms : Transforms :=
  mkTransforms (mkXY zero zero) (mkXY (Fin 1) (Fin 1)) (mkXY zero zero) zero.

(** a parsed size that passes the test [w > 0] *)
Definition positive (i : option Z) : option Z :=
  match i with
  | Some z => if (0 <? z)%Z then Some z else None
  | None => None
  end.

(** [function Canvas(container, canvas, width, height, zIndex)];
    [existing] is the canvas element passed in with its context, [None]
    when the argument is not a canvas element and one is created *)
Definition new (container : Container.t)
           (existing : option (Element * Context.t))
           (vwidth vheight : value) (z : Z) : t :=
  let el :=
    match existing with
    | Some ec => fst ec
    | None => mkElement 300 150 0
    end in
  let ctx :=
    match existing with
    | Some ec => snd ec
    | None => Context.fresh (Container.measureText container)
    end in
  let w := positive (parseInt vwidth) in
  let h := positive (parseInt vheight) in
  let el1 :=
    match w with
    | Some wz => mkElement wz (height el) (zIndex el)
    | None => el
    end in
  let ctx1 := match w with Some _ => Context.reset ctx | None => ctx end in
  let el2 :=
    match h with
    | Some hz => mkElement (width el1) hz (zIndex el1)
    | None => el1
    end in
  let ctx2 := match h with Some _ => Context.reset ctx1 | None => ctx1 end in
  let cv := clear (mk el2 ctx2 (TextStyle.new None "") [] initialTransforms) in
  let ctx3 :=
    Context.assign_lineWidth (Fin 1)
      (Context.set_fillStyle "rgba(0, 0, 0, 0.0)"
         (Context.set_strokeStyle "rgba(0, 0, 0, 1.0)" (context cv))) in
  mk (mkElement (width el2) (height el2) z) ctx3
     (TextStyle.new (Some (Font.new "Arial" "normal" "16px"))
        "rgba(0, 0, 0, 1.0)")
     [] initialTransforms.

(** *** Replaying the stored objects *)

(** the array branch of the loop of [draw]; [j] is the index *)
Fixpoint drawPoints (ps : list (option Point.t)) (j : nat)
         (ctx : Context.t) : result Context.t :=
  match ps with
  | [] => Ok ctx
  | None :: _ => TypeError
  | Some p :: r =>
      let px := Point.getX p in
      let py := Point.getY p in
      drawPoints r (S j)
        (match j with
         | O => Context.moveTo px py (Context.beginPath ctx)
         | S _ => Context.stroke (Context.lineTo px py ctx)
         end)
  end.

(** one iteration of the loop of [draw] *)
Definition drawPath (p : path) (ctx : Context.t) : result Context.t :=
  match p with
  | Points ps => drawPoints ps O ctx
  | PRectangle r =>
      Ok (Context.fill (Context.stroke
            (Context.rect (Rectangle.getTop r) (Rectangle.getLeft r)
               (Rectangle.getWidth r) (Rectangle.getHeight r)
               (Context.beginPath ctx))))
  | PCircle c =>
      Ok (Context.fill (Context.stroke
            (Context.arc (Circle.getCenterX c) (Circle.getCenterY c)
               (Circle.getRadius c) zero (mul (Fin 2) Math_PI) false
               (Context.beginPath ctx))))
  | PLine l =>
      match Line.getStartPoint l, Line.getEndPoint l with
      | Some s, Some e =>
          Ok (Context.stroke
                (Context.lineTo (Point.getX e) (Point.getY e)
                   (Context.moveTo (Point.getX s) (Point.getY s)
                      (Context.beginPath ctx))))
      | _, _ => TypeError
      end
  | PText s =>
      match Text.getTextStyle s with
      | Some ts =>
          match TextStyle.getFont ts with
          | Some f =>
              let previousColor := Context.fillStyle ctx in
              let pt := Text.getPoint s in
              Ok (Context.set_fillStyle previousColor
                    (Context.fillText (Text.getText s) (Point.getX pt)
                       (Point.getY pt)
                       (Context.set_fillStyle (TextStyle.getColor ts)
                          (Context.set_font (Font.getFontString f) ctx))))
          | None => TypeError
          end
      | None => TypeError
      end
  end.

(** the loop of [draw] *)
Fixpoint drawLoop (ps : list path) (ctx : Context.t) : result Context.t :=
  match ps with
  | [] => Ok ctx
  | p :: r => ctx1 <- drawPath p ctx ;; drawLoop r ctx1
  end.

Definition drawPaths (cv : t) : result t :=
  ctx <- drawLoop (paths cv) (context cv) ;; Ok (set_context ctx cv).

(** *** The pivot of the transforms *)

(** [minX], [minY], [maxX], [maxY] *)
Definition bounds : Type := (num * num * num * num)%type.

Fixpoint pointsBounds (ps : list (option Point.t)) (b : bounds)
  : result bounds :=
  match ps with
  | [] => Ok b
  | None :: _ => TypeError
  | Some p :: r =>
      let '(minX, minY, maxX, maxY) := b in
      let px := Point.getX p in
      let py := Point.getY p in
      pointsBounds r
        (if lt px minX then px else minX,
         if lt py minY then py else minY,
         if gt px maxX then px else maxX,
         if gt py maxY then py else maxY)
  end.

Definition boundsCenter (b : bounds) : num * num :=
  let '(minX, minY, maxX, maxY) := b in
  (ofInt (parseInt (VNum (add (div (sub maxX minX) (Fin 2)) minX))),
   ofInt (parseInt (VNum (add (div (sub maxY minY) (Fin 2)) minY)))).

(** one iteration of the loop of [getCenterPoint]: the values assigned
    to [centerX] and [centerY] *)
Definition pathCenter (ctx : Context.t) (p : path) : result (num * num) :=
  match p with
  | Points ps =>
      b <- pointsBounds ps (Fin MAX_VALUE, Fin MAX_VALUE, zero, zero) ;;
      Ok (boundsCenter b)
  | PLine l =>
      match Line.getStartPoint l, Line.getEndPoint l with
      | Some s, Some e =>
          Ok (boundsCenter
                (Math_min (Point.getX s) (Point.getX e),
                 Math_min (Point.getY s) (Point.getY e),
                 Math_max (Point.getX s) (Point.getX e),
                 Math_max (Point.getY s) (Point.getY e)))
      | _, _ => TypeError
      end
  | PRectangle r =>
      Ok (add (ofInt (parseInt (VNum (div (Rectangle.getWidth r) (Fin 2)))))
              (Rectangle.getLeft r),
          add (ofInt (parseInt (VNum (div (Rectangle.getHeight r) (Fin 2)))))
              (Rectangle.getTop r))
  | PCircle c => Ok (Circle.getCenterX c, Circle.getCenterY c)
  | PText s =>
      match Text.getTextStyle s with
      | Some ts =>
          match TextStyle.getFont ts with
          | Some f =>
              let fontSize := ofInt (parseInt (VStr (Font.getSize f))) in
              let pt := Text.getPoint s in
              let w := Fin (Context.measure ctx (Context.font ctx)
                              (Text.getText s)) in
              Ok (add (Point.getX pt)
                      (ofInt (parseInt (VNum (div w (Fin 2))))),
                  add (Point.getY pt)
                      (ofInt (parseInt (VNum (div fontSize (Fin 2))))))
          | None => TypeError
          end
      | None => TypeError
      end
  end.

(** the loop of [getCenterPoint], from the current [centerX], [centerY] *)
Fixpoint centerLoop (ctx : Context.t) (ps : list path) (c : num * num)
  : result (num * num) :=
  match ps with
  | [] => Ok c
  | p :: r => c1 <- pathCenter ctx p ;; centerLoop ctx r c1
  end.

(** [Canvas.prototype.getCenterPoint] *)
Definition getCenterPoint (cv : t) : result Point.t :=
  c <- centerLoop (context cv) (paths cv) (zero, zero) ;;
  Ok (Point.new (VNum (fst c)) (VNum (snd c))).

(** *** The transform operation *)

Definition toArray (a : amountsArg) : list value :=
  match a with
  | IsArray l => l
  | NotArray v => [v]
  end.

(** the first [switch] of [Canvas.prototype.transform]: the new
    [this.transforms]; [type] is [String(type)] *)
Definition applyAmounts (type : string) (amounts : list value)
           (tr : Transforms) : Transforms :=
  let ty := toLowerCase type in
  if String.eqb ty Transform.TRANSLATE then
    match amounts with
    | a0 :: a1 :: _ =>
        let dx := parseFloat a0 in
        let dy := parseFloat a1 in
        if isNaN dx || isNaN dy then tr
        else mkTransforms (mkXY dx dy) (scale tr) (skew tr) (rotate tr)
    | _ => tr
    end
  else if String.eqb ty Transform.SCALE then
    match amounts with
    | a0 :: a1 :: _ =>
        let sx := parseFloat a0 in
        let sy := parseFloat a1 in
        if isNaN sx || isNaN sy then tr
        else mkTransforms (translate tr) (mkXY sx sy) (skew tr) (rotate tr)
    | _ => tr
    end
  else if String.eqb ty Transform.ROTATE then
    match amounts with
    | a0 :: _ =>
        let degree := parseFloat a0 in
        if isNaN degree then tr
        else mkTransforms (translate tr) (scale tr) (skew tr)
               (div (mul degree Math_PI) (Fin 180))
    | _ => tr
    end
  else tr.

(** the three calls that rotate by [rotate] about [(centerX, centerY)] *)
Definition rotateAbout (centerX centerY rotate : num) (ctx : Context.t)
  : Context.t :=
  Context.transform (Fin 1) zero zero (Fin 1) (neg centerX) (neg centerY)
    (Context.transform (Math_cos rotate) (Math_sin rotate)
       (neg (Math_sin rotate)) (Math_cos rotate) zero zero
       (Context.transform (Fin 1) zero zero (Fin 1) centerX centerY ctx)).

(** the call with the stored scale and translation *)
Definition scaleTranslate (tr : Transforms) (ctx : Context.t) : Context.t :=
  Context.transform (x (scale tr)) zero zero (y (scale tr))
    (x (translate tr)) (y (translate tr)) ctx.

(** the second [switch] of [Canvas.prototype.transform] *)
Definition applyMatrix (type : string) (centerPoint : Point.t)
           (tr : Transforms) (ctx : Context.t) : Context.t :=
  let ty := toLowerCase type in
  let centerX := Point.getX centerPoint in
  let centerY := Point.getY centerPoint in
  if String.eqb ty Transform.TRANSLATE || String.eqb ty Transform.SCALE then
    scaleTranslate tr
      (rotateAbout centerX centerY (rotate tr)
         (Context.setTransform (Fin 1) zero zero (Fin 1) zero zero ctx))
  else if String.eqb ty Transform.ROTATE then
    rotateAbout centerX centerY (rotate tr)
      (scaleTranslate tr
         (Context.setTransform (Fin 1) zero zero (Fin 1) zero zero ctx))
  else ctx.

(** [Canvas.prototype.transform] up to the test of [arguments.length]:
    the layer as [draw(false)] finds it *)
Definition beforeReplay (type : string) (amounts : amountsArg) (cv : t)
  : result t :=
  centerPoint <- getCenterPoint cv ;;
  let tr := applyAmounts type (toArray amounts) (transforms cv) in
  let cv1 := clear (set_transforms tr cv) in
  Ok (set_context
        (applyMatrix type centerPoint tr (Context.save (context cv1))) cv1).

(** [Canvas.prototype.transform]; [type] is [String(type)] and [argc]
    is [arguments.length] *)
Definition transform (type : string) (amounts : amountsArg) (argc : nat)
           (cv : t) : result t :=
  cv1 <- beforeReplay type amounts cv ;;
  if (1 <? argc)%nat then
    cv2 <- drawPaths cv1 ;;
    Ok (set_context (Context.restore (context cv2)) cv2)
  else Ok cv1.

(** [Canvas.prototype.draw]; [this.transform()] is the call with no
    argument *)
Definition draw (isTransform : bool) (cv : t) : result t :=
  cv1 <- (if isTransform
          then transform "undefined" (NotArray VUndefined) 0 cv
          else Ok cv) ;;
  drawPaths cv1.

(** *** Styles *)

Definition getFillStyle (cv : t) : string := Context.fillStyle (context cv).
Definition getStrokeStyle (cv : t) : string :=
  Context.strokeStyle (context cv).
Definition getLineWidth (cv : t) : num := Context.lineWidth (context cv).

(** on [String(fillStyle)] *)
Definition setFillStyle (fillStyle : string) (cv : t) : result t :=
  draw true (set_context (Context.set_fillStyle fillStyle (context cv)) cv).

Definition setStrokeStyle (strokeStyle : string) (cv : t) : result t :=
  draw true
    (set_context (Context.set_strokeStyle strokeStyle (context cv)) cv).

Definition setLineWidth (lineWidth : value) (cv : t) : result t :=
  let w := parseFloat lineWidth in
  if gt w zero
  then draw true (set_context (Context.assign_lineWidth w (context cv)) cv)
  else Ok cv.

(** *** Pointer coordinates *)

(** the object whose [pageX] is read: the event itself or one of its
    touches *)
Definition pickSource (truthyPage : bool) (event : Event.t)
  : result (option Event.Touch) :=
  if truthyPage then Ok None
  else
    match Event.touches event with
    | None => TypeError
    | Some (tc :: _) => Ok (Some tc)
    | Some [] =>
        match Event.changedTouches event with
        | None => TypeError
        | Some (tc :: _) => Ok (Some tc)
        | Some [] => Ok None
        end
    end.

(** a property that may be [undefined], as a number in arithmetic *)
Definition toNumber (p : option R) : num :=
  match p with Some r => Fin r | None => NaN end.

Definition clamp (offset w : num) : num :=
  let o1 := if lt offset zero then zero else offset in
  if gt o1 w then w else o1.

(** [Canvas.prototype.getOffsetX]; [None] is an argument that is not an
    instance of [Event] *)
Definition getOffsetX (event : option Event.t) (container : Container.t)
           (cv : t) : result num :=
  match event with
  | None => Ok zero
  | Some ev =>
      src <- pickSource (truthy (toNumber (Event.pageX ev))) ev ;;
      let pageX :=
        match src with
        | Some tc => Fin (Event.t_pageX tc)
        | None => toNumber (Event.pageX ev)
        end in
      let offsetX :=
        add (sub pageX (Fin (Container.offsetLeft container)))
            (Fin (Container.scrollLeft container)) in
      Ok (clamp offsetX (ofZ (width (canvas cv))))
  end.

(** [Canvas.prototype.getOffsetY] *)
Definition getOffsetY (event : option Event.t) (container : Container.t)
           (cv : t) : result num :=
  match event with
  | None => Ok zero
  | Some ev =>
      src <- pickSource (truthy (toNumber (Event.pageY ev))) ev ;;
      let pageY :=
        match src with
        | Some tc => Fin (Event.t_pageY tc)
        | None => toNumber (Event.pageY ev)
        end in
      let offsetY :=
        add (sub pageY (Fin (Container.offsetTop container)))
            (Fin (Container.scrollTop container)) in
      Ok (clamp offsetY (ofZ (height (canvas cv))))
  end.

(** *** Text *)

(** [Canvas.prototype.createTextbox]; only the container changes *)
Definition createTextbox (point : option Point.t) (container : Container.t)
           (cv : t) : Container.t :=
  match point with
  | None => container
  | Some p =>
      match Container.textbox container with
      | Some _ => container
      | None =>
          Container.set_textbox
            (Some (Container.mkTextbox "" (Point.getX p) (Point.getY p)))
            container
      end
  end.

(** [Canvas.prototype.drawText]: the text, the container and the layer *)
Definition drawText (ts : option TextStyle.t) (container : Container.t)
           (cv : t) : result (string * Container.t * t) :=
  match ts with
  | None => Ok (EmptyString, container, cv)
  | Some style =>
      match Container.textbox container with
      | None => Ok (EmptyString, container, cv)
      | Some textbox =>
          match TextStyle.getFont style with
          | None => TypeError
          | Some f =>
              let color := TextStyle.getColor style in
              let fontSize := ofInt (parseInt (VStr (Font.getSize f))) in
              let text := Container.value textbox in
              let tx := ofInt (parseInt (VNum (Container.left textbox))) in
              let ty :=
                add (ofInt (parseInt (VNum (Container.top textbox))))
                    fontSize in
              let ctx := context cv in
              let heldColor := Context.fillStyle ctx in
              let ctx1 :=
                Context.set_fillStyle heldColor
                  (Context.fillText text tx ty
                     (Context.set_fillStyle color
                        (Context.set_font (Font.getFontString f) ctx))) in
              Ok (text,
                  Container.set_textbox None container,
                  set_paths
                    (push (paths cv)
                       (PText (Text.new text
                                 (Some (Point.new (VNum tx) (VNum ty)))
                                 (Some style))))
                    (set_context ctx1 cv))
          end
      end
  end.

End Canvas.

(* ------------------------------------------------------------------ *)
(** ** ArtCanvas: the layer stack and the gesture handlers *)

Module Mode.
Definition HAND : string := "hand".
Definition FIGURE : string := "figure".
Definition TEXT : string := "text".
Definition TOOL : string := "tool".
Definition TRANSFORM : string := "transform".
End Mode.

Module Figure.
Definition RECTANGLE : string := "rectangle".
Definition CIRCLE : string := "circle".
Definition LINE : string := "line".
End Figure.

Module MouseEvents.
(** [touchPanel] is the test of the user agent *)
Definition START (touchPanel : bool) : string :=
  if touchPanel then "touchstart" else "mousedown".
Definition MOVE (touchPanel : bool) : string :=
  if touchPanel then "touchmove" else "mousemove".
Definition END (touchPanel : bool) : string :=
  if touchPanel then "touchend" else "mouseup".
End MouseEvents.

(** [/mousedown|touchstart/i.test(event)] *)
Definition isStartType (event : string) : bool :=
  contains "mousedown" (toLowerCase event)
  || contains "touchstart" (toLowerCase event).

(** [/mouseup|touchend/i.test(event)] *)
Definition isEndType (event : string) : bool :=
  contains "mouseup" (toLowerCase event)
  || contains "touchend" (toLowerCase event).

Module ArtCanvas.

(** an invocation of one of [this.callbacks] *)
Inductive callback : Type :=
| drawstart (x y : num)
| drawmove (x y : num)
| drawend (x y : num)
| changemode (m : string)
| selectlayer (index : Z)
| addlayer (index : Z)
| removelayer (index : Z).

Record t : Type :=
  mk { container : Container.t;
       mode : string; figure : string; transform : string;
       layers : list Canvas.t;
       activeLayer : Z;
       (** [this.textStyle]; [None] until [setTextStyle] *)
       textStyle : option TextStyle.t;
       (** the callbacks invoked so far, oldest first *)
       called : list callback;
       (** the variables [imagedata] and [isDown] of the constructor *)
       imagedata : option Context.ImageData;
       isDown : bool }.

Definition set_container (c : Container.t) (a : t) : t :=
  mk c (mode a) (figure a) (transform a) (layers a) (activeLayer a)
     (textStyle a) (called a) (imagedata a) (isDown a).
Definition set_mode (m : string) (a : t) : t :=
  mk (container a) m (figure a) (transform a) (layers a) (activeLayer a)
     (textStyle a) (called a) (imagedata a) (isDown a).
Definition set_figure (f : string) (a : t) : t :=
  mk (container a) (mode a) f (transform a) (layers a) (activeLayer a)
     (textStyle a) (called a) (imagedata a) (isDown a).
Definition set_transform (tr : string) (a : t) : t :=
  mk (container a) (mode a) (figure a) tr (layers a) (activeLayer a)
     (textStyle a) (called a) (imagedata a) (isDown a).
Definition set_layers (l : list Canvas.t) (a : t) : t :=
  mk (container a) (mode a) (figure a) (transform a) l (activeLayer a)
     (textStyle a) (called a) (imagedata a) (isDown a).
Definition set_activeLayer (i : Z) (a : t) : t :=
  mk (container a) (mode a) (figure a) (transform a) (layers a) i
     (textStyle a) (called a) (imagedata a) (isDown a).
Definition set_textStyle (s : option TextStyle.t) (a : t) : t :=
  mk (container a) (mode a) (figure a) (transform a) (layers a)
     (activeLayer a) s (called a) (imagedata a) (isDown a).
Definition set_imagedata (d : option Context.ImageData) (a : t) : t :=
  mk (container a) (mode a) (figure a) (transform a) (layers a)
     (activeLayer a) (textStyle a) (called a) d (isDown a).
Definition set_isDown (b : bool) (a : t) : t :=
  mk (container a) (mode a) (figure a) (transform a) (layers a)
     (activeLayer a) (textStyle a) (called a) (imagedata a) b.

(** invoking a callback *)
Definition invoke (c : callback) (a : t) : t :=
  mk (container a) (mode a) (figure a) (transform a) (layers a)
     (activeLayer a) (textStyle a) (called a ++ [c]) (imagedata a)
     (isDown a).

(** [this.layers[i]]; [None] is [undefined] *)
Definition layerAt (i : Z) (l : list Canvas.t) : option Canvas.t :=
  if (i <? 0)%Z then None else nth_error l (Z.to_nat i).

(** [this.layers[this.activeLayer]], about to be used as an object *)
Definition activeCanvas (a : t) : result Canvas.t :=
  match layerAt (activeLayer a) (layers a) with
  | Some cv => Ok cv
  | None => TypeError
  end.

(** the layer at [i] after it was changed in place *)
Fixpoint replaceNth (n : nat) (cv : Canvas.t) (l : list Canvas.t)
  : list Canvas.t :=
  match l, n with
  | [], _ => []
  | _ :: r, O => cv :: r
  | c :: r, S k => c :: replaceNth k cv r
  end.

Definition storeActive (cv : Canvas.t) (a : t) : t :=
  if (activeLayer a <? 0)%Z then a
  else set_layers (replaceNth (Z.to_nat (activeLayer a)) cv (layers a)) a.

Definition DEFAULT_WIDTH : Z := 300.
Definition DEFAULT_HEIGHT : Z := 300.

(** [function ArtCanvas(container, canvas, width, height, callbacks)] *)
Definition new (ct : Container.t)
           (canvas : option (Canvas.Element * Context.t))
           (width height : value) : t :=
  let w := parseInt width in
  let h := parseInt height in
  let ct1 :=
    Container.set_size
      (match w with
       | Some wz => if (0 <? wz)%Z then wz else DEFAULT_WIDTH
       | None => DEFAULT_WIDTH
       end)
      (match h with
       | Some hz => if (0 <? hz)%Z then hz else DEFAULT_HEIGHT
       | None => DEFAULT_HEIGHT
       end) ct in
  mk ct1 Mode.HAND Figure.RECTANGLE Transform.TRANSLATE
     [Canvas.new ct1 canvas width height 2] 0 None [] None false.

Definition getContainerWidth (a : t) : Z := Container.styleWidth (container a).
Definition getContainerHeight (a : t) : Z :=
  Container.styleHeight (container a).

Definition getMode (a : t) : string := mode a.
Definition getFigure (a : t) : string := figure a.
Definition getTransform (a : t) : string := transform a.

(** [ArtCanvas.prototype.addLayer] *)
Definition addLayer (width height : value) (a : t) : t :=
  let a1 :=
    set_layers
      (push (layers a)
         (Canvas.new (container a) None width height
            (Z.of_nat (List.length (layers a)) + 2)))
      a in
  let a2 := set_activeLayer (Z.of_nat (List.length (layers a1)) - 1) a1 in
  invoke (addlayer (activeLayer a2)) a2.

(** [ArtCanvas.prototype.validateLayerNumer]; [callback] is [None] when
    the argument is not a function *)
Definition validateLayerNumer (layerNumber : value)
           (callback : option (Z -> t -> t)) (a : t) : bool * t :=
  match parseInt layerNumber with
  | Some index =>
      if ((0 <=? index) && (index <? Z.of_nat (List.length (layers a))))%Z
      then (true, match callback with
                  | Some f => f index a
                  | None => a
                  end)
      else (false, a)
  | None => (false, a)
  end.

(** [Array.prototype.splice(index, 1)] at an index in range *)
Definition splice1 {A : Type} (index : Z) (l : list A) : list A :=
  firstn (Z.to_nat index) l ++ skipn (S (Z.to_nat index)) l.

(** [ArtCanvas.prototype.selectLayer] *)
Definition selectLayer (layerNumber : value) (a : t) : t :=
  snd (validateLayerNumer layerNumber
         (Some (fun index s => invoke (selectlayer index)
                                 (set_activeLayer index s)))
         a).

(** [ArtCanvas.prototype.removeLayer] *)
Definition removeLayer (layerNumber : value) (a : t) : t :=
  snd (validateLayerNumer layerNumber
         (Some (fun index s =>
                  invoke (removelayer index)
                    (set_activeLayer (activeLayer s - 1)
                       (set_layers (splice1 index (layers s)) s))))
         a).

(** [ArtCanvas.prototype.setMode], on [String(mode)] *)
Definition setMode (vmode : string) (a : t) : result t :=
  let m := toLowerCase vmode in
  let a1 :=
    if String.eqb m Mode.HAND || String.eqb m Mode.FIGURE
       || String.eqb m Mode.TRANSFORM
    then set_mode m a
    else if String.eqb m Mode.TEXT
         then addLayer (VNum (ofZ (getContainerWidth a)))
                (VNum (ofZ (getContainerHeight a))) (set_mode m a)
         else a in
  canvas <- activeCanvas a1 ;;
  r <- Canvas.drawText (textStyle a1) (container a1) canvas ;;
  let '(_, ct, canvas1) := r in
  Ok (invoke (changemode m) (storeActive canvas1 (set_container ct a1))).

(** [ArtCanvas.prototype.setFigure], on [String(figure)] *)
Definition setFigure (vfigure : string) (a : t) : t :=
  let f := toLowerCase vfigure in
  if String.eqb f Figure.RECTANGLE || String.eqb f Figure.CIRCLE
     || String.eqb f Figure.LINE
  then set_figure f a
  else a.

(** [ArtCanvas.prototype.setTransform], on [String(transform)] *)
Definition setTransform (vtransform : string) (a : t) : t :=
  let tr := toLowerCase vtransform in
  if String.eqb tr Transform.TRANSLATE || String.eqb tr Transform.SCALE
     || String.eqb tr Transform.ROTATE
  then set_transform tr a
  else a.

(** [ArtCanvas.prototype.setTextStyle]; [None] is an argument that is
    not an instance of [TextStyle] *)
Definition setTextStyle (s : option TextStyle.t) (a : t) : t :=
  match s with
  | Some _ => set_textStyle s a
  | None => a
  end.

(** [ArtCanvas.prototype.translate] *)
Definition translate (translateX translateY : value) (a : t) : result t :=
  canvas <- activeCanvas a ;;
  canvas1 <- Canvas.transform Transform.TRANSLATE
               (IsArray [translateX; translateY]) 2 canvas ;;
  Ok (storeActive canvas1 a).

(** [ArtCanvas.prototype.scale] *)
Definition scale (scaleX scaleY : value) (a : t) : result t :=
  canvas <- activeCanvas a ;;
  canvas1 <- Canvas.transform Transform.SCALE
               (IsArray [scaleX; scaleY]) 2 canvas ;;
  Ok (storeActive canvas1 a).

(** [ArtCanvas.prototype.rotate] *)
Definition rotate (degree : value) (a : t) : result t :=
  canvas <- activeCanvas a ;;
  canvas1 <- Canvas.transform Transform.ROTATE (IsArray [degree]) 2 canvas ;;
  Ok (storeActive canvas1 a).

(** *** The gesture handlers *)

(** an array element that was popped: [undefined] on the empty array *)
Definition popped (o : option (option Point.t)) : option Point.t :=
  match o with
  | Some p => p
  | None => None
  end.

(** the private function [_figure]; [event] is [event.type].  It
    changes the layer and the variable [imagedata]. *)
Definition _figure (cv : Canvas.t) (x y : num) (event : string) (a : t)
  : result (Canvas.t * t) :=
  if isStartType event then
    Ok (cv, set_imagedata (Some (Context.getImageData (Canvas.getContext cv))) a)
  else
    match pop (Canvas.paths cv) with
    | (rest, Some (Points ps)) =>
        let point := popped (snd (pop ps)) in
        let points := push (fst (pop ps)) point in
        let cv1 := Canvas.set_paths (push rest (Points points)) cv in
        ctx1 <- Context.putImageData (imagedata a) zero zero
                  (Canvas.context cv1) ;;
        let here := Point.new (VNum x) (VNum y) in
        if String.eqb (figure a) Figure.RECTANGLE then
          match point with
          | None => TypeError
          | Some p =>
              let left := Point.getX p in
              let top := Point.getY p in
              let offset := Point.getOffsetPoint (Some p) (Some here) in
              let ctx2 :=
                Context.fill (Context.stroke
                  (Context.rect left top (Point.getX offset)
                     (Point.getY offset) (Context.beginPath ctx1))) in
              let cv2 := Canvas.set_context ctx2 cv1 in
              Ok (if isEndType event
                  then Canvas.set_paths
                         (push (fst (pop (Canvas.paths cv2)))
                            (PRectangle
                               (Rectangle.new (VNum left) (VNum top)
                                  (VNum (Point.getX offset))
                                  (VNum (Point.getY offset)))))
                         cv2
                  else cv2, a)
          end
        else if String.eqb (figure a) Figure.CIRCLE then
          match point with
          | None => TypeError
          | Some p =>
              let centerX := Point.getX p in
              let centerY := Point.getY p in
              let radius := Point.getDistance (Some p) (Some here) in
              let ctx2 :=
                Context.fill (Context.stroke
                  (Context.arc centerX centerY radius zero
                     (mul (Fin 2) Math_PI) false (Context.beginPath ctx1))) in
              let cv2 := Canvas.set_context ctx2 cv1 in
              Ok (if isEndType event
                  then Canvas.set_paths
                         (push (fst (pop (Canvas.paths cv2)))
                            (PCircle
                               (Circle.new (VNum centerX) (VNum centerY)
                                  (VNum radius))))
                         cv2
                  else cv2, a)
          end
        else if String.eqb (figure a) Figure.LINE then
          match point with
          | None => TypeError
          | Some p =>
              let ctx2 :=
                Context.stroke
                  (Context.lineTo x y
                     (Context.moveTo (Point.getX p) (Point.getY p)
                        (Context.beginPath ctx1))) in
              let cv2 := Canvas.set_context ctx2 cv1 in
              Ok (if isEndType event
                  then Canvas.set_paths
                         (push (fst (pop (Canvas.paths cv2)))
                            (PLine (Line.new (Some p) (Some here))))
                         cv2
                  else cv2, a)
          end
        else Ok (Canvas.set_context ctx1 cv1, a)
    | _ => TypeError
    end.

(** the amounts computed by [_transform] from the offset *)
Definition gestureAmounts (kind : string) (offset : Point.t)
           (canvas : Canvas.Element) : list value :=
  if String.eqb kind Transform.TRANSLATE then
    [VNum (Point.getX offset); VNum (Point.getY offset)]
  else if String.eqb kind Transform.SCALE then
    let offsetX := Point.getX offset in
    let offsetY := Point.getY offset in
    let scaleX :=
      if negb (eq offsetX zero)
      then add (Fin 1) (div offsetX (ofZ (Canvas.width canvas)))
      else Fin 1 in
    let scaleY :=
      if negb (eq offsetY zero)
      then add (Fin 1) (div offsetY (ofZ (Canvas.height canvas)))
      else Fin 1 in
    [VNum scaleX; VNum scaleY]
  else if String.eqb kind Transform.ROTATE then
    let radian := Math_atan2 (Point.getY offset) (Point.getX offset) in
    [VNum (mul (div radian Math_PI) (Fin 180))]
  else [].

(** the private function [_transform] *)
Definition _transform (cv : Canvas.t) (x y : num) (a : t)
  : result Canvas.t :=
  match pop (Canvas.paths cv) with
  | (rest, Some (Points ps)) =>
      let point := popped (snd (pop ps)) in
      let offset :=
        Point.getOffsetPoint point (Some (Point.new (VNum x) (VNum y))) in
      let amounts :=
        gestureAmounts (transform a) offset (Canvas.getCanvas cv) in
      cv1 <- Canvas.transform (transform a) (IsArray amounts) 2
               (Canvas.set_paths rest cv) ;;
      Ok (Canvas.set_paths
            (push (Canvas.paths cv1) (Points (push (fst (pop ps)) point)))
            cv1)
  | _ => TypeError
  end.

(** the body of the listener of [MouseEvents.START], at the pointer
    position [(x, y)] *)
Definition startAt (cv : Canvas.t) (x y : num) (event : string) (a : t)
  : result t :=
  if String.eqb (mode a) Mode.TEXT then
    Ok (set_container
          (Canvas.createTextbox (Some (Point.new (VNum x) (VNum y)))
             (container a) cv)
          a)
  else
    r <- (if String.eqb (mode a) Mode.HAND then
            Ok (Canvas.set_context
                  (Context.moveTo x y (Context.beginPath (Canvas.context cv)))
                  cv, a)
          else if String.eqb (mode a) Mode.FIGURE then
            _figure cv x y event a
          else Ok (cv, a)) ;;
    let (cv1, a1) := r in
    let cv2 :=
      Canvas.set_paths
        (push (Canvas.paths cv1) (Points [Some (Point.new (VNum x) (VNum y))]))
        cv1 in
    Ok (invoke (drawstart x y) (set_isDown true (storeActive cv2 a1))).

(** the listener of [MouseEvents.START] *)
Definition onStart (event : Event.t) (a : t) : result t :=
  cv <- activeCanvas a ;;
  x <- Canvas.getOffsetX (Some event) (container a) cv ;;
  y <- Canvas.getOffsetY (Some event) (container a) cv ;;
  startAt cv x y (Event.type event) a.

(** the body of the listener of [MouseEvents.MOVE] *)
Definition moveAt (cv : Canvas.t) (x y : num) (event : string) (a : t)
  : result t :=
  r <- (if String.eqb (mode a) Mode.HAND then
          match pop (Canvas.paths cv) with
          | (rest, Some (Points ps)) =>
              match popped (snd (pop ps)) with
              | None => TypeError
              | Some p =>
                  let ctx :=
                    Context.stroke
                      (Context.lineTo x y
                         (Context.moveTo (Point.getX p) (Point.getY p)
                            (Context.beginPath (Canvas.context cv)))) in
                  let points :=
                    push (push (fst (pop ps)) (Some p))
                         (Some (Point.new (VNum x) (VNum y))) in
                  Ok (Canvas.set_paths (push rest (Points points))
                        (Canvas.set_context ctx cv), a)
              end
          | _ => TypeError
          end
        else if String.eqb (mode a) Mode.TEXT then Ok (cv, a)
        else if String.eqb (mode a) Mode.FIGURE then _figure cv x y event a
        else if String.eqb (mode a) Mode.TRANSFORM then
          cv1 <- _transform cv x y a ;; Ok (cv1, a)
        else Ok (cv, a)) ;;
  let (cv1, a1) := r in
  Ok (invoke (drawmove x y) (storeActive cv1 a1)).

(** the listener of [MouseEvents.MOVE] *)
Definition onMove (event : Event.t) (a : t) : result t :=
  if negb (isDown a) then Ok a
  else
    cv <- activeCanvas a ;;
    x <- Canvas.getOffsetX (Some event) (container a) cv ;;
    y <- Canvas.getOffsetY (Some event) (container a) cv ;;
    moveAt cv x y (Event.type event) a.

(** the body of the listener of [MouseEvents.END] *)
Definition endAt (cv : Canvas.t) (x y : num) (event : string) (a : t)
  : result t :=
  r <- (if String.eqb (mode a) Mode.HAND then Ok (cv, a)
        else if String.eqb (mode a) Mode.FIGURE then
          r1 <- _figure cv x y event a ;;
          Ok (fst r1, set_imagedata None (snd r1))
        else if String.eqb (mode a) Mode.TEXT then Ok (cv, a)
        else if String.eqb (mode a) Mode.TRANSFORM then
          Ok (Canvas.set_paths (fst (pop (Canvas.paths cv))) cv, a)
        else Ok (cv, a)) ;;
  let (cv1, a1) := r in
  Ok (invoke (drawend x y) (set_isDown false (storeActive cv1 a1))).

(** the listener of [MouseEvents.END] *)
Definition onEnd (event : Event.t) (a : t) : result t :=
  if negb (isDown a) then Ok a
  else
    cv <- activeCanvas a ;;
    x <- Canvas.getOffsetX (Some event) (container a) cv ;;
    y <- Canvas.getOffsetY (Some event) (container a) cv ;;
    endAt cv x y (Event.type event) a.

(** *** Sequences of calls *)

Fixpoint onMoves (events : list Event.t) (a : t) : result t :=
  match events with
  | [] => Ok a
  | e :: r => a1 <- onMove e a ;; onMoves r a1
  end.

(** a gesture: pointer-down, pointer-moves, pointer-up *)
Definition gesture (down : Event.t) (moves : list Event.t) (up : Event.t)
           (a : t) : result t :=
  a1 <- onStart down a ;;
  a2 <- onMoves moves a1 ;;
  onEnd up a2.

Inductive layerCall : Type :=
| AddLayer (width height : value)
| RemoveLayer (layerNumber : value).

Definition call (c : layerCall) (a : t) : t :=
  match c with
  | AddLayer w h => addLayer w h a
  | RemoveLayer n => removeLayer n a
  end.


(** *** Styles of the active layer *)

(** [ArtCanvas.prototype.getFillStyle] *)
Definition getFillStyle (a : t) : result string :=
  canvas <- activeCanvas a ;; Ok (Canvas.getFillStyle canvas).

(** [ArtCanvas.prototype.setFillStyle], on [String(fillStyle)] *)
Definition setFillStyle (fillStyle : string) (a : t) : result t :=
  canvas <- activeCanvas a ;;
  canvas1 <- Canvas.setFillStyle fillStyle canvas ;;
  Ok (storeActive canvas1 a).

(** [ArtCanvas.prototype.getStrokeStyle] *)
Definition getStrokeStyle (a : t) : result string :=
  canvas <- activeCanvas a ;; Ok (Canvas.getStrokeStyle canvas).

(** [ArtCanvas.prototype.setStrokeStyle], on [String(strokeStyle)] *)
Definition setStrokeStyle (strokeStyle : string) (a : t) : result t :=
  canvas <- activeCanvas a ;;
  canvas1 <- Canvas.setStrokeStyle strokeStyle canvas ;;
  Ok (storeActive canvas1 a).

(** [ArtCanvas.prototype.getLineWidth] *)
Definition getLineWidth (a : t) : result num :=
  canvas <- activeCanvas a ;; Ok (Canvas.getLineWidth canvas).

(** [ArtCanvas.prototype.setLineWidth] *)
Definition setLineWidth (lineWidth : value) (a : t) : result t :=
  canvas <- activeCanvas a ;;
  canvas1 <- Canvas.setLineWidth lineWidth canvas ;;
  Ok (storeActive canvas1 a).

(** [ArtCanvas.prototype.getTextStyle] *)
Definition getTextStyle (a : t) : option TextStyle.t := textStyle a.

End ArtCanvas.

(* ------------------------------------------------------------------ *)
(** ** Vocabulary of the properties *)


Definition isSome {A : Type} (o : option A) : bool :=
  match o with Some _ => true | None => false end.

(** a stored object that [draw] and [getCenterPoint] can read: an array
    without holes, a line with both ends, a text with a style and a font;
    the handlers and [drawText] store no other *)
Definition drawable (p : path) : bool :=
  match p with
  | Points ps => forallb isSome ps
  | PLine l => isSome (Line.startPoint l) && isSome (Line.endPoint l)
  | PText s =>
      match Text.textStyle s with
      | Some ts => isSome (TextStyle.font ts)
      | None => false
      end
  | PRectangle _ | PCircle _ => true
  end.

(** a finalized shape, as opposed to an array of points *)
Definition isShape (p : path) : bool :=
  match p with
  | Points _ => false
  | _ => true
  end.

(** an event whose coordinates the handlers can read *)
Definition readable (e : Event.t) : bool :=
  isOk (Canvas.pickSource (truthy (Canvas.toNumber (Event.pageX e))) e)
  && isOk (Canvas.pickSource (truthy (Canvas.toNumber (Event.pageY e))) e).

Definition isModeName (m : string) : bool :=
  String.eqb m Mode.HAND || String.eqb m Mode.FIGURE
  || String.eqb m Mode.TEXT || String.eqb m Mode.TRANSFORM.

Definition isFigureName (f : string) : bool :=
  String.eqb f Figure.RECTANGLE || String.eqb f Figure.CIRCLE
  || String.eqb f Figure.LINE.

Definition isTransformName (k : string) : bool :=
  String.eqb k Transform.TRANSLATE || String.eqb k Transform.SCALE
  || String.eqb k Transform.ROTATE.


(** the matrix under which [transform(type, amounts)] replays the paths *)
Definition pixelMapping (type : string) (amounts : amountsArg)
           (cv : Canvas.t) : result matrix :=
  cv1 <- Canvas.beforeReplay type amounts cv ;;
  Ok (Context.ctm (Canvas.context cv1)).

(** the matrices the specification names *)
Definition translation (tx ty : R) : matrix := Matrix 1 0 0 1 tx ty.

Definition rotation (r : R) : matrix :=
  Matrix (cos r) (sin r) (- sin r) (cos r) 0 0.

Definition rotationAbout (cx cy r : R) : matrix :=
  mmul (mmul (translation cx cy) (rotation r)) (translation (- cx) (- cy)).

Definition scaleTranslation (sx sy tx ty : R) : matrix :=
  Matrix sx 0 0 sy tx ty.

(** what a drawing call leaves alone: everything but the list of calls
    and the font *)
Definition surfaceState (c : Context.t)
  : string * string * num * matrix * list Context.state
    * (string -> string -> R) :=
  (Context.strokeStyle c, Context.fillStyle c, Context.lineWidth c,
   Context.ctm c, Context.saved c, Context.measure c).

(** a context reached from [c] by drawing calls made under the matrix of
    [c], which leave the surface state of [c] *)
Definition drawnOver (c c' : Context.t) : Prop :=
  surfaceState c' = surfaceState c
  /\ exists added,
      Context.drawn c' = Context.drawn c ++ added
      /\ Forall (fun e => fst e = Context.ctm c) added.

(** the drawing calls that replay an array of points from index [j] on,
    and those that replay a stored object *)
Fixpoint pointsCalls (ps : list (option Point.t)) (j : nat)
  : list Context.call :=
  match ps with
  | Some p :: r =>
      match j with
      | O => [Context.beginPath_; Context.moveTo_ (Point.x p) (Point.y p)]
      | S _ => [Context.lineTo_ (Point.x p) (Point.y p); Context.stroke_]
      end ++ pointsCalls r (S j)
  | _ => []
  end.

Definition pathCalls (p : path) : list Context.call :=
  match p with
  | Points ps => pointsCalls ps O
  | PRectangle r =>
      [Context.beginPath_;
       Context.rect_ (Rectangle.top r) (Rectangle.left r) (Rectangle.width r)
         (Rectangle.height r);
       Context.stroke_; Context.fill_]
  | PCircle c =>
      [Context.beginPath_;
       Context.arc_ (Circle.centerX c) (Circle.centerY c) (Circle.radius c)
         zero (mul (Fin 2) Math_PI) false;
       Context.stroke_; Context.fill_]
  | PLine l =>
      match Line.startPoint l, Line.endPoint l with
      | Some s, Some e =>
          [Context.beginPath_; Context.moveTo_ (Point.x s) (Point.y s);
           Context.lineTo_ (Point.x e) (Point.y e); Context.stroke_]
      | _, _ => []
      end
  | PText s =>
      [Context.fillText_ (Text.text s) (Point.x (Text.point s))
         (Point.y (Text.point s))]
  end.

(** a full redraw under the matrix [m]: every stored object, in order *)
Definition redraw (m : matrix) (ps : list path)
  : list (matrix * Context.call) :=
  map (pair m) (flat_map pathCalls ps).

(** the paths of the active layer *)
Definition activePaths (a : ArtCanvas.t) : result (list path) :=
  cv <- ArtCanvas.activeCanvas a ;; Ok (Canvas.paths cv).

(** the shape that a figure gesture from the anchor [p] to [(x, y)]
    stands for *)
Definition figureShape (figure : string) (p : Point.t) (x y : num) : path :=
  let here := Point.new (VNum x) (VNum y) in
  let offset := Point.getOffsetPoint (Some p) (Some here) in
  if String.eqb figure Figure.RECTANGLE then
    PRectangle (Rectangle.new (VNum (Point.x p)) (VNum (Point.y p))
                  (VNum (Point.x offset)) (VNum (Point.y offset)))
  else if String.eqb figure Figure.CIRCLE then
    PCircle (Circle.new (VNum (Point.x p)) (VNum (Point.y p))
               (VNum (Point.getDistance (Some p) (Some here))))
  else PLine (Line.new (Some p) (Some here)).

(** the pixel mapping of ROTATE 90 issued after SCALE (2, 2), and that
    of SCALE (2, 2) issued after ROTATE 90 *)
Definition scaleThenRotate (cv : Canvas.t) : result matrix :=
  cv1 <- Canvas.transform Transform.SCALE
           (IsArray [VNum (Fin 2); VNum (Fin 2)]) 2 cv ;;
  pixelMapping Transform.ROTATE (IsArray [VNum (Fin 90)]) cv1.

Definition rotateThenScale (cv : Canvas.t) : result matrix :=
  cv1 <- Canvas.transform Transform.ROTATE (IsArray [VNum (Fin 90)]) 2 cv ;;
  pixelMapping Transform.SCALE (IsArray [VNum (Fin 2); VNum (Fin 2)]) cv1.


(** The listeners once the position [(x, y)] of the pointer on the
    canvas is known: what each of them does after reading [x] and [y]. *)
Definition pointerDown (x y : num) (ty : string) (a : ArtCanvas.t)
  : result ArtCanvas.t :=
  cv <- ArtCanvas.activeCanvas a ;; ArtCanvas.startAt cv x y ty a.

Definition pointerMove (x y : num) (ty : string) (a : ArtCanvas.t)
  : result ArtCanvas.t :=
  if negb (ArtCanvas.isDown a) then Ok a
  else cv <- ArtCanvas.activeCanvas a ;; ArtCanvas.moveAt cv x y ty a.

Definition pointerUp (x y : num) (ty : string) (a : ArtCanvas.t)
  : result ArtCanvas.t :=
  if negb (ArtCanvas.isDown a) then Ok a
  else cv <- ArtCanvas.activeCanvas a ;; ArtCanvas.endAt cv x y ty a.

Fixpoint pointerMoves (ps : list (num * num)) (ty : string)
         (a : ArtCanvas.t) : result ArtCanvas.t :=
  match ps with
  | [] => Ok a
  | p :: r => a1 <- pointerMove (fst p) (snd p) ty a ;; pointerMoves r ty a1
  end.

(** a gesture given by its positions: down at [p0], moves to each of
    [ps], up at [p1]; [touchPanel] decides the event types *)
Definition gestureAt (touchPanel : bool) (p0 : num * num)
           (ps : list (num * num)) (p1 : num * num) (a : ArtCanvas.t)
  : result ArtCanvas.t :=
  a1 <- pointerDown (fst p0) (snd p0) (MouseEvents.START touchPanel) a ;;
  a2 <- pointerMoves ps (MouseEvents.MOVE touchPanel) a1 ;;
  pointerUp (fst p1) (snd p1) (MouseEvents.END touchPanel) a2.

(** a page for the examples: a container at the origin of the page, not
    scrolled, no text box, every text of width 0 *)
Definition page : Container.t :=
  Container.mk 0 0 0 0 300 300 None (fun _ _ => 0%R).

(** the user types [s] into the text box of the container, if there is
    one *)
Definition typeText (s : string) (a : ArtCanvas.t) : ArtCanvas.t :=
  match Container.textbox (ArtCanvas.container a) with
  | Some tb =>
      ArtCanvas.set_container
        (Container.set_textbox
           (Some (Container.mkTextbox s (Container.left tb)
                    (Container.top tb)))
           (ArtCanvas.container a))
        a
  | None => a
  end.

(** the point of the canvas that the matrix [m] sends [(x, y)] to *)
Definition mapPoint (m : matrix) (x y : R) : R * R :=
  (ma m * x + mc m * y + me m, mb m * x + md m * y + mf m)%R.

(** the Point made from a pointer position *)
Definition pointAt (q : num * num) : Point.t :=
  Point.new (VNum (fst q)) (VNum (snd q)).

(** the drawing calls of the pointer-moves of a freehand stroke: each
    move draws the segment from the last stored point to its position *)
Fixpoint liveSegments (p : Point.t) (qs : list (num * num))
  : list Context.call :=
  match qs with
  | [] => []
  | q :: r =>
      [Context.beginPath_; Context.moveTo_ (Point.x p) (Point.y p);
       Context.lineTo_ (fst q) (snd q); Context.stroke_]
      ++ liveSegments (pointAt q) r
  end.

(** what a transform of the kind [k] leaves of the TransformState: the
    skew, and the components of the other kinds *)
Definition othersKept (k : string) (tr tr' : Canvas.Transforms) : Prop :=
  Canvas.skew tr' = Canvas.skew tr
  /\ (k <> Transform.TRANSLATE -> Canvas.translate tr' = Canvas.translate tr)
  /\ (k <> Transform.SCALE -> Canvas.scale tr' = Canvas.scale tr)
  /\ (k <> Transform.ROTATE -> Canvas.rotate tr' = Canvas.rotate tr).

(** *** Runs of calls *)

(** a call of the public interface, a pointer event delivered to the
    listeners, or the user typing into the text box *)
Inductive apiCall : Type :=
| CallAddLayer (width height : value)
| CallRemoveLayer (layerNumber : value)
| CallSelectLayer (layerNumber : value)
| CallSetMode (mode : string)
| CallSetFigure (figure : string)
| CallSetTransform (transform : string)
| CallSetTextStyle (style : option TextStyle.t)
| CallTranslate (translateX translateY : value)
| CallScale (scaleX scaleY : value)
| CallRotate (degree : value)
| CallSetFillStyle (fillStyle : string)
| CallSetStrokeStyle (strokeStyle : string)
| CallSetLineWidth (lineWidth : value)
| EventStart (event : Event.t)
| EventMove (event : Event.t)
| EventEnd (event : Event.t)
| UserTypes (text : string).

Definition perform (c : apiCall) (a : ArtCanvas.t) : result ArtCanvas.t :=
  match c with
  | CallAddLayer w h => Ok (ArtCanvas.addLayer w h a)
  | CallRemoveLayer n => Ok (ArtCanvas.removeLayer n a)
  | CallSelectLayer n => Ok (ArtCanvas.selectLayer n a)
  | CallSetMode m => ArtCanvas.setMode m a
  | CallSetFigure f => Ok (ArtCanvas.setFigure f a)
  | CallSetTransform k => Ok (ArtCanvas.setTransform k a)
  | CallSetTextStyle s => Ok (ArtCanvas.setTextStyle s a)
  | CallTranslate x y => ArtCanvas.translate x y a
  | CallScale x y => ArtCanvas.scale x y a
  | CallRotate d => ArtCanvas.rotate d a
  | CallSetFillStyle s => ArtCanvas.setFillStyle s a
  | CallSetStrokeStyle s => ArtCanvas.setStrokeStyle s a
  | CallSetLineWidth w => ArtCanvas.setLineWidth w a
  | EventStart e => ArtCanvas.onStart e a
  | EventMove e => ArtCanvas.onMove e a
  | EventEnd e => ArtCanvas.onEnd e a
  | UserTypes s => Ok (typeText s a)
  end.

(** a run: the calls one after the other, as long as none throws *)
Fixpoint run (cs : list apiCall) (a : ArtCanvas.t) : result ArtCanvas.t :=
  match cs with
  | [] => Ok a
  | c :: r => a1 <- perform c a ;; run r a1
  end.

(** a stored object as the handlers and [drawText] make them: an array
    of points that is not empty and has no hole, a rectangle, a circle,
    a line with both end points, a text with a style that has a font *)
Definition wellFormed (p : path) : bool :=
  match p with
  | Points ps =>
      match ps with [] => false | _ :: _ => forallb isSome ps end
  | _ => drawable p
  end.

Definition noNaN (tr : Canvas.Transforms) : bool :=
  negb (isNaN (Canvas.x (Canvas.translate tr)))
  && negb (isNaN (Canvas.y (Canvas.translate tr)))
  && negb (isNaN (Canvas.x (Canvas.scale tr)))
  && negb (isNaN (Canvas.y (Canvas.scale tr)))
  && negb (isNaN (Canvas.x (Canvas.skew tr)))
  && negb (isNaN (Canvas.y (Canvas.skew tr)))
  && negb (isNaN (Canvas.rotate tr)).

Definition layerOk (cv : Canvas.t) : bool :=
  forallb wellFormed (Canvas.paths cv) && noNaN (Canvas.transforms cv).

Definition stateOk (a : ArtCanvas.t) : bool :=
  isModeName (ArtCanvas.mode a)
  && isFigureName (ArtCanvas.figure a)
  && isTransformName (ArtCanvas.transform a)
  && forallb layerOk (ArtCanvas.layers a)
  && (0 <? Container.styleWidth (ArtCanvas.container a))%Z
  && (0 <? Container.styleHeight (ArtCanvas.container a))%Z.

(** what the setters of a layer leave of an ArtCanvas *)
Definition sameFrame (a a' : ArtCanvas.t) : Prop :=
  ArtCanvas.mode a' = ArtCanvas.mode a
  /\ ArtCanvas.figure a' = ArtCanvas.figure a
  /\ ArtCanvas.transform a' = ArtCanvas.transform a
  /\ Container.styleWidth (ArtCanvas.container a')
     = Container.styleWidth (ArtCanvas.container a)
  /\ Container.styleHeight (ArtCanvas.container a')
     = Container.styleHeight (ArtCanvas.container a).

(** the position of the pointer on the canvas that a listener reads from
    an event: [getOffsetX], then [getOffsetY] *)
Definition positionOn (ct : Container.t) (cv : Canvas.t) (e : Event.t)
  : result (num * num) :=
  x <- Canvas.getOffsetX (Some e) ct cv ;;
  y <- Canvas.getOffsetY (Some e) ct cv ;;
  Ok (x, y).

(** An argument that [parseInt] reads as the model says.  [parseInt]
    prints its argument first; a number is printed without an exponent
    when it is 0 or its absolute value lies from 10^-6 up to below 10^21,
    and the integer part of such a print is the truncation of the number.
    Outside of that range the print has an exponent ([1e+21], [1e-7]) and
    [parseInt] reads the digits before it, which [JS.parseInt] does not
    represent. *)
Definition plainArgument (n : value) : Prop :=
  match n with
  | VNum (Fin r) => (r = 0 \/ / 10 ^ 6 <= Rabs r < 10 ^ 21)%R
  | _ => True
  end.

(** *** Shapes on the pixel grid *)

(** a stored object whose coordinates are integers: a stroke through the
    points [q :: qs], a line from [a] to [b], a Rectangle record with the
    fields [left], [top], [width], [height] *)
Inductive gridShape : Type :=
| GridStroke (q : Z * Z) (qs : list (Z * Z))
| GridLine (a b : Z * Z)
| GridRectangle (left top width height : Z).

Definition gridPoint (q : Z * Z) : Point.t :=
  Point.mk (ofZ (fst q)) (ofZ (snd q)).

Definition gridPath (g : gridShape) : path :=
  match g with
  | GridStroke q qs => Points (map (fun p => Some (gridPoint p)) (q :: qs))
  | GridLine a b => PLine (Line.mk (Some (gridPoint a)) (Some (gridPoint b)))
  | GridRectangle l t w h =>
      PRectangle (Rectangle.mk (ofZ t) (ofZ l) (ofZ w) (ofZ h))
  end.

(** a coordinate of the grid: not negative, and small enough for the
    sums and halves of two of them to be exact in a double *)
Definition inGrid (z : Z) : bool := ((0 <=? z) && (z <? 2 ^ 52))%Z.

Definition pointInGrid (q : Z * Z) : bool := inGrid (fst q) && inGrid (snd q).

Definition onGrid (g : gridShape) : bool :=
  match g with
  | GridStroke q qs => pointInGrid q && forallb pointInGrid qs
  | GridLine a b => pointInGrid a && pointInGrid b
  | GridRectangle l t w h => inGrid l && inGrid t && inGrid w && inGrid h
  end.

(** the bounding box: the least and the greatest x and y of the shape,
    as (left, top, right, bottom) *)
Definition boundingBox (g : gridShape) : Z * Z * Z * Z :=
  match g with
  | GridStroke q qs =>
      (fold_left Z.min (map fst qs) (fst q),
       fold_left Z.min (map snd qs) (snd q),
       fold_left Z.max (map fst qs) (fst q),
       fold_left Z.max (map snd qs) (snd q))
  | GridLine a b =>
      (Z.min (fst a) (fst b), Z.min (snd a) (snd b),
       Z.max (fst a) (fst b), Z.max (snd a) (snd b))
  | GridRectangle l t w h => (l, t, (l + w)%Z, (t + h)%Z)
  end.

(** the center of a box, each coordinate rounded down to an integer *)
Definition boxCenter (b : Z * Z * Z * Z) : Z * Z :=
  let '(l, t, r, bo) := b in (((l + r) / 2)%Z, ((t + bo) / 2)%Z).

(* ================================================================== *)
(** * Properties *)

Lemma Ok_inj (A : Type) (x y : A) : Ok x = Ok y -> x = y.
Proof. intros H. now injection H. Qed.

(** ** Numbers *)

Section NumberFacts.

Local Open Scope R_scope.

Lemma Rltb_true (x y : R) : x < y -> Rltb x y = true.
Proof. intros H; unfold Rltb; destruct (Rlt_dec x y); [reflexivity | contradiction]. Qed.

Lemma Rltb_false (x y : R) : ~ x < y -> Rltb x y = false.
Proof. intros H; unfold Rltb; destruct (Rlt_dec x y); [contradiction | reflexivity]. Qed.

Lemma Reqb_true (x y : R) : x = y -> Reqb x y = true.
Proof. intros H; unfold Reqb; destruct (Req_dec_T x y); [reflexivity | contradiction]. Qed.

Lemma Reqb_false (x y : R) : x <> y -> Reqb x y = false.
Proof. intros H; unfold Reqb; destruct (Req_dec_T x y); [contradiction | reflexivity]. Qed.

Lemma Reqb_refl (x : R) : Reqb x x = true.
Proof. apply Reqb_true; reflexivity. Qed.

Lemma trunc_IZR (z : Z) : trunc (IZR z) = z.
Proof.
  unfold trunc; destruct (Rltb (IZR z) 0).
  - unfold Zceil. rewrite ZfloorNZ. lia.
  - apply ZfloorZ.
Qed.

Lemma parseInt_ofZ (z : Z) : parseInt (VNum (ofZ z)) = Some z.
Proof. simpl. now rewrite trunc_IZR. Qed.

(** a real between two consecutive integers truncates to the lower one *)
Lemma trunc_nonneg (r : R) (z : Z) : IZR z <= r < IZR z + 1 -> 0 <= r -> trunc r = z.
Proof.
  intros H H0. unfold trunc. rewrite Rltb_false by lra. now apply Zfloor_eq.
Qed.

Lemma ge_zero_not_NaN (n : num) : ge n zero = true -> isNaN n = false.
Proof. destruct n; simpl; intros H; try reflexivity; discriminate. Qed.

Lemma Fin_inj (x y : R) : Fin x = Fin y -> x = y.
Proof. intros H; now injection H. Qed.

End NumberFacts.

(* ------------------------------------------------------------------ *)
(** ** The layer stack *)

Section LayerStack.

Import ArtCanvas.

Lemma push_length {A : Type} (l : list A) (a : A) :
  List.length (push l a) = S (List.length l).
Proof. unfold push. rewrite length_app. simpl. lia. Qed.

Lemma splice1_length {A : Type} (index : Z) (l : list A) :
  (0 <= index < Z.of_nat (List.length l))%Z ->
  List.length (splice1 index l) = pred (List.length l).
Proof.
  intros H. unfold splice1.
  rewrite length_app, length_firstn, length_skipn. lia.
Qed.








(** C9.  [addLayer] appends exactly one layer at the end of the layer
    list, the one it constructs, and makes it the active layer whatever
    layer was active before. *)
Theorem C9_addLayer_appends_and_activates (w h : value) (a : t) :
  layers (addLayer w h a)
  = layers a ++ [Canvas.new (container a) None w h
                   (Z.of_nat (List.length (layers a)) + 2)]
  /\ List.length (layers (addLayer w h a)) = S (List.length (layers a))
  /\ activeLayer (addLayer w h a)
     = (Z.of_nat (List.length (layers (addLayer w h a))) - 1)%Z
  /\ layerAt (activeLayer (addLayer w h a)) (layers (addLayer w h a))
     = Some (Canvas.new (container a) None w h
               (Z.of_nat (List.length (layers a)) + 2)).
Proof.
  split; [reflexivity|]. split; [apply push_length|]. split; [reflexivity|].
  unfold layerAt. simpl. rewrite push_length.
  replace (Z.of_nat (S (List.length (layers a))) - 1)%Z
    with (Z.of_nat (List.length (layers a))) by lia.
  destruct (Z.ltb_spec (Z.of_nat (List.length (layers a))) 0); [lia|].
  rewrite Nat2Z.id. unfold push.
  rewrite nth_error_app2 by lia. now rewrite Nat.sub_diag.
Qed.

End LayerStack.

Section LayerStackExamples.

Import ArtCanvas.


End LayerStackExamples.

(* ------------------------------------------------------------------ *)
(** ** Mode and figure setters *)

Section Setters.

Import ArtCanvas.

Lemma storeActive_frame (cv : Canvas.t) (a : t) :
  container (storeActive cv a) = container a
  /\ mode (storeActive cv a) = mode a
  /\ figure (storeActive cv a) = figure a
  /\ transform (storeActive cv a) = transform a
  /\ activeLayer (storeActive cv a) = activeLayer a
  /\ textStyle (storeActive cv a) = textStyle a
  /\ called (storeActive cv a) = called a
  /\ imagedata (storeActive cv a) = imagedata a
  /\ isDown (storeActive cv a) = isDown a.
Proof.
  unfold storeActive. destruct (activeLayer a <? 0)%Z; simpl; repeat split.
Qed.





End Setters.

(* ------------------------------------------------------------------ *)
(** ** Geometry primitives *)

Section Geometry.

Lemma Point_new_x (vx vy : value) :
  Point.x (Point.new vx vy)
  = if isNaN (parseFloat vx) then zero else parseFloat vx.
Proof. unfold Point.new; simpl. now destruct (isNaN (parseFloat vx)). Qed.

Lemma Point_new_y (vx vy : value) :
  Point.y (Point.new vx vy)
  = if isNaN (parseFloat vy) then zero else parseFloat vy.
Proof. unfold Point.new; simpl. now destruct (isNaN (parseFloat vy)). Qed.

Lemma Point_new_num (x y : num) :
  isNaN x = false -> isNaN y = false ->
  Point.new (VNum x) (VNum y) = Point.mk x y.
Proof. intros Hx Hy. unfold Point.new; simpl. now rewrite Hx, Hy. Qed.

Lemma Point_new_not_NaN (vx vy : value) :
  isNaN (Point.x (Point.new vx vy)) = false
  /\ isNaN (Point.y (Point.new vx vy)) = false.
Proof.
  rewrite Point_new_x, Point_new_y.
  split; [destruct (isNaN (parseFloat vx)) eqn:E
         | destruct (isNaN (parseFloat vy)) eqn:E]; auto.
Qed.

(** C8 (amended).  A Point's coordinate is 0 when its input does not
    parse to a number, the parsed number otherwise, and never NaN; a
    Rectangle's width and height and a Circle's radius are the parsed
    input when it is >= 0 and 0 otherwise; the offset of two Points has
    the coordinates b.x - a.x and b.y - a.y, a difference that is NaN
    (equal infinities) replaced by 0; the distance is the square root of
    the sum of the squares of the offset's coordinates, which is
    sqrt(dx^2 + dy^2) when neither difference is NaN.  All of them are
    functions of their arguments alone. *)
Theorem C8_geometry_constructors
        (vx vy vt vl vw vh vr : value) (a b : Point.t) :
  (isNaN (parseFloat vx) = true -> Point.x (Point.new vx vy) = zero)
  /\ (isNaN (parseFloat vy) = true -> Point.y (Point.new vx vy) = zero)
  /\ (isNaN (parseFloat vx) = false -> Point.x (Point.new vx vy) = parseFloat vx)
  /\ (isNaN (parseFloat vy) = false -> Point.y (Point.new vx vy) = parseFloat vy)
  /\ isNaN (Point.x (Point.new vx vy)) = false
  /\ isNaN (Point.y (Point.new vx vy)) = false
  /\ Rectangle.width (Rectangle.new vt vl vw vh)
     = (if ge (parseFloat vw) zero then parseFloat vw else zero)
  /\ Rectangle.height (Rectangle.new vt vl vw vh)
     = (if ge (parseFloat vh) zero then parseFloat vh else zero)
  /\ Circle.radius (Circle.new vx vy vr)
     = (if ge (parseFloat vr) zero then parseFloat vr else zero)
  /\ Point.x (Point.getOffsetPoint (Some a) (Some b))
     = (if isNaN (sub (Point.x b) (Point.x a)) then zero
        else sub (Point.x b) (Point.x a))
  /\ Point.y (Point.getOffsetPoint (Some a) (Some b))
     = (if isNaN (sub (Point.y b) (Point.y a)) then zero
        else sub (Point.y b) (Point.y a))
  /\ Point.getDistance (Some a) (Some b)
     = Math_sqrt
         (add (Math_pow (Point.x (Point.getOffsetPoint (Some a) (Some b))) 2)
              (Math_pow (Point.y (Point.getOffsetPoint (Some a) (Some b))) 2))
  /\ (isNaN (sub (Point.x b) (Point.x a)) = false ->
      isNaN (sub (Point.y b) (Point.y a)) = false ->
      Point.getOffsetPoint (Some a) (Some b)
      = Point.mk (sub (Point.x b) (Point.x a)) (sub (Point.y b) (Point.y a))
      /\ Point.getDistance (Some a) (Some b)
         = Math_sqrt (add (Math_pow (sub (Point.x b) (Point.x a)) 2)
                          (Math_pow (sub (Point.y b) (Point.y a)) 2))).
Proof.
  rewrite !Point_new_x, !Point_new_y.
  split; [now intros ->|]. split; [now intros ->|].
  split; [now intros ->|]. split; [now intros ->|].
  split; [now destruct (isNaN (parseFloat vx)) eqn:E|].
  split; [now destruct (isNaN (parseFloat vy)) eqn:E|].
  split; [reflexivity|]. split; [reflexivity|]. split; [reflexivity|].
  split; [apply Point_new_x|]. split; [apply Point_new_y|].
  split; [reflexivity|].
  intros Hx Hy. unfold Point.getDistance, Point.getOffsetPoint, Point.getX,
    Point.getY.
  rewrite (@Point_new_num _ _ Hx Hy). split; reflexivity.
Qed.

(** the offset of a Point at x = +Infinity from itself: the difference
    of the x coordinates is NaN, the offset's x is 0 *)
Lemma C8_counterexample_equal_infinities :
  Point.x (Point.new (VNum PInf) (VNum zero)) = PInf
  /\ sub (Point.x (Point.new (VNum PInf) (VNum zero)))
         (Point.x (Point.new (VNum PInf) (VNum zero))) = NaN
  /\ Point.x (Point.getOffsetPoint (Some (Point.new (VNum PInf) (VNum zero)))
                (Some (Point.new (VNum PInf) (VNum zero)))) = zero
  /\ Point.getOffsetPoint (Some (Point.new (VNum PInf) (VNum zero)))
       (Some (Point.new (VNum PInf) (VNum zero)))
     <> Point.mk
          (sub (Point.x (Point.new (VNum PInf) (VNum zero)))
               (Point.x (Point.new (VNum PInf) (VNum zero))))
          (sub (Point.y (Point.new (VNum PInf) (VNum zero)))
               (Point.y (Point.new (VNum PInf) (VNum zero)))).
Proof.
  repeat split. intros H. apply (f_equal Point.x) in H. simpl in H.
  discriminate H.
Qed.

Lemma C8_witness :
  Point.x (Point.new (VStr "abc") VUndefined) = zero
  /\ Point.y (Point.new (VStr "abc") VUndefined) = zero
  /\ Point.x (Point.new (VNum (Fin 3)) (VStr "4.5")) = Fin 3
  /\ Point.getOffsetPoint (Some (Point.mk (Fin 10) (Fin 10)))
       (Some (Point.mk (Fin 60) (Fin 40)))
     = Point.mk (sub (Fin 60) (Fin 10)) (sub (Fin 40) (Fin 10)).
Proof.
  destruct (C8_geometry_constructors (VStr "abc") VUndefined VNull VNull
              VNull VNull VNull (Point.mk (Fin 10) (Fin 10))
              (Point.mk (Fin 60) (Fin 40)))
    as (H1 & H2 & _ & _ & _ & _ & _ & _ & _ & _ & _ & _ & H13).
  destruct (C8_geometry_constructors (VNum (Fin 3)) (VStr "4.5") VNull VNull
              VNull VNull VNull (Point.mk zero zero) (Point.mk zero zero))
    as (_ & _ & H3 & _).
  split; [exact (H1 eq_refl)|].
  split; [exact (H2 eq_refl)|].
  split; [exact (H3 eq_refl)|].
  exact (proj1 (H13 eq_refl eq_refl)).
Defined.

End Geometry.

(* ------------------------------------------------------------------ *)
(** ** Pointer coordinates *)

Section Pointer.

Local Open Scope R_scope.

Lemma clamp_in_bounds (r : R) (w : Z) :
  0 <= IZR w ->
  exists v, Canvas.clamp (Fin r) (ofZ w) = Fin v /\ 0 <= v <= IZR w.
Proof.
  intros Hw. unfold Canvas.clamp, gt, ofZ, zero; simpl.
  destruct (Rlt_dec r 0) as [Hn|Hn].
  - rewrite (Rltb_true Hn). simpl.
    destruct (Rlt_dec (IZR w) 0) as [Hc|Hc]; [lra|].
    rewrite (Rltb_false Hc). exists 0. split; [reflexivity|lra].
  - rewrite (Rltb_false Hn). simpl.
    destruct (Rlt_dec (IZR w) r) as [Hc|Hc].
    + rewrite (Rltb_true Hc). exists (IZR w). split; [reflexivity|lra].
    + rewrite (Rltb_false Hc). exists r. split; [reflexivity|lra].
Qed.

Lemma clamp_inside (r : R) (w : Z) :
  0 <= r <= IZR w -> Canvas.clamp (Fin r) (ofZ w) = Fin r.
Proof.
  intros H. unfold Canvas.clamp, gt, ofZ, zero; simpl.
  rewrite (@Rltb_false r 0) by lra. simpl.
  now rewrite (@Rltb_false (IZR w) r) by lra.
Qed.

Lemma truthy_Fin (r : R) : r <> 0 -> truthy (Fin r) = true.
Proof. intros H. simpl. now rewrite (Reqb_false H). Qed.

(** a mouse event away from the left edge of the page *)
Lemma getOffsetX_mouse (ty : string) (x y : R) (ct : Container.t)
      (cv : Canvas.t) :
  x <> 0 ->
  Canvas.getOffsetX (Some (Event.mouse ty x y)) ct cv
  = Ok (Canvas.clamp
          (Fin (x + - Container.offsetLeft ct + Container.scrollLeft ct))
          (ofZ (Canvas.width (Canvas.canvas cv)))).
Proof.
  intros H. unfold Canvas.getOffsetX, Event.mouse. cbn [Event.pageX Canvas.toNumber].
  now rewrite (truthy_Fin H).
Qed.

Lemma getOffsetY_mouse (ty : string) (x y : R) (ct : Container.t)
      (cv : Canvas.t) :
  y <> 0 ->
  Canvas.getOffsetY (Some (Event.mouse ty x y)) ct cv
  = Ok (Canvas.clamp
          (Fin (y + - Container.offsetTop ct + Container.scrollTop ct))
          (ofZ (Canvas.height (Canvas.canvas cv)))).
Proof.
  intros H. unfold Canvas.getOffsetY, Event.mouse. cbn [Event.pageY Canvas.toNumber].
  now rewrite (truthy_Fin H).
Qed.

(** where the clamping is reached, it does what C10 says: a mouse event
    with a non-zero [pageX] gives a coordinate within the canvas *)
Lemma getOffsetX_mouse_in_bounds (ty : string) (x y : R) (ct : Container.t)
      (cv : Canvas.t) :
  x <> 0 -> (0 <= Canvas.width (Canvas.canvas cv))%Z ->
  exists v, Canvas.getOffsetX (Some (Event.mouse ty x y)) ct cv = Ok (Fin v)
            /\ 0 <= v <= IZR (Canvas.width (Canvas.canvas cv)).
Proof.
  intros Hx Hw. rewrite (getOffsetX_mouse ty y ct cv Hx).
  destruct (@clamp_in_bounds
              (x + - Container.offsetLeft ct + Container.scrollLeft ct)
              (Canvas.width (Canvas.canvas cv))) as (v & Hv & Hb).
  - now apply IZR_le.
  - exists v. now rewrite Hv.
Qed.

(** C10 (the defect).  A mouse event whose [pageX] is 0, the left edge of
    the page, has no [touches]: [getOffsetX] reads [event.touches[0]] and
    throws, and so does [getOffsetY] at [pageY] 0.  No coordinate is
    returned, none in [0, canvas.width]. *)
Theorem C10_getOffset_throws_at_page_edge
        (ty : string) (x y : R) (ct : Container.t) (cv : Canvas.t) :
  Canvas.getOffsetX (Some (Event.mouse ty 0 y)) ct cv = TypeError
  /\ Canvas.getOffsetY (Some (Event.mouse ty x 0)) ct cv = TypeError.
Proof.
  unfold Canvas.getOffsetX, Canvas.getOffsetY, Event.mouse.
  cbn [Event.pageX Event.pageY Canvas.toNumber truthy].
  rewrite Reqb_refl. split; reflexivity.
Qed.

End Pointer.

(* ------------------------------------------------------------------ *)
(** ** Replay and pivot *)

Section Replay.

Lemma emit_surface (k : Context.call) (c : Context.t) :
  surfaceState (Context.emit k c) = surfaceState c
  /\ Context.font (Context.emit k c) = Context.font c
  /\ Context.drawn (Context.emit k c) = Context.drawn c ++ [(Context.ctm c, k)].
Proof. repeat split. Qed.

Lemma drawnOver_refl (c : Context.t) : drawnOver c c.
Proof.
  split; [reflexivity|]. exists []. split; [now rewrite app_nil_r|constructor].
Qed.

Lemma drawnOver_trans (c1 c2 c3 : Context.t) :
  drawnOver c1 c2 -> drawnOver c2 c3 -> drawnOver c1 c3.
Proof.
  intros [S1 (l1 & D1 & F1)] [S2 (l2 & D2 & F2)]. split.
  - now rewrite S2.
  - exists (l1 ++ l2). split.
    + now rewrite D2, D1, app_assoc.
    + apply Forall_app. split; [exact F1|].
      assert (E : Context.ctm c2 = Context.ctm c1).
      { unfold surfaceState in S1. now inversion S1. }
      now rewrite <- E.
Qed.

Lemma drawnOver_emit (k : Context.call) (c : Context.t) :
  drawnOver c (Context.emit k c).
Proof.
  split; [reflexivity|]. exists [(Context.ctm c, k)].
  split; [reflexivity|]. now repeat constructor.
Qed.

Lemma drawnOver_font (s : string) (c : Context.t) :
  drawnOver c (Context.set_font s c).
Proof.
  split; [reflexivity|]. exists []. split; [now rewrite app_nil_r|constructor].
Qed.

Lemma drawPoints_ok (ps : list (option Point.t)) :
  forallb isSome ps = true ->
  forall (j : nat) (c : Context.t),
  exists c', Canvas.drawPoints ps j c = Ok c' /\ drawnOver c c'
             /\ Context.font c' = Context.font c.
Proof.
  induction ps as [|p ps IH]; intros H j c; simpl.
  - exists c. split; [reflexivity|]. split; [apply drawnOver_refl|reflexivity].
  - simpl in H. apply andb_true_iff in H. destruct H as [Hp Hps].
    destruct p as [p|]; [|discriminate].
    destruct j as [|j].
    + destruct (IH Hps 1%nat
                  (Context.moveTo (Point.getX p) (Point.getY p)
                     (Context.beginPath c))) as (c' & E & D & F).
      exists c'. split; [exact E|]. split; [|exact F].
      eapply drawnOver_trans; [|exact D].
      eapply drawnOver_trans; apply drawnOver_emit.
    + destruct (IH Hps (S (S j))
                  (Context.stroke
                     (Context.lineTo (Point.getX p) (Point.getY p) c)))
        as (c' & E & D & F).
      exists c'. split; [exact E|]. split; [|exact F].
      eapply drawnOver_trans; [|exact D].
      eapply drawnOver_trans; apply drawnOver_emit.
Qed.

Lemma drawPath_ok (p : path) (c : Context.t) :
  drawable p = true ->
  exists c', Canvas.drawPath p c = Ok c' /\ drawnOver c c'.
Proof.
  intros H. destruct p as [ps|r|ci|l|s]; simpl in *.
  - destruct (@drawPoints_ok ps H O c) as (c' & E & D & _). eauto.
  - eexists. split; [reflexivity|].
    repeat (eapply drawnOver_trans; [|apply drawnOver_emit]).
    apply drawnOver_refl.
  - eexists. split; [reflexivity|].
    repeat (eapply drawnOver_trans; [|apply drawnOver_emit]).
    apply drawnOver_refl.
  - unfold Line.getStartPoint, Line.getEndPoint.
    destruct (Line.startPoint l); [|discriminate].
    destruct (Line.endPoint l); [|discriminate].
    eexists. split; [reflexivity|].
    repeat (eapply drawnOver_trans; [|apply drawnOver_emit]).
    apply drawnOver_refl.
  - unfold Text.getTextStyle, TextStyle.getFont.
    destruct (Text.textStyle s) as [ts|]; [|discriminate].
    destruct (TextStyle.font ts) as [f|]; [|discriminate].
    eexists. split; [reflexivity|].
    destruct c; split; [reflexivity|].
    eexists. split; [reflexivity|]. now repeat constructor.
Qed.

Lemma drawLoop_ok (ps : list path) :
  forallb drawable ps = true ->
  forall c : Context.t,
  exists c', Canvas.drawLoop ps c = Ok c' /\ drawnOver c c'.
Proof.
  induction ps as [|p ps IH]; intros H c; simpl.
  - exists c. split; [reflexivity|apply drawnOver_refl].
  - simpl in H. apply andb_true_iff in H. destruct H as [Hp Hps].
    destruct (@drawPath_ok p c Hp) as (c1 & E1 & D1). rewrite E1. simpl.
    destruct (IH Hps c1) as (c2 & E2 & D2). exists c2.
    split; [exact E2|]. eapply drawnOver_trans; eassumption.
Qed.

Lemma drawPoints_drawn (ps : list (option Point.t)) :
  forall (j : nat) (c c' : Context.t),
    Canvas.drawPoints ps j c = Ok c' ->
    Context.ctm c' = Context.ctm c
    /\ Context.drawn c'
       = Context.drawn c ++ map (pair (Context.ctm c)) (pointsCalls ps j).
Proof.
  induction ps as [|p ps IH]; intros j c c' H; simpl in H.
  - injection H as <-. split; [reflexivity|]. simpl. now rewrite app_nil_r.
  - destruct p as [p|]; [|discriminate].
    apply IH in H. destruct H as [Hc Hd]. rewrite Hc, Hd.
    destruct j; cbn; split; try reflexivity; now rewrite <- !app_assoc.
Qed.

Lemma drawPath_drawn (p : path) (c c' : Context.t) :
  Canvas.drawPath p c = Ok c' ->
  Context.ctm c' = Context.ctm c
  /\ Context.drawn c'
     = Context.drawn c ++ map (pair (Context.ctm c)) (pathCalls p).
Proof.
  intros H. destruct p as [ps|r|ci|l|s]; simpl in H.
  - now apply drawPoints_drawn.
  - injection H as <-. cbn. split; [reflexivity|]. now rewrite <- !app_assoc.
  - injection H as <-. cbn. split; [reflexivity|]. now rewrite <- !app_assoc.
  - unfold Line.getStartPoint, Line.getEndPoint in H. simpl.
    destruct (Line.startPoint l); [|discriminate].
    destruct (Line.endPoint l); [|discriminate].
    injection H as <-. cbn. split; [reflexivity|]. now rewrite <- !app_assoc.
  - unfold Text.getTextStyle, TextStyle.getFont in H.
    destruct (Text.textStyle s) as [ts|]; [|discriminate].
    destruct (TextStyle.font ts) as [f|]; [|discriminate].
    injection H as <-. cbn. split; reflexivity.
Qed.

Lemma drawLoop_drawn (ps : list path) :
  forall c c' : Context.t,
    Canvas.drawLoop ps c = Ok c' ->
    Context.ctm c' = Context.ctm c
    /\ Context.drawn c' = Context.drawn c ++ redraw (Context.ctm c) ps.
Proof.
  unfold redraw.
  induction ps as [|p ps IH]; intros c c' H; simpl in H.
  - injection H as <-. split; [reflexivity|]. simpl. now rewrite app_nil_r.
  - destruct (Canvas.drawPath p c) as [c1|] eqn:E1; [|discriminate].
    simpl in H. apply drawPath_drawn in E1. destruct E1 as [Hc1 Hd1].
    apply IH in H. destruct H as [Hc Hd]. rewrite Hc, Hd, Hc1, Hd1.
    split; [reflexivity|]. simpl. now rewrite map_app, app_assoc.
Qed.

End Replay.

Section Pivot.

Lemma pointsBounds_ok (ps : list (option Point.t)) :
  forallb isSome ps = true ->
  forall b : Canvas.bounds, exists b', Canvas.pointsBounds ps b = Ok b'.
Proof.
  induction ps as [|p ps IH]; intros H b; simpl; [now eauto|].
  simpl in H. apply andb_true_iff in H. destruct H as [Hp Hps].
  destruct p as [p|]; [|discriminate].
  destruct b as [[[minX minY] maxX] maxY]. apply (IH Hps).
Qed.

Lemma pathCenter_ok (c : Context.t) (p : path) :
  drawable p = true -> exists xy, Canvas.pathCenter c p = Ok xy.
Proof.
  intros H. destruct p as [ps|r|ci|l|s]; simpl in *.
  - destruct (@pointsBounds_ok ps H
                (Fin MAX_VALUE, Fin MAX_VALUE, zero, zero)) as (b & E).
    rewrite E. simpl. eauto.
  - eauto.
  - eauto.
  - unfold Line.getStartPoint, Line.getEndPoint.
    destruct (Line.startPoint l); [|discriminate].
    destruct (Line.endPoint l); [|discriminate]. eauto.
  - unfold Text.getTextStyle, TextStyle.getFont.
    destruct (Text.textStyle s) as [ts|]; [|discriminate].
    destruct (TextStyle.font ts) as [f|]; [|discriminate]. eauto.
Qed.

Lemma centerLoop_ok (c : Context.t) (ps : list path) :
  forallb drawable ps = true ->
  forall xy, exists xy', Canvas.centerLoop c ps xy = Ok xy'.
Proof.
  induction ps as [|p ps IH]; intros H xy; simpl; [now eauto|].
  simpl in H. apply andb_true_iff in H. destruct H as [Hp Hps].
  destruct (@pathCenter_ok c p Hp) as (xy1 & E). rewrite E. simpl.
  apply (IH Hps).
Qed.

(** the loop of [getCenterPoint] keeps what its last iteration assigns *)
Lemma centerLoop_last (c : Context.t) (ps : list path) (s : path) :
  forall xy,
    Canvas.centerLoop c (ps ++ [s]) xy
    = (_ <- Canvas.centerLoop c ps xy ;; Canvas.pathCenter c s).
Proof.
  induction ps as [|p ps IH]; intros xy; simpl.
  - destruct (Canvas.pathCenter c s); reflexivity.
  - destruct (Canvas.pathCenter c p) as [xy1|]; simpl; [apply IH|reflexivity].
Qed.

(** the pivot reads the context for the text metrics only *)
Lemma pathCenter_ext (c c' : Context.t) (p : path) :
  Context.measure c' = Context.measure c ->
  Context.font c' = Context.font c ->
  Canvas.pathCenter c' p = Canvas.pathCenter c p.
Proof.
  intros Hm Hf. destruct p; simpl; try reflexivity. now rewrite Hm, Hf.
Qed.

Lemma centerLoop_ext (c c' : Context.t) (ps : list path) :
  Context.measure c' = Context.measure c ->
  Context.font c' = Context.font c ->
  forall xy, Canvas.centerLoop c' ps xy = Canvas.centerLoop c ps xy.
Proof.
  intros Hm Hf. induction ps as [|p ps IH]; intros xy; simpl; [reflexivity|].
  rewrite (@pathCenter_ext c c' p Hm Hf).
  destruct (Canvas.pathCenter c p); simpl; [apply IH|reflexivity].
Qed.

Lemma getCenterPoint_ok (cv : Canvas.t) :
  forallb drawable (Canvas.paths cv) = true ->
  exists p, Canvas.getCenterPoint cv = Ok p.
Proof.
  intros H. unfold Canvas.getCenterPoint.
  destruct (@centerLoop_ok (Canvas.context cv) (Canvas.paths cv) H (zero, zero))
    as (xy & E).
  rewrite E. simpl. eauto.
Qed.

End Pivot.

Section LastShape.

Local Open Scope R_scope.

Lemma min_grid (a x : Z) :
  (if lt (ofZ x) (ofZ a) then ofZ x else ofZ a) = ofZ (Z.min a x).
Proof.
  unfold lt, ofZ. destruct (Z.lt_ge_cases x a) as [H|H].
  - rewrite Rltb_true by now apply IZR_lt. now rewrite Z.min_r by lia.
  - rewrite Rltb_false by (apply Rle_not_lt; now apply IZR_le).
    now rewrite Z.min_l by lia.
Qed.

Lemma max_grid (c x : Z) :
  (if lt (ofZ c) (ofZ x) then ofZ x else ofZ c) = ofZ (Z.max c x).
Proof.
  unfold lt, ofZ. destruct (Z.lt_ge_cases c x) as [H|H].
  - rewrite Rltb_true by now apply IZR_lt. now rewrite Z.max_r by lia.
  - rewrite Rltb_false by (apply Rle_not_lt; now apply IZR_le).
    now rewrite Z.max_l by lia.
Qed.

(** the inner loop of [getCenterPoint] on points of the grid, from any
    integer bounds *)
Lemma pointsBounds_grid (qs : list (Z * Z)) :
  forall a b c d : Z,
    Canvas.pointsBounds (map (fun p => Some (gridPoint p)) qs)
      (ofZ a, ofZ b, ofZ c, ofZ d)
    = Ok (ofZ (fold_left Z.min (map fst qs) a),
          ofZ (fold_left Z.min (map snd qs) b),
          ofZ (fold_left Z.max (map fst qs) c),
          ofZ (fold_left Z.max (map snd qs) d)).
Proof.
  induction qs as [|q qs IH]; intros a b c d; [reflexivity|].
  cbn [map Canvas.pointsBounds gridPoint Point.getX Point.getY Point.x Point.y
       fold_left].
  unfold gt. rewrite !min_grid, !max_grid. apply IH.
Qed.

Lemma inGrid_bounds (z : Z) : inGrid z = true -> (0 <= z < 2 ^ 52)%Z.
Proof.
  unfold inGrid. intros H. apply andb_true_iff in H. destruct H as [H1 H2].
  apply Z.leb_le in H1. apply Z.ltb_lt in H2. lia.
Qed.

Lemma MAX_VALUE_large : 2 ^ 52 <= MAX_VALUE.
Proof.
  unfold MAX_VALUE.
  assert (H1 : 0 < 2 ^ 52) by (apply pow_lt; lra).
  assert (H2 : 2 ^ 52 <= 2 ^ 1023) by (apply Rle_pow; [lra|lia]).
  assert (H3 : / 2 ^ 52 <= 1).
  { rewrite <- Rinv_1. apply Rinv_le_contravar; [lra|].
    apply pow_R1_Rle. lra. }
  nra.
Qed.

Lemma inGrid_below_MAX (z : Z) : inGrid z = true -> IZR z < MAX_VALUE.
Proof.
  intros H. apply inGrid_bounds in H. destruct H as [_ H].
  apply IZR_lt in H.
  change (2 ^ 52)%Z with (2 ^ Z.of_nat 52)%Z in H.
  rewrite <- pow_IZR in H.
  pose proof MAX_VALUE_large. lra.
Qed.

(** the first point replaces the initial bounds ([Number.MAX_VALUE] and
    0) where it is on the grid *)
Lemma pointsBounds_stroke (q : Z * Z) (qs : list (Z * Z)) :
  pointInGrid q = true ->
  Canvas.pointsBounds (map (fun p => Some (gridPoint p)) (q :: qs))
    (Fin MAX_VALUE, Fin MAX_VALUE, zero, zero)
  = Ok (ofZ (fold_left Z.min (map fst qs) (fst q)),
        ofZ (fold_left Z.min (map snd qs) (snd q)),
        ofZ (fold_left Z.max (map fst qs) (fst q)),
        ofZ (fold_left Z.max (map snd qs) (snd q))).
Proof.
  intros H. apply andb_true_iff in H. destruct H as [Hx Hy].
  cbn [map Canvas.pointsBounds gridPoint Point.getX Point.getY Point.x Point.y].
  assert (Lx : lt (ofZ (fst q)) (Fin MAX_VALUE) = true).
  { unfold lt, ofZ. apply Rltb_true. now apply inGrid_below_MAX. }
  assert (Ly : lt (ofZ (snd q)) (Fin MAX_VALUE) = true).
  { unfold lt, ofZ. apply Rltb_true. now apply inGrid_below_MAX. }
  rewrite Lx, Ly. unfold gt. change zero with (ofZ 0).
  rewrite !max_grid.
  apply inGrid_bounds in Hx. apply inGrid_bounds in Hy.
  rewrite !Z.max_r by lia. apply pointsBounds_grid.
Qed.

(** half of a natural number, truncated *)
Lemma trunc_half (z : Z) : (0 <= z)%Z -> trunc (IZR z / 2) = (z / 2)%Z.
Proof.
  intros H. pose proof (Z.div_mod z 2) as Hd.
  assert (Hm : (0 <= z mod 2 < 2)%Z) by (apply Z.mod_pos_bound; lia).
  assert (H1 : (2 * (z / 2) <= z)%Z) by lia.
  assert (H2 : (z < 2 * (z / 2) + 2)%Z) by lia.
  apply IZR_le in H1. apply IZR_lt in H2. apply IZR_le in H.
  rewrite plus_IZR in H2. rewrite mult_IZR in H1, H2.
  apply trunc_nonneg; lra.
Qed.

Lemma boundsCenter_grid (l t r b : Z) :
  (0 <= l + r)%Z -> (0 <= t + b)%Z ->
  Canvas.boundsCenter (ofZ l, ofZ t, ofZ r, ofZ b)
  = (ofZ ((l + r) / 2), ofZ ((t + b) / 2)).
Proof.
  intros Hx Hy. unfold Canvas.boundsCenter, ofZ, sub, neg, add, div.
  rewrite (@Reqb_false 2 0) by lra. cbn [parseInt ofInt]. unfold ofZ.
  replace ((IZR r + - IZR l) / 2 + IZR l) with (IZR (l + r) / 2)
    by (rewrite plus_IZR; field).
  replace ((IZR b + - IZR t) / 2 + IZR t) with (IZR (t + b) / 2)
    by (rewrite plus_IZR; field).
  now rewrite !trunc_half.
Qed.

Lemma fold_min_nonneg (l : list Z) :
  forall a : Z, (0 <= a)%Z -> Forall (fun z => 0 <= z)%Z l ->
                (0 <= fold_left Z.min l a)%Z.
Proof.
  induction l as [|z l IH]; intros a Ha Hl; simpl; [exact Ha|].
  inversion Hl; subst. apply IH; [lia|assumption].
Qed.

Lemma fold_max_nonneg (l : list Z) :
  forall a : Z, (0 <= a)%Z -> (0 <= fold_left Z.max l a)%Z.
Proof.
  induction l as [|z l IH]; intros a Ha; simpl; [exact Ha|].
  apply IH. lia.
Qed.

Lemma grid_nonneg (qs : list (Z * Z)) :
  forallb pointInGrid qs = true ->
  Forall (fun z => 0 <= z)%Z (map fst qs)
  /\ Forall (fun z => 0 <= z)%Z (map snd qs).
Proof.
  induction qs as [|q qs IH]; intros H; simpl; [split; constructor|].
  simpl in H. apply andb_true_iff in H. destruct H as [Hq Hqs].
  apply andb_true_iff in Hq. destruct Hq as [Hx Hy].
  apply inGrid_bounds in Hx. apply inGrid_bounds in Hy.
  destruct (IH Hqs) as [H1 H2]. split; constructor; (lia || assumption).
Qed.

(** what one iteration of the loop of [getCenterPoint] assigns for a
    shape on the grid: the center of its bounding box *)
Lemma pathCenter_grid (c : Context.t) (g : gridShape) :
  onGrid g = true ->
  Canvas.pathCenter c (gridPath g)
  = Ok (ofZ (fst (boxCenter (boundingBox g))),
        ofZ (snd (boxCenter (boundingBox g)))).
Proof.
  intros H. destruct g as [q qs|a b|l t w h]; cbn [onGrid] in H.
  - apply andb_true_iff in H. destruct H as [Hq Hqs].
    cbn [gridPath Canvas.pathCenter]. rewrite (@pointsBounds_stroke q qs Hq).
    cbn [bind boundingBox boxCenter fst snd].
    apply andb_true_iff in Hq. destruct Hq as [Hx Hy].
    apply inGrid_bounds in Hx. apply inGrid_bounds in Hy.
    destruct (@grid_nonneg qs Hqs) as [Fx Fy].
    pose proof (@fold_min_nonneg (map fst qs) (fst q) (proj1 Hx) Fx).
    pose proof (@fold_min_nonneg (map snd qs) (snd q) (proj1 Hy) Fy).
    pose proof (@fold_max_nonneg (map fst qs) (fst q) (proj1 Hx)).
    pose proof (@fold_max_nonneg (map snd qs) (snd q) (proj1 Hy)).
    rewrite boundsCenter_grid by lia. reflexivity.
  - apply andb_true_iff in H. destruct H as [Ha Hb].
    apply andb_true_iff in Ha. destruct Ha as [Hax Hay].
    apply andb_true_iff in Hb. destruct Hb as [Hbx Hby].
    apply inGrid_bounds in Hax. apply inGrid_bounds in Hay.
    apply inGrid_bounds in Hbx. apply inGrid_bounds in Hby.
    cbn [gridPath Canvas.pathCenter Line.getStartPoint Line.getEndPoint
         Line.startPoint Line.endPoint gridPoint Point.getX Point.getY
         Point.x Point.y boundingBox boxCenter fst snd].
    unfold Math_min, Math_max, ofZ. fold (ofZ (fst a)) (ofZ (fst b))
      (ofZ (snd a)) (ofZ (snd b)).
    rewrite !min_grid, !max_grid.
    rewrite boundsCenter_grid by lia. reflexivity.
  - apply andb_true_iff in H. destruct H as [H Hh].
    apply andb_true_iff in H. destruct H as [H Hw].
    apply andb_true_iff in H. destruct H as [Hl Ht].
    apply inGrid_bounds in Hl. apply inGrid_bounds in Ht.
    apply inGrid_bounds in Hw. apply inGrid_bounds in Hh.
    cbn [gridPath Canvas.pathCenter Rectangle.getWidth Rectangle.getHeight
         Rectangle.getLeft Rectangle.getTop Rectangle.width Rectangle.height
         Rectangle.left Rectangle.top boundingBox boxCenter fst snd].
    unfold ofZ, div. rewrite (@Reqb_false 2 0) by lra.
    cbn [parseInt ofInt add]. unfold ofZ.
    rewrite !trunc_half by lia. cbn [add]. rewrite <- !plus_IZR.
    replace (l + (l + w))%Z with (w + l * 2)%Z by lia.
    replace (t + (t + h))%Z with (h + t * 2)%Z by lia.
    rewrite !Z.div_add by lia. reflexivity.
Qed.

(** the pivot is decided by the last stored object alone *)
Lemma getCenterPoint_last (cv : Canvas.t) (ps : list path) (s : path) :
  Canvas.paths cv = ps ++ [s] ->
  forallb drawable ps = true ->
  Canvas.getCenterPoint cv = Canvas.getCenterPoint (Canvas.set_paths [s] cv).
Proof.
  intros Hp Hd. unfold Canvas.getCenterPoint.
  rewrite Hp, centerLoop_last.
  destruct (@centerLoop_ok (Canvas.context cv) ps Hd (zero, zero))
    as (xy0 & E0).
  rewrite E0.
  cbn [bind Canvas.paths Canvas.set_paths Canvas.context Canvas.centerLoop].
  destruct (Canvas.pathCenter (Canvas.context cv) s); reflexivity.
Qed.

(** C2 (amended).  The pivot returned by [getCenterPoint] is computed
    from the last object of the list alone, whatever drawable objects
    come before it: every iteration of the loop assigns a center, the
    last assignment stays.  It is the center of a last Circle; the center
    of the bounding box, each coordinate rounded down to an integer, of a
    last stroke, Line or Rectangle record on the pixel grid (for a
    Rectangle the box from (left, top) to (left + width, top + height));
    the point of a last Text moved by half the width measured for the
    text and by half the font size, both halves rounded down.  On the
    empty list the pivot is the origin. *)
Theorem C2_pivot_is_center_of_last_shape
        (cv : Canvas.t) (ps : list path) (s : path) :
  Canvas.paths cv = ps ++ [s] ->
  forallb drawable ps = true ->
  Canvas.getCenterPoint cv = Canvas.getCenterPoint (Canvas.set_paths [s] cv)
  /\ (forall c : Circle.t,
        s = PCircle c ->
        isNaN (Circle.centerX c) = false ->
        isNaN (Circle.centerY c) = false ->
        Canvas.getCenterPoint cv
        = Ok (Point.mk (Circle.centerX c) (Circle.centerY c)))
  /\ (forall g : gridShape,
        s = gridPath g ->
        onGrid g = true ->
        Canvas.getCenterPoint cv
        = Ok (gridPoint (boxCenter (boundingBox g))))
  /\ (forall (text : string) (x y : R) (ts : TextStyle.t) (f : Font.t)
             (fs : Z),
        s = PText (Text.mk text (Point.mk (Fin x) (Fin y)) (Some ts)) ->
        TextStyle.font ts = Some f ->
        parseInt (VStr (Font.size f)) = Some fs ->
        inGrid fs = true ->
        let m := Context.measure (Canvas.context cv)
                   (Context.font (Canvas.context cv)) text in
        0 <= m ->
        plainArgument (VNum (Fin (m / 2))) ->
        Canvas.getCenterPoint cv
        = Ok (Point.mk (Fin (x + IZR (Zfloor (m / 2))))
                       (Fin (y + IZR (fs / 2)))))
  /\ Canvas.getCenterPoint (Canvas.set_paths [] cv)
     = Ok (Point.mk zero zero).
Proof.
  intros Hp Hd.
  pose proof (@getCenterPoint_last cv ps s Hp Hd) as Hlast.
  split; [exact Hlast|]. split; [|split; [|split; [|reflexivity]]].
  - intros c -> Hx Hy. rewrite Hlast. unfold Canvas.getCenterPoint.
    cbn [bind Canvas.paths Canvas.set_paths Canvas.context Canvas.centerLoop
         Canvas.pathCenter Circle.getCenterX Circle.getCenterY fst snd].
    unfold Point.new, Circle.getCenterX, Circle.getCenterY.
    cbn [parseFloat]. now rewrite Hx, Hy.
  - intros g -> Hg. rewrite Hlast. unfold Canvas.getCenterPoint.
    cbn [bind Canvas.paths Canvas.set_paths Canvas.context Canvas.centerLoop].
    rewrite (@pathCenter_grid (Canvas.context cv) g Hg). reflexivity.
  - intros text x y ts f fs -> Hf Hfs Hg m Hm _. rewrite Hlast.
    unfold Canvas.getCenterPoint.
    cbn [bind Canvas.paths Canvas.set_paths Canvas.context Canvas.centerLoop
         Canvas.pathCenter].
    unfold Text.getTextStyle, Text.getPoint, Text.getText, TextStyle.getFont,
      Font.getSize.
    cbn [Text.textStyle Text.point Text.text]. rewrite Hf, Hfs. fold m.
    apply inGrid_bounds in Hg.
    unfold ofInt, ofZ, div. rewrite (@Reqb_false 2 0) by lra.
    cbn [bind parseInt ofInt Point.getX Point.getY Point.x Point.y add fst snd].
    rewrite trunc_half by lia.
    unfold trunc. rewrite Rltb_false by lra. reflexivity.
Qed.

(** two circles: the pivot is the center of the second one, (100, 100),
    not that of the first, (10, 10) *)
Lemma C2_counterexample_two_circles :
  Canvas.pathCenter
    (Canvas.context (Canvas.new page None (VNum (Fin 300)) (VNum (Fin 300)) 2))
    (PCircle (Circle.mk (Fin 10) (Fin 10) (Fin 5)))
  = Ok (Fin 10, Fin 10)
  /\ Canvas.getCenterPoint
       (Canvas.set_paths
          [PCircle (Circle.mk (Fin 10) (Fin 10) (Fin 5));
           PCircle (Circle.mk (Fin 100) (Fin 100) (Fin 5))]
          (Canvas.new page None (VNum (Fin 300)) (VNum (Fin 300)) 2))
     = Ok (Point.mk (Fin 100) (Fin 100))
  /\ Point.mk (Fin 100) (Fin 100) <> Point.mk (Fin 10) (Fin 10).
Proof.
  split; [reflexivity|]. split; [reflexivity|].
  intros H. injection H as H _. lra.
Qed.

(** a circle about (10, 10), then a stroke through (20, 30), (40, 10) and
    (60, 50): the pivot is the center (40, 30) of the box of the stroke *)
Lemma C2_witness :
  Canvas.getCenterPoint
    (Canvas.set_paths
       [PCircle (Circle.mk (Fin 10) (Fin 10) (Fin 5));
        gridPath (GridStroke (20, 30)%Z [(40, 10)%Z; (60, 50)%Z])]
       (Canvas.new page None (VNum (Fin 300)) (VNum (Fin 300)) 2))
  = Ok (gridPoint (40, 30)%Z).
Proof.
  destruct (@C2_pivot_is_center_of_last_shape
              (Canvas.set_paths
                 [PCircle (Circle.mk (Fin 10) (Fin 10) (Fin 5));
                  gridPath (GridStroke (20, 30)%Z [(40, 10)%Z; (60, 50)%Z])]
                 (Canvas.new page None (VNum (Fin 300)) (VNum (Fin 300)) 2))
              [PCircle (Circle.mk (Fin 10) (Fin 10) (Fin 5))]
              (gridPath (GridStroke (20, 30)%Z [(40, 10)%Z; (60, 50)%Z]))
              eq_refl eq_refl)
    as (_ & _ & H & _).
  exact (H (GridStroke (20, 30)%Z [(40, 10)%Z; (60, 50)%Z]) eq_refl eq_refl).
Defined.

End LastShape.

(* ------------------------------------------------------------------ *)
(** ** The transform operation *)

Section TransformOperation.

Lemma set_ctm_id (c : Context.t) : Context.set_ctm (Context.ctm c) c = c.
Proof. now destruct c. Qed.

Lemma Context_transform_ctm (a b c d e f : num) (x : Context.t) :
  exists m, Context.transform a b c d e f x = Context.set_ctm m x.
Proof.
  unfold Context.transform. destruct (Context.finiteMatrix a b c d e f).
  - eauto.
  - exists (Context.ctm x). now rewrite set_ctm_id.
Qed.

Lemma Context_setTransform_ctm (a b c d e f : num) (x : Context.t) :
  exists m, Context.setTransform a b c d e f x = Context.set_ctm m x.
Proof.
  unfold Context.setTransform. destruct (Context.finiteMatrix a b c d e f).
  - eauto.
  - exists (Context.ctm x). now rewrite set_ctm_id.
Qed.

Lemma rotateAbout_ctm (cx cy r : num) (x : Context.t) :
  exists m, Canvas.rotateAbout cx cy r x = Context.set_ctm m x.
Proof.
  unfold Canvas.rotateAbout.
  destruct (Context_transform_ctm (Fin 1) zero zero (Fin 1) cx cy x) as (m1 & ->).
  destruct (Context_transform_ctm (Math_cos r) (Math_sin r) (neg (Math_sin r))
              (Math_cos r) zero zero (Context.set_ctm m1 x)) as (m2 & ->).
  destruct (Context_transform_ctm (Fin 1) zero zero (Fin 1) (neg cx) (neg cy)
              (Context.set_ctm m2 (Context.set_ctm m1 x))) as (m3 & ->).
  now exists m3.
Qed.

Lemma scaleTranslate_ctm (tr : Canvas.Transforms) (x : Context.t) :
  exists m, Canvas.scaleTranslate tr x = Context.set_ctm m x.
Proof. apply Context_transform_ctm. Qed.

(** the second switch changes the matrix and nothing else *)
Lemma applyMatrix_ctm (ty : string) (p : Point.t) (tr : Canvas.Transforms)
      (x : Context.t) :
  exists m, Canvas.applyMatrix ty p tr x = Context.set_ctm m x.
Proof.
  unfold Canvas.applyMatrix.
  destruct (Context_setTransform_ctm (Fin 1) zero zero (Fin 1) zero zero x)
    as (m0 & E0).
  destruct ((toLowerCase ty =? Transform.TRANSLATE)%string
            || (toLowerCase ty =? Transform.SCALE)%string).
  - rewrite E0.
    destruct (rotateAbout_ctm (Point.getX p) (Point.getY p) (Canvas.rotate tr)
                (Context.set_ctm m0 x)) as (m1 & ->).
    destruct (scaleTranslate_ctm tr (Context.set_ctm m1 (Context.set_ctm m0 x)))
      as (m2 & ->).
    now exists m2.
  - destruct (toLowerCase ty =? Transform.ROTATE)%string.
    + rewrite E0.
      destruct (scaleTranslate_ctm tr (Context.set_ctm m0 x)) as (m1 & ->).
      destruct (rotateAbout_ctm (Point.getX p) (Point.getY p) (Canvas.rotate tr)
                  (Context.set_ctm m1 (Context.set_ctm m0 x))) as (m2 & ->).
      now exists m2.
    + exists (Context.ctm x). now rewrite set_ctm_id.
Qed.

(** [transform] with its two arguments, on a layer whose stored objects
    are drawable: it returns; it changes [transforms] as the first switch
    says; it keeps the paths, the canvas element and the state of the
    context; it clears the surface and replays under the pixel mapping *)
Lemma transform2_ok (ty : string) (am : amountsArg) (cv : Canvas.t) :
  forallb drawable (Canvas.paths cv) = true ->
  exists cv' m added,
    Canvas.transform ty am 2 cv = Ok cv'
    /\ pixelMapping ty am cv = Ok m
    /\ Canvas.paths cv' = Canvas.paths cv
    /\ Canvas.canvas cv' = Canvas.canvas cv
    /\ Canvas.textStyle cv' = Canvas.textStyle cv
    /\ Canvas.transforms cv'
       = Canvas.applyAmounts ty (Canvas.toArray am) (Canvas.transforms cv)
    /\ surfaceState (Canvas.context cv') = surfaceState (Canvas.context cv)
    /\ Context.font (Canvas.context cv') = Context.font (Canvas.context cv)
    /\ Context.drawn (Canvas.context cv')
       = Context.drawn (Canvas.context cv)
           ++ (Context.ctm (Canvas.context cv),
               Context.clearRect_ zero zero
                 (ofZ (Canvas.width (Canvas.canvas cv)))
                 (ofZ (Canvas.height (Canvas.canvas cv))))
           :: added
    /\ added = redraw m (Canvas.paths cv).
Proof.
  intros Hd.
  destruct (@getCenterPoint_ok cv Hd) as (p & Ep).
  unfold pixelMapping, Canvas.transform, Canvas.beforeReplay.
  rewrite Ep. cbn [bind].
  set (tr := Canvas.applyAmounts ty (Canvas.toArray am) (Canvas.transforms cv)).
  set (c0 := Canvas.context (Canvas.clear (Canvas.set_transforms tr cv))).
  destruct (applyMatrix_ctm ty p tr (Context.save c0)) as (m & Em).
  rewrite Em. cbn [Nat.ltb Nat.leb].
  unfold Canvas.drawPaths. cbn [Canvas.paths Canvas.context Canvas.set_context
    Canvas.clear Canvas.set_transforms].
  destruct (@drawLoop_ok (Canvas.paths cv) Hd
              (Context.set_ctm m (Context.save c0)))
    as (c2 & E2 & S2 & _).
  destruct (@drawLoop_drawn (Canvas.paths cv) _ _ E2) as [_ D2].
  rewrite E2. cbn [bind].
  exists (Canvas.set_context (Context.restore c2)
            (Canvas.set_context c2
               (Canvas.set_context (Context.set_ctm m (Context.save c0))
                  (Canvas.clear (Canvas.set_transforms tr cv))))),
         m, (redraw m (Canvas.paths cv)).
  split; [reflexivity|]. split; [reflexivity|].
  split; [reflexivity|]. split; [reflexivity|]. split; [reflexivity|].
  split; [reflexivity|].
  unfold surfaceState in S2. injection S2 as S_ss S_fs S_lw S_ctm S_sv S_ms.
  cbn [Canvas.context Canvas.set_context].
  unfold Context.restore. rewrite S_sv. cbn [Context.saved Context.set_ctm Context.save].
  subst c0. destruct cv as [el ctx ts ps trs]. destruct ctx.
  cbn in *. rewrite S_ms, D2.
  split; [reflexivity|]. split; [reflexivity|].
  split; [now rewrite <- app_assoc|]. reflexivity.
Qed.

(** [transform] with any number of arguments returns on such a layer and
    changes [transforms] as the first switch says, keeping the paths *)
Lemma transform_ok (ty : string) (am : amountsArg) (argc : nat)
      (cv : Canvas.t) :
  forallb drawable (Canvas.paths cv) = true ->
  exists cv',
    Canvas.transform ty am argc cv = Ok cv'
    /\ Canvas.paths cv' = Canvas.paths cv
    /\ Canvas.canvas cv' = Canvas.canvas cv
    /\ Canvas.transforms cv'
       = Canvas.applyAmounts ty (Canvas.toArray am) (Canvas.transforms cv).
Proof.
  intros Hd.
  destruct (@getCenterPoint_ok cv Hd) as (p & Ep).
  unfold Canvas.transform, Canvas.beforeReplay. rewrite Ep. cbn [bind].
  destruct (1 <? argc)%nat.
  - unfold Canvas.drawPaths.
    cbn [Canvas.paths Canvas.context Canvas.set_context Canvas.clear
         Canvas.set_transforms].
    match goal with
    | |- context [Canvas.drawLoop _ ?c] =>
        destruct (@drawLoop_ok (Canvas.paths cv) Hd c) as (c2 & E2 & _)
    end.
    rewrite E2. cbn [bind]. eexists. split; [reflexivity|]. repeat split.
  - eexists. split; [reflexivity|]. repeat split.
Qed.

End TransformOperation.

Section TransformState.

Local Open Scope R_scope.

Lemma degrees_to_radians (d : R) :
  div (mul (Fin d) Math_PI) (Fin 180) = Fin (d * PI / 180).
Proof.
  unfold div, mul, Math_PI. rewrite (@Reqb_false 180 0) by lra. reflexivity.
Qed.

Lemma applyAmounts_translate (ty : string) (a0 a1 : value) (rest : list value)
      (tr : Canvas.Transforms) :
  toLowerCase ty = Transform.TRANSLATE ->
  Canvas.applyAmounts ty (a0 :: a1 :: rest) tr
  = if isNaN (parseFloat a0) || isNaN (parseFloat a1) then tr
    else Canvas.mkTransforms (Canvas.mkXY (parseFloat a0) (parseFloat a1))
           (Canvas.scale tr) (Canvas.skew tr) (Canvas.rotate tr).
Proof. intros H. unfold Canvas.applyAmounts. rewrite H. reflexivity. Qed.

Lemma applyAmounts_scale (ty : string) (a0 a1 : value) (rest : list value)
      (tr : Canvas.Transforms) :
  toLowerCase ty = Transform.SCALE ->
  Canvas.applyAmounts ty (a0 :: a1 :: rest) tr
  = if isNaN (parseFloat a0) || isNaN (parseFloat a1) then tr
    else Canvas.mkTransforms (Canvas.translate tr)
           (Canvas.mkXY (parseFloat a0) (parseFloat a1))
           (Canvas.skew tr) (Canvas.rotate tr).
Proof. intros H. unfold Canvas.applyAmounts. rewrite H. reflexivity. Qed.

Lemma applyAmounts_rotate (ty : string) (a0 : value) (rest : list value)
      (tr : Canvas.Transforms) :
  toLowerCase ty = Transform.ROTATE ->
  Canvas.applyAmounts ty (a0 :: rest) tr
  = if isNaN (parseFloat a0) then tr
    else Canvas.mkTransforms (Canvas.translate tr) (Canvas.scale tr)
           (Canvas.skew tr) (div (mul (parseFloat a0) Math_PI) (Fin 180)).
Proof. intros H. unfold Canvas.applyAmounts. rewrite H. reflexivity. Qed.

Lemma applyAmounts_unknown (ty : string) (amounts : list value)
      (tr : Canvas.Transforms) :
  isTransformName (toLowerCase ty) = false ->
  Canvas.applyAmounts ty amounts tr = tr.
Proof.
  unfold isTransformName. intros H.
  apply orb_false_iff in H. destruct H as [H Hr].
  apply orb_false_iff in H. destruct H as [Ht Hs].
  unfold Canvas.applyAmounts. now rewrite Ht, Hs, Hr.
Qed.

Lemma applyAmounts_short (ty : string) (amounts : list value)
      (tr : Canvas.Transforms) :
  (toLowerCase ty = Transform.TRANSLATE \/ toLowerCase ty = Transform.SCALE) ->
  (List.length amounts < 2)%nat ->
  Canvas.applyAmounts ty amounts tr = tr.
Proof.
  intros H Hl. unfold Canvas.applyAmounts.
  destruct amounts as [|a0 [|a1 rest]]; simpl in Hl; try lia;
    destruct H as [-> | ->]; reflexivity.
Qed.

(** C5.  On a layer whose stored objects are drawable the transform
    operation returns, keeps the paths, and changes the TransformState as
    follows.  Kind translate (scale), at least two amounts, both parsing
    to numbers: translate (scale) becomes exactly those two numbers, the
    rest is kept.  Kind rotate, at least one amount parsing to a number:
    the rotation becomes degrees * PI / 180, the rest is kept.  An
    amounts list that is too short, an amount that parses to NaN, or a
    kind that is none of the three: the TransformState is unchanged. *)
Theorem C5_transform_updates_state
        (cv : Canvas.t) (type : string) (am : amountsArg) (argc : nat) :
  forallb drawable (Canvas.paths cv) = true ->
  exists cv',
    Canvas.transform type am argc cv = Ok cv'
    /\ Canvas.paths cv' = Canvas.paths cv
    /\ (forall a0 a1 rest,
           Canvas.toArray am = a0 :: a1 :: rest ->
           isNaN (parseFloat a0) = false -> isNaN (parseFloat a1) = false ->
           (toLowerCase type = Transform.TRANSLATE ->
            Canvas.transforms cv'
            = Canvas.mkTransforms (Canvas.mkXY (parseFloat a0) (parseFloat a1))
                (Canvas.scale (Canvas.transforms cv))
                (Canvas.skew (Canvas.transforms cv))
                (Canvas.rotate (Canvas.transforms cv)))
           /\ (toLowerCase type = Transform.SCALE ->
               Canvas.transforms cv'
               = Canvas.mkTransforms (Canvas.translate (Canvas.transforms cv))
                   (Canvas.mkXY (parseFloat a0) (parseFloat a1))
                   (Canvas.skew (Canvas.transforms cv))
                   (Canvas.rotate (Canvas.transforms cv))))
    /\ (forall a0 rest,
           Canvas.toArray am = a0 :: rest ->
           isNaN (parseFloat a0) = false ->
           toLowerCase type = Transform.ROTATE ->
           Canvas.transforms cv'
           = Canvas.mkTransforms (Canvas.translate (Canvas.transforms cv))
               (Canvas.scale (Canvas.transforms cv))
               (Canvas.skew (Canvas.transforms cv))
               (div (mul (parseFloat a0) Math_PI) (Fin 180))
           /\ forall d, parseFloat a0 = Fin d ->
                        Canvas.rotate (Canvas.transforms cv')
                        = Fin (d * PI / 180))
    /\ (isTransformName (toLowerCase type) = false ->
        Canvas.transforms cv' = Canvas.transforms cv)
    /\ ((toLowerCase type = Transform.TRANSLATE
         \/ toLowerCase type = Transform.SCALE) ->
        ((List.length (Canvas.toArray am) < 2)%nat ->
         Canvas.transforms cv' = Canvas.transforms cv)
        /\ (forall a0 a1 rest,
               Canvas.toArray am = a0 :: a1 :: rest ->
               isNaN (parseFloat a0) = true \/ isNaN (parseFloat a1) = true ->
               Canvas.transforms cv' = Canvas.transforms cv))
    /\ (toLowerCase type = Transform.ROTATE ->
        (Canvas.toArray am = [] ->
         Canvas.transforms cv' = Canvas.transforms cv)
        /\ (forall a0 rest,
               Canvas.toArray am = a0 :: rest ->
               isNaN (parseFloat a0) = true ->
               Canvas.transforms cv' = Canvas.transforms cv)).
Proof.
  intros Hd.
  destruct (@transform_ok type am argc cv Hd) as (cv' & E & Hp & _ & Ht).
  exists cv'. split; [exact E|]. split; [exact Hp|]. rewrite Ht.
  split; [|split; [|split; [|split; [|idtac]]]].
  - intros a0 a1 rest -> H0 H1. split; intros Hk.
    + rewrite (@applyAmounts_translate type a0 a1 rest _ Hk). now rewrite H0, H1.
    + rewrite (@applyAmounts_scale type a0 a1 rest _ Hk). now rewrite H0, H1.
  - intros a0 rest -> H0 Hk.
    rewrite (@applyAmounts_rotate type a0 rest _ Hk). rewrite H0.
    split; [reflexivity|]. intros d Hdg. simpl. rewrite Hdg.
    apply degrees_to_radians.
  - apply applyAmounts_unknown.
  - intros Hk. split.
    + now apply applyAmounts_short.
    + intros a0 a1 rest -> Hn. destruct Hk as [Hk|Hk].
      * rewrite (@applyAmounts_translate type a0 a1 rest _ Hk).
        destruct Hn as [-> | ->]; [reflexivity|now rewrite orb_true_r].
      * rewrite (@applyAmounts_scale type a0 a1 rest _ Hk).
        destruct Hn as [-> | ->]; [reflexivity|now rewrite orb_true_r].
  - intros Hk. split.
    + intros ->. unfold Canvas.applyAmounts. rewrite Hk. reflexivity.
    + intros a0 rest -> Hn.
      rewrite (@applyAmounts_rotate type a0 rest _ Hk). now rewrite Hn.
Qed.

Lemma C5_witness :
  exists cv',
    Canvas.transform "translate" (IsArray [VNum (Fin 5); VNum (Fin 7)]) 2
      (Canvas.new page None (VNum (Fin 300)) (VNum (Fin 300)) 2)
    = Ok cv'
    /\ Canvas.transforms cv'
       = Canvas.mkTransforms (Canvas.mkXY (Fin 5) (Fin 7))
           (Canvas.mkXY (Fin 1) (Fin 1)) (Canvas.mkXY zero zero) zero.
Proof.
  destruct (@C5_transform_updates_state
              (Canvas.new page None (VNum (Fin 300)) (VNum (Fin 300)) 2)
              "translate" (IsArray [VNum (Fin 5); VNum (Fin 7)]) 2 eq_refl)
    as (cv' & E & _ & H & _).
  exists cv'. split; [exact E|].
  exact (proj1 (H (VNum (Fin 5)) (VNum (Fin 7)) [] eq_refl eq_refl eq_refl)
           eq_refl).
Defined.

End TransformState.

(* ------------------------------------------------------------------ *)
(** ** The order of composition *)

Section Composition.

Local Open Scope R_scope.

Lemma matrix_ext (a b c d e f a' b' c' d' e' f' : R) :
  a = a' -> b = b' -> c = c' -> d = d' -> e = e' -> f = f' ->
  Matrix a b c d e f = Matrix a' b' c' d' e' f'.
Proof. intros; subst; reflexivity. Qed.

Ltac matrix_ring :=
  cbv [mmul rotationAbout scaleTranslation translation rotation identity
       ma mb mc md me mf];
  apply matrix_ext; ring.

Lemma getCenterPoint_ext (cv cv' : Canvas.t) :
  Canvas.paths cv' = Canvas.paths cv ->
  surfaceState (Canvas.context cv') = surfaceState (Canvas.context cv) ->
  Context.font (Canvas.context cv') = Context.font (Canvas.context cv) ->
  Canvas.getCenterPoint cv' = Canvas.getCenterPoint cv.
Proof.
  intros Hp Hs Hf. unfold Canvas.getCenterPoint. rewrite Hp.
  rewrite (@centerLoop_ext (Canvas.context cv) (Canvas.context cv')
             (Canvas.paths cv)); [reflexivity| |exact Hf].
  unfold surfaceState in Hs. now injection Hs.
Qed.

(** kind translate or scale: the rotation about the pivot, then the
    scale and translation *)
Lemma pixelMapping_translate_scale
      (type : string) (am : amountsArg) (cv : Canvas.t)
      (cx cy tx ty sx sy r : R) (sk : Canvas.xy) :
  Canvas.getCenterPoint cv = Ok (Point.mk (Fin cx) (Fin cy)) ->
  Canvas.applyAmounts type (Canvas.toArray am) (Canvas.transforms cv)
  = Canvas.mkTransforms (Canvas.mkXY (Fin tx) (Fin ty))
      (Canvas.mkXY (Fin sx) (Fin sy)) sk (Fin r) ->
  toLowerCase type = Transform.TRANSLATE
  \/ toLowerCase type = Transform.SCALE ->
  pixelMapping type am cv
  = Ok (mmul (rotationAbout cx cy r) (scaleTranslation sx sy tx ty)).
Proof.
  intros Hc Ha Hk. unfold pixelMapping, Canvas.beforeReplay.
  rewrite Hc. cbn [bind]. cbv zeta. rewrite Ha.
  unfold Canvas.applyMatrix.
  replace ((toLowerCase type =? Transform.TRANSLATE)%string
           || (toLowerCase type =? Transform.SCALE)%string) with true
    by (destruct Hk as [-> | ->]; reflexivity).
  cbn. f_equal. matrix_ring.
Qed.

(** kind rotate: the scale and translation, then the rotation about the
    pivot *)
Lemma pixelMapping_rotate
      (type : string) (am : amountsArg) (cv : Canvas.t)
      (cx cy tx ty sx sy r : R) (sk : Canvas.xy) :
  Canvas.getCenterPoint cv = Ok (Point.mk (Fin cx) (Fin cy)) ->
  Canvas.applyAmounts type (Canvas.toArray am) (Canvas.transforms cv)
  = Canvas.mkTransforms (Canvas.mkXY (Fin tx) (Fin ty))
      (Canvas.mkXY (Fin sx) (Fin sy)) sk (Fin r) ->
  toLowerCase type = Transform.ROTATE ->
  pixelMapping type am cv
  = Ok (mmul (scaleTranslation sx sy tx ty) (rotationAbout cx cy r)).
Proof.
  intros Hc Ha Hk. unfold pixelMapping, Canvas.beforeReplay.
  rewrite Hc. cbn [bind]. cbv zeta. rewrite Ha.
  unfold Canvas.applyMatrix. rewrite Hk.
  cbn. f_equal. matrix_ring.
Qed.

Lemma applyAmounts_keeps (type : string) (amounts : list value)
      (tr : Canvas.Transforms) :
  (toLowerCase type = Transform.TRANSLATE
   \/ toLowerCase type = Transform.SCALE ->
   Canvas.rotate (Canvas.applyAmounts type amounts tr) = Canvas.rotate tr)
  /\ (toLowerCase type = Transform.ROTATE ->
      Canvas.translate (Canvas.applyAmounts type amounts tr)
      = Canvas.translate tr
      /\ Canvas.scale (Canvas.applyAmounts type amounts tr) = Canvas.scale tr).
Proof.
  unfold Canvas.applyAmounts. split.
  - intros [-> | ->]; cbn;
      destruct amounts as [|a0 [|a1 rest]]; try reflexivity;
      destruct (isNaN (parseFloat a0) || isNaN (parseFloat a1)); reflexivity.
  - intros ->. cbn. destruct amounts as [|a0 rest]; [now split|].
    destruct (isNaN (parseFloat a0)); now split.
Qed.

Lemma scaleThenRotate_mapping (cv : Canvas.t) (cx cy : R) :
  forallb drawable (Canvas.paths cv) = true ->
  Canvas.getCenterPoint cv = Ok (Point.mk (Fin cx) (Fin cy)) ->
  Canvas.transforms cv = Canvas.initialTransforms ->
  scaleThenRotate cv
  = Ok (mmul (scaleTranslation 2 2 0 0) (rotationAbout cx cy (90 * PI / 180))).
Proof.
  intros Hd Hc Ht.
  destruct (@transform2_ok Transform.SCALE
              (IsArray [VNum (Fin 2); VNum (Fin 2)]) cv Hd)
    as (cv1 & m & added & E & _ & Hp & _ & _ & Ht1 & Hs & Hf & _).
  unfold scaleThenRotate. rewrite E. cbn [bind].
  apply pixelMapping_rotate with (sk := Canvas.mkXY zero zero).
  - now rewrite (@getCenterPoint_ext cv cv1 Hp Hs Hf).
  - rewrite Ht1, Ht. cbn -[div mul Math_PI]. now rewrite degrees_to_radians.
  - reflexivity.
Qed.

Lemma rotateThenScale_mapping (cv : Canvas.t) (cx cy : R) :
  forallb drawable (Canvas.paths cv) = true ->
  Canvas.getCenterPoint cv = Ok (Point.mk (Fin cx) (Fin cy)) ->
  Canvas.transforms cv = Canvas.initialTransforms ->
  rotateThenScale cv
  = Ok (mmul (rotationAbout cx cy (90 * PI / 180)) (scaleTranslation 2 2 0 0)).
Proof.
  intros Hd Hc Ht.
  destruct (@transform2_ok Transform.ROTATE (IsArray [VNum (Fin 90)]) cv Hd)
    as (cv1 & m & added & E & _ & Hp & _ & _ & Ht1 & Hs & Hf & _).
  unfold rotateThenScale. rewrite E. cbn [bind].
  apply pixelMapping_translate_scale with (sk := Canvas.mkXY zero zero).
  - now rewrite (@getCenterPoint_ext cv cv1 Hp Hs Hf).
  - rewrite Ht1, Ht. cbn -[div mul Math_PI]. now rewrite degrees_to_radians.
  - right. reflexivity.
Qed.

(** a uniform scale commutes with the rotation about the pivot exactly
    when the pivot is the origin *)
Lemma orders_agree_iff (cx cy : R) :
  mmul (scaleTranslation 2 2 0 0) (rotationAbout cx cy (90 * PI / 180))
  = mmul (rotationAbout cx cy (90 * PI / 180)) (scaleTranslation 2 2 0 0)
  <-> cx = 0 /\ cy = 0.
Proof.
  replace (90 * PI / 180) with (PI / 2) by field.
  cbv [mmul rotationAbout scaleTranslation translation rotation
       ma mb mc md me mf].
  rewrite cos_PI2, sin_PI2. split.
  - intros H. injection H as _ _ _ _ He Hf. split; lra.
  - intros [-> ->]. apply matrix_ext; ring.
Qed.

(** C4 (amended).  On a layer with pivot (cx, cy): for kind translate or
    scale the pixel mapping is the rotation about the pivot by the stored
    rotation followed by the scale and translation; for kind rotate it is
    the stored scale and translation followed by the rotation about the
    pivot by the new rotation.  From the identity TransformState, SCALE
    (2,2) then ROTATE 90 and ROTATE 90 then SCALE (2,2) give different
    pixel mappings exactly when the pivot is not the origin. *)
Theorem C4_composition_order (cv : Canvas.t) (cx cy : R) :
  forallb drawable (Canvas.paths cv) = true ->
  Canvas.getCenterPoint cv = Ok (Point.mk (Fin cx) (Fin cy)) ->
  (forall type am tx ty sx sy r sk,
      Canvas.applyAmounts type (Canvas.toArray am) (Canvas.transforms cv)
      = Canvas.mkTransforms (Canvas.mkXY (Fin tx) (Fin ty))
          (Canvas.mkXY (Fin sx) (Fin sy)) sk (Fin r) ->
      (toLowerCase type = Transform.TRANSLATE
       \/ toLowerCase type = Transform.SCALE ->
       pixelMapping type am cv
       = Ok (mmul (rotationAbout cx cy r) (scaleTranslation sx sy tx ty))
       /\ Canvas.rotate (Canvas.transforms cv) = Fin r)
      /\ (toLowerCase type = Transform.ROTATE ->
          pixelMapping type am cv
          = Ok (mmul (scaleTranslation sx sy tx ty) (rotationAbout cx cy r))
          /\ Canvas.translate (Canvas.transforms cv)
             = Canvas.mkXY (Fin tx) (Fin ty)
          /\ Canvas.scale (Canvas.transforms cv)
             = Canvas.mkXY (Fin sx) (Fin sy)))
  /\ (Canvas.transforms cv = Canvas.initialTransforms ->
      scaleThenRotate cv
      = Ok (mmul (scaleTranslation 2 2 0 0)
              (rotationAbout cx cy (90 * PI / 180)))
      /\ rotateThenScale cv
         = Ok (mmul (rotationAbout cx cy (90 * PI / 180))
                 (scaleTranslation 2 2 0 0))
      /\ (scaleThenRotate cv <> rotateThenScale cv <-> ~ (cx = 0 /\ cy = 0))).
Proof.
  intros Hd Hc. split.
  - intros type am tx ty sx sy r sk Ha.
    destruct (applyAmounts_keeps type (Canvas.toArray am) (Canvas.transforms cv))
      as [Hk1 Hk2].
    split; intros Hk.
    + split; [now apply pixelMapping_translate_scale with (sk := sk)|].
      rewrite <- (Hk1 Hk), Ha. reflexivity.
    + split; [now apply pixelMapping_rotate with (sk := sk)|].
      destruct (Hk2 Hk) as [<- <-]. rewrite Ha. now split.
  - intros Ht.
    rewrite (@scaleThenRotate_mapping cv cx cy Hd Hc Ht).
    rewrite (@rotateThenScale_mapping cv cx cy Hd Hc Ht).
    split; [reflexivity|]. split; [reflexivity|].
    split.
    + intros Hne Hz. apply Hne. f_equal. now apply orders_agree_iff.
    + intros Hnz Heq. apply Hnz. apply orders_agree_iff.
      exact (@Ok_inj _ _ _ Heq).
Qed.

(** a layer without paths, and a layer with one circle centered at the
    origin: the pivot is the origin and the two orders give the same
    pixel mapping *)
Lemma C4_counterexample_pivot_at_origin :
  (Canvas.transforms (Canvas.new page None (VNum (Fin 300)) (VNum (Fin 300)) 2)
   = Canvas.initialTransforms
   /\ exists m,
       scaleThenRotate
         (Canvas.new page None (VNum (Fin 300)) (VNum (Fin 300)) 2)
       = Ok m
       /\ rotateThenScale
            (Canvas.new page None (VNum (Fin 300)) (VNum (Fin 300)) 2)
          = Ok m)
  /\ exists m,
      scaleThenRotate
        (Canvas.set_paths [PCircle (Circle.mk (Fin 0) (Fin 0) (Fin 5))]
           (Canvas.new page None (VNum (Fin 300)) (VNum (Fin 300)) 2))
      = Ok m
      /\ rotateThenScale
           (Canvas.set_paths [PCircle (Circle.mk (Fin 0) (Fin 0) (Fin 5))]
              (Canvas.new page None (VNum (Fin 300)) (VNum (Fin 300)) 2))
         = Ok m.
Proof.
  assert (E : mmul (rotationAbout 0 0 (90 * PI / 180)) (scaleTranslation 2 2 0 0)
              = mmul (scaleTranslation 2 2 0 0)
                  (rotationAbout 0 0 (90 * PI / 180)))
    by (symmetry; now apply orders_agree_iff).
  split; [split; [reflexivity|]|].
  - eexists. split.
    + apply (@scaleThenRotate_mapping _ 0 0); reflexivity.
    + rewrite (@rotateThenScale_mapping _ 0 0); try reflexivity. now rewrite E.
  - eexists. split.
    + apply (@scaleThenRotate_mapping _ 0 0); reflexivity.
    + rewrite (@rotateThenScale_mapping _ 0 0); try reflexivity. now rewrite E.
Qed.

(** a layer with one circle centered at (10, 10): the two orders differ *)
Lemma C4_witness :
  scaleThenRotate
    (Canvas.set_paths [PCircle (Circle.mk (Fin 10) (Fin 10) (Fin 5))]
       (Canvas.new page None (VNum (Fin 300)) (VNum (Fin 300)) 2))
  <> rotateThenScale
       (Canvas.set_paths [PCircle (Circle.mk (Fin 10) (Fin 10) (Fin 5))]
          (Canvas.new page None (VNum (Fin 300)) (VNum (Fin 300)) 2)).
Proof.
  destruct (@C4_composition_order
              (Canvas.set_paths [PCircle (Circle.mk (Fin 10) (Fin 10) (Fin 5))]
                 (Canvas.new page None (VNum (Fin 300)) (VNum (Fin 300)) 2))
              10 10 eq_refl eq_refl) as [_ H].
  destruct (H eq_refl) as (_ & _ & Hiff).
  apply Hiff. intros [H0 _]. lra.
Defined.

End Composition.

(* ------------------------------------------------------------------ *)
(** ** Gestures *)

Section Gestures.

Import ArtCanvas.

Lemma pop_push {A : Type} (l : list A) (a : A) : pop (push l a) = (l, Some a).
Proof. unfold pop, push. rewrite rev_app_distr. simpl. now rewrite rev_involutive. Qed.

Lemma nth_error_replaceNth (n : nat) (cv' : Canvas.t) (l : list Canvas.t) :
  nth_error l n <> None -> nth_error (replaceNth n cv' l) n = Some cv'.
Proof.
  revert n. induction l as [|c l IH]; intros [|n] H; simpl in *;
    try congruence. now apply IH.
Qed.

Lemma activeCanvas_storeActive (a : t) (cv cv' : Canvas.t) :
  activeCanvas a = Ok cv -> activeCanvas (storeActive cv' a) = Ok cv'.
Proof.
  unfold activeCanvas, storeActive, layerAt. intros H.
  destruct (activeLayer a <? 0)%Z eqn:E; [discriminate|].
  simpl. rewrite E.
  rewrite nth_error_replaceNth; [reflexivity|].
  destruct (nth_error (layers a) (Z.to_nat (activeLayer a))); congruence.
Qed.

Lemma readable_offsets (e : Event.t) (ct : Container.t) (cv : Canvas.t) :
  readable e = true ->
  exists x y, Canvas.getOffsetX (Some e) ct cv = Ok x
              /\ Canvas.getOffsetY (Some e) ct cv = Ok y.
Proof.
  unfold readable, Canvas.getOffsetX, Canvas.getOffsetY. intros H.
  apply andb_true_iff in H. destruct H as [Hx Hy].
  destruct (Canvas.pickSource (truthy (Canvas.toNumber (Event.pageX e))) e);
    [|discriminate].
  destruct (Canvas.pickSource (truthy (Canvas.toNumber (Event.pageY e))) e);
    [|discriminate].
  simpl. eauto.
Qed.

(** *** Transform gestures *)






Lemma readable_mouse (ty : string) (x y : R) :
  x <> 0%R -> y <> 0%R -> readable (Event.mouse ty x y) = true.
Proof.
  intros Hx Hy. unfold readable, Event.mouse.
  cbn [Event.pageX Event.pageY Canvas.toNumber].
  now rewrite (truthy_Fin Hx), (truthy_Fin Hy).
Qed.


(** the listeners are the functions above at the coordinates that
    [getOffsetX] and [getOffsetY] return *)
Lemma listeners_at (e : Event.t) (a : t) (cv : Canvas.t) (x y : num) :
  activeCanvas a = Ok cv ->
  Canvas.getOffsetX (Some e) (container a) cv = Ok x ->
  Canvas.getOffsetY (Some e) (container a) cv = Ok y ->
  onStart e a = pointerDown x y (Event.type e) a
  /\ onMove e a = pointerMove x y (Event.type e) a
  /\ onEnd e a = pointerUp x y (Event.type e) a.
Proof.
  intros Hcv Ex Ey.
  unfold onStart, onMove, onEnd, pointerDown, pointerMove, pointerUp.
  rewrite Hcv. cbn [bind]. rewrite Ex, Ey. cbn [bind].
  destruct (negb (isDown a)); auto.
Qed.




(** *** Figure gestures *)

Lemma event_types (tp : bool) :
  isStartType (MouseEvents.START tp) = true
  /\ isStartType (MouseEvents.MOVE tp) = false
  /\ isEndType (MouseEvents.MOVE tp) = false
  /\ isStartType (MouseEvents.END tp) = false
  /\ isEndType (MouseEvents.END tp) = true.
Proof. destruct tp; repeat split. Qed.

Lemma figureShape_isShape (f : string) (p : Point.t) (x y : num) :
  isShape (figureShape f p x y) = true.
Proof.
  unfold figureShape.
  destruct (String.eqb f Figure.RECTANGLE); [reflexivity|].
  destruct (String.eqb f Figure.CIRCLE); reflexivity.
Qed.

(** [_figure] at a pointer-move or a pointer-up, on a layer whose last
    path is the anchor: it keeps the anchor at a move and replaces it by
    the shape at an up *)
Lemma _figure_step (a : t) (cv : Canvas.t) (orig : list path) (p : Point.t)
      (x y : num) (ty : string) (d : Context.ImageData) :
  isStartType ty = false ->
  imagedata a = Some d ->
  isFigureName (figure a) = true ->
  Canvas.paths cv = push orig (Points [Some p]) ->
  exists cv',
    _figure cv x y ty a = Ok (cv', a)
    /\ Canvas.canvas cv' = Canvas.canvas cv
    /\ Canvas.paths cv'
       = push orig (if isEndType ty then figureShape (figure a) p x y
                    else Points [Some p]).
Proof.
  intros Hs Hi Hf Hp. unfold _figure. rewrite Hs, Hp, pop_push.
  change (pop [Some p]) with (@nil (option Point.t), Some (Some p)).
  cbn [snd fst popped]. rewrite Hi.
  cbn [Context.putImageData bind]. unfold figureShape.
  unfold isFigureName in Hf.
  destruct (String.eqb (figure a) Figure.RECTANGLE).
  - eexists. split; [reflexivity|].
    destruct (isEndType ty); cbn [Canvas.canvas Canvas.paths Canvas.set_paths
      Canvas.set_context]; [rewrite pop_push|]; split; reflexivity.
  - destruct (String.eqb (figure a) Figure.CIRCLE).
    + eexists. split; [reflexivity|].
      destruct (isEndType ty); cbn [Canvas.canvas Canvas.paths Canvas.set_paths
        Canvas.set_context]; [rewrite pop_push|]; split; reflexivity.
    + cbn [orb] in Hf. rewrite Hf.
      eexists. split; [reflexivity|].
      destruct (isEndType ty); cbn [Canvas.canvas Canvas.paths Canvas.set_paths
        Canvas.set_context]; [rewrite pop_push|]; split; reflexivity.
Qed.

Lemma startAt_figure (a : t) (cv : Canvas.t) (x y : num) (ty : string) :
  mode a = Mode.FIGURE ->
  isStartType ty = true ->
  activeCanvas a = Ok cv ->
  exists a1 cv1 d,
    startAt cv x y ty a = Ok a1
    /\ mode a1 = Mode.FIGURE /\ isDown a1 = true
    /\ figure a1 = figure a /\ container a1 = container a
    /\ imagedata a1 = Some d
    /\ activeCanvas a1 = Ok cv1
    /\ Canvas.canvas cv1 = Canvas.canvas cv
    /\ Canvas.paths cv1
       = push (Canvas.paths cv) (Points [Some (Point.new (VNum x) (VNum y))]).
Proof.
  intros Hm Hs Hcv. unfold startAt, _figure. rewrite Hm, Hs.
  cbn [String.eqb Mode.TRANSFORM Mode.TEXT Mode.HAND Mode.FIGURE Ascii.eqb
       Bool.eqb bind].
  eexists.
  exists (Canvas.set_paths
            (push (Canvas.paths cv)
               (Points [Some (Point.new (VNum x) (VNum y))])) cv).
  eexists.
  split; [reflexivity|].
  match goal with
  | |- context [storeActive ?c ?s] =>
      destruct (storeActive_frame c s)
        as (H1 & H2 & H3 & _ & _ & _ & _ & H8 & _);
      pose proof (@activeCanvas_storeActive s cv c Hcv) as HA
  end.
  cbn [mode isDown figure container imagedata invoke set_isDown].
  rewrite H1, H2, H3, H8. cbn [mode figure container imagedata set_imagedata].
  split; [exact Hm|]. split; [reflexivity|]. split; [reflexivity|].
  split; [reflexivity|]. split; [reflexivity|].
  split; [exact HA|]. split; reflexivity.
Qed.

Lemma moveAt_figure (a : t) (cv : Canvas.t) (orig : list path) (p : Point.t)
      (x y : num) (ty : string) (d : Context.ImageData) :
  mode a = Mode.FIGURE ->
  isStartType ty = false -> isEndType ty = false ->
  imagedata a = Some d ->
  isFigureName (figure a) = true ->
  activeCanvas a = Ok cv ->
  Canvas.paths cv = push orig (Points [Some p]) ->
  exists a1 cv1,
    moveAt cv x y ty a = Ok a1
    /\ mode a1 = Mode.FIGURE /\ isDown a1 = isDown a
    /\ figure a1 = figure a /\ container a1 = container a
    /\ imagedata a1 = Some d
    /\ activeCanvas a1 = Ok cv1
    /\ Canvas.canvas cv1 = Canvas.canvas cv
    /\ Canvas.paths cv1 = push orig (Points [Some p]).
Proof.
  intros Hm Hs He Hi Hf Hcv Hp. unfold moveAt. rewrite Hm.
  cbn [String.eqb Mode.TRANSFORM Mode.TEXT Mode.HAND Mode.FIGURE Ascii.eqb
       Bool.eqb].
  destruct (@_figure_step a cv orig p x y ty d Hs Hi Hf Hp)
    as (cv1 & E & Hc1 & Hp1).
  rewrite E. cbn [bind]. rewrite He in Hp1.
  exists (invoke (drawmove x y) (storeActive cv1 a)), cv1.
  split; [reflexivity|].
  destruct (storeActive_frame cv1 a)
    as (H1 & H2 & H3 & _ & _ & _ & _ & H8 & H9).
  cbn [mode isDown figure container imagedata invoke].
  rewrite H1, H2, H3, H8, H9.
  split; [exact Hm|]. split; [reflexivity|]. split; [reflexivity|].
  split; [reflexivity|]. split; [exact Hi|].
  split; [|split; [exact Hc1|exact Hp1]].
  change (activeCanvas (invoke ?c ?s)) with (activeCanvas s).
  now apply activeCanvas_storeActive with (cv := cv).
Qed.

Lemma endAt_figure (a : t) (cv : Canvas.t) (orig : list path) (p : Point.t)
      (x y : num) (ty : string) (d : Context.ImageData) :
  mode a = Mode.FIGURE ->
  isStartType ty = false -> isEndType ty = true ->
  imagedata a = Some d ->
  isFigureName (figure a) = true ->
  activeCanvas a = Ok cv ->
  Canvas.paths cv = push orig (Points [Some p]) ->
  exists a1 cv1,
    endAt cv x y ty a = Ok a1
    /\ isDown a1 = false /\ imagedata a1 = None
    /\ activeCanvas a1 = Ok cv1
    /\ Canvas.canvas cv1 = Canvas.canvas cv
    /\ Canvas.paths cv1 = push orig (figureShape (figure a) p x y).
Proof.
  intros Hm Hs He Hi Hf Hcv Hp. unfold endAt. rewrite Hm.
  cbn [String.eqb Mode.TRANSFORM Mode.TEXT Mode.HAND Mode.FIGURE Ascii.eqb
       Bool.eqb].
  destruct (@_figure_step a cv orig p x y ty d Hs Hi Hf Hp)
    as (cv1 & E & Hc1 & Hp1).
  rewrite E. cbn [bind fst snd]. rewrite He in Hp1.
  exists (invoke (drawend x y)
            (set_isDown false (storeActive cv1 (set_imagedata None a)))), cv1.
  split; [reflexivity|].
  destruct (storeActive_frame cv1 (set_imagedata None a))
    as (_ & _ & _ & _ & _ & _ & _ & H8 & _).
  cbn [isDown imagedata invoke set_isDown]. rewrite H8.
  split; [reflexivity|]. split; [reflexivity|].
  split; [|split; [exact Hc1|exact Hp1]].
  change (activeCanvas (invoke ?c (set_isDown ?b ?s))) with (activeCanvas s).
  now apply activeCanvas_storeActive with (cv := cv).
Qed.

Lemma getOffset_ext (e : Event.t) (ct : Container.t) (cv cv' : Canvas.t) :
  Canvas.canvas cv' = Canvas.canvas cv ->
  Canvas.getOffsetX (Some e) ct cv' = Canvas.getOffsetX (Some e) ct cv
  /\ Canvas.getOffsetY (Some e) ct cv' = Canvas.getOffsetY (Some e) ct cv.
Proof. intros H. unfold Canvas.getOffsetX, Canvas.getOffsetY. now rewrite H. Qed.



(** *** The concrete scenario *)


Local Open Scope R_scope.

Lemma getOffsetX_at (ty : string) (x y : R) (ct : Container.t)
      (cv : Canvas.t) :
  Container.offsetLeft ct = 0 -> Container.scrollLeft ct = 0 ->
  0 < x <= IZR (Canvas.width (Canvas.canvas cv)) ->
  Canvas.getOffsetX (Some (Event.mouse ty x y)) ct cv = Ok (Fin x).
Proof.
  intros Ho Hs Hx. rewrite getOffsetX_mouse by lra. rewrite Ho, Hs.
  replace (x + - (0) + 0) with x by lra.
  rewrite clamp_inside; [reflexivity|lra].
Qed.

Lemma getOffsetY_at (ty : string) (x y : R) (ct : Container.t)
      (cv : Canvas.t) :
  Container.offsetTop ct = 0 -> Container.scrollTop ct = 0 ->
  0 < y <= IZR (Canvas.height (Canvas.canvas cv)) ->
  Canvas.getOffsetY (Some (Event.mouse ty x y)) ct cv = Ok (Fin y).
Proof.
  intros Ho Hs Hy. rewrite getOffsetY_mouse by lra. rewrite Ho, Hs.
  replace (y + - (0) + 0) with y by lra.
  rewrite clamp_inside; [reflexivity|lra].
Qed.




Lemma pointerMoves_figure (tp : bool) (ps : list (num * num)) :
  forall (a : t) (cv : Canvas.t) (orig : list path) (p : Point.t)
         (d : Context.ImageData),
    mode a = Mode.FIGURE -> isDown a = true ->
    imagedata a = Some d ->
    isFigureName (figure a) = true ->
    activeCanvas a = Ok cv ->
    Canvas.paths cv = push orig (Points [Some p]) ->
    exists a1 cv1,
      pointerMoves ps (MouseEvents.MOVE tp) a = Ok a1
      /\ mode a1 = Mode.FIGURE /\ isDown a1 = true
      /\ figure a1 = figure a
      /\ imagedata a1 = Some d
      /\ activeCanvas a1 = Ok cv1
      /\ Canvas.paths cv1 = push orig (Points [Some p]).
Proof.
  destruct (event_types tp) as (_ & Hs & Hen & _).
  induction ps as [|q ps IH]; intros a cv orig p d Hm Hdown Hi Hf Hcv Hp.
  - exists a, cv. simpl. repeat split; assumption.
  - simpl. unfold pointerMove. rewrite Hdown, Hcv. cbn [negb bind].
    destruct (@moveAt_figure a cv orig p (fst q) (snd q) (MouseEvents.MOVE tp)
                d Hm Hs Hen Hi Hf Hcv Hp)
      as (a1 & cv1 & E1 & Hm1 & Hd1 & Hf1 & _ & Hi1 & Hcv1 & _ & Hp1).
    rewrite E1. cbn [bind].
    rewrite Hdown in Hd1. rewrite <- Hf1 in Hf.
    destruct (IH a1 cv1 orig p d Hm1 Hd1 Hi1 Hf Hcv1 Hp1)
      as (a2 & cv2 & E2 & Hm2 & Hd2 & Hf2 & Hi2 & Hcv2 & Hp2).
    exists a2, cv2. split; [exact E2|].
    rewrite Hf2, Hf1. repeat split; assumption.
Qed.

(** a figure gesture given by its positions *)
Lemma figure_gesture_at (touchPanel : bool) (a : t) (cv : Canvas.t)
      (p0 p1 : num * num) (ps : list (num * num)) :
  mode a = Mode.FIGURE ->
  isFigureName (figure a) = true ->
  activeCanvas a = Ok cv ->
  exists a1 a2 a3,
    pointerDown (fst p0) (snd p0) (MouseEvents.START touchPanel) a = Ok a1
    /\ pointerMoves ps (MouseEvents.MOVE touchPanel) a1 = Ok a2
    /\ pointerUp (fst p1) (snd p1) (MouseEvents.END touchPanel) a2 = Ok a3
    /\ gestureAt touchPanel p0 ps p1 a = Ok a3
    /\ activePaths a1
       = Ok (push (Canvas.paths cv)
               (Points [Some (Point.new (VNum (fst p0)) (VNum (snd p0)))]))
    /\ activePaths a2
       = Ok (push (Canvas.paths cv)
               (Points [Some (Point.new (VNum (fst p0)) (VNum (snd p0)))]))
    /\ activePaths a3
       = Ok (push (Canvas.paths cv)
               (figureShape (figure a)
                  (Point.new (VNum (fst p0)) (VNum (snd p0)))
                  (fst p1) (snd p1)))
    /\ isShape (figureShape (figure a)
                  (Point.new (VNum (fst p0)) (VNum (snd p0)))
                  (fst p1) (snd p1))
       = true
    /\ isDown a3 = false
    /\ imagedata a3 = None.
Proof.
  intros Hm Hf Hcv.
  destruct (event_types touchPanel) as (Hs1 & _ & _ & Hs3 & He3).
  destruct (@startAt_figure a cv (fst p0) (snd p0)
              (MouseEvents.START touchPanel) Hm Hs1 Hcv)
    as (a1 & cv1 & d & E1 & Hm1 & Hd1 & Hf1 & _ & Hi1 & Hcv1 & _ & Hp1).
  assert (Hf1' : isFigureName (figure a1) = true) by now rewrite Hf1.
  destruct (@pointerMoves_figure touchPanel ps a1 cv1 (Canvas.paths cv)
              (Point.new (VNum (fst p0)) (VNum (snd p0))) d
              Hm1 Hd1 Hi1 Hf1' Hcv1 Hp1)
    as (a2 & cv2 & E2 & Hm2 & Hd2 & Hf2 & Hi2 & Hcv2 & Hp2).
  assert (Hf2' : isFigureName (figure a2) = true) by now rewrite Hf2.
  destruct (@endAt_figure a2 cv2 (Canvas.paths cv)
              (Point.new (VNum (fst p0)) (VNum (snd p0))) (fst p1) (snd p1)
              (MouseEvents.END touchPanel) d Hm2 Hs3 He3 Hi2 Hf2' Hcv2 Hp2)
    as (a3 & cv3 & E3 & Hd3 & Hi3 & Hcv3 & _ & Hp3).
  assert (S1 : pointerDown (fst p0) (snd p0) (MouseEvents.START touchPanel) a
               = Ok a1).
  { unfold pointerDown. rewrite Hcv. exact E1. }
  assert (S3 : pointerUp (fst p1) (snd p1) (MouseEvents.END touchPanel) a2
               = Ok a3).
  { unfold pointerUp. rewrite Hd2, Hcv2. exact E3. }
  exists a1, a2, a3.
  split; [exact S1|]. split; [exact E2|]. split; [exact S3|].
  split; [unfold gestureAt; rewrite S1; cbn [bind]; rewrite E2; exact S3|].
  unfold activePaths. rewrite Hcv1, Hcv2, Hcv3. cbn [bind].
  rewrite Hp1, Hp2, Hp3, Hf2, Hf1.
  split; [reflexivity|]. split; [reflexivity|]. split; [reflexivity|].
  split; [apply figureShape_isShape|]. split; assumption.
Qed.



(** *** A pointer-up on the edge of the page *)



(** *** Positions read from events *)

Lemma positionOn_inv (ct : Container.t) (cv : Canvas.t) (e : Event.t)
      (x y : num) :
  positionOn ct cv e = Ok (x, y) ->
  Canvas.getOffsetX (Some e) ct cv = Ok x
  /\ Canvas.getOffsetY (Some e) ct cv = Ok y.
Proof.
  unfold positionOn. intros H.
  destruct (Canvas.getOffsetX (Some e) ct cv) as [x1|]; [|discriminate].
  destruct (Canvas.getOffsetY (Some e) ct cv) as [y1|]; [|discriminate].
  cbn [bind] in H. apply Ok_inj in H. injection H as -> ->. auto.
Qed.

Lemma positionOn_ext (ct : Container.t) (cv cv' : Canvas.t) (e : Event.t) :
  Canvas.canvas cv' = Canvas.canvas cv ->
  positionOn ct cv' e = positionOn ct cv e.
Proof.
  intros H. unfold positionOn.
  destruct (@getOffset_ext e ct cv cv' H) as [-> ->]. reflexivity.
Qed.

(** a mouse event inside the canvas, away from the left and upper edges
    of a page whose container is at the origin and not scrolled *)
Lemma positionOn_mouse (ty : string) (x y : R) (ct : Container.t)
      (cv : Canvas.t) :
  Container.offsetLeft ct = 0 -> Container.scrollLeft ct = 0 ->
  Container.offsetTop ct = 0 -> Container.scrollTop ct = 0 ->
  0 < x <= IZR (Canvas.width (Canvas.canvas cv)) ->
  0 < y <= IZR (Canvas.height (Canvas.canvas cv)) ->
  positionOn ct cv (Event.mouse ty x y) = Ok (Fin x, Fin y).
Proof.
  intros H1 H2 H3 H4 Hx Hy. unfold positionOn.
  rewrite getOffsetX_at, getOffsetY_at by assumption. reflexivity.
Qed.

Lemma onMoves_idle (moves : list Event.t) (a : t) :
  isDown a = false -> onMoves moves a = Ok a.
Proof.
  intros H. induction moves as [|e moves IH]; simpl; [reflexivity|].
  unfold onMove. rewrite H. exact IH.
Qed.

Lemma onMoves_app (l1 l2 : list Event.t) (a : t) :
  onMoves (l1 ++ l2) a = (a1 <- onMoves l1 a ;; onMoves l2 a1).
Proof.
  revert a. induction l1 as [|e l1 IH]; intros a; simpl; [reflexivity|].
  destruct (onMove e a) as [a1|]; simpl; [apply IH|reflexivity].
Qed.

End Gestures.

(* ------------------------------------------------------------------ *)
(** ** Distances and edges *)

Section Distances.

Local Open Scope R_scope.

(** the coordinate of [getOffsetPoint]: the difference, 0 where the
    difference is NaN *)
Lemma offset_coordinates (p q : Point.t) :
  Point.x (Point.getOffsetPoint (Some p) (Some q))
  = (if negb (isNaN (sub (Point.x q) (Point.x p)))
     then sub (Point.x q) (Point.x p) else zero)
  /\ Point.y (Point.getOffsetPoint (Some p) (Some q))
     = (if negb (isNaN (sub (Point.y q) (Point.y p)))
        then sub (Point.y q) (Point.y p) else zero).
Proof. split; reflexivity. Qed.

Lemma pow2_cases (a : num) :
  Math_pow a 2
  = match a with Fin r => Fin (r * r) | NaN => NaN | _ => PInf end.
Proof.
  destruct a; simpl; try reflexivity.
  - f_equal. ring.
  - rewrite (@Reqb_false 1 0) by lra. unfold scaleInf.
    now rewrite (@Rltb_false 1 0) by lra.
  - rewrite (@Reqb_false 1 0) by lra. unfold scaleInf.
    now rewrite (@Rltb_false 1 0) by lra.
Qed.

(** the squares of the two differences of a pair of coordinates agree *)
Lemma square_symmetric (a b : num) :
  isNaN a = false -> isNaN b = false ->
  Math_pow (if negb (isNaN (sub b a)) then sub b a else zero) 2
  = Math_pow (if negb (isNaN (sub a b)) then sub a b else zero) 2.
Proof.
  intros Ha Hb. rewrite !pow2_cases.
  destruct a, b; try discriminate; simpl; try reflexivity.
  f_equal. ring.
Qed.

Lemma hypot_cases (dx dy : num) :
  isNaN dx = false -> isNaN dy = false ->
  Math_sqrt (add (Math_pow dx 2) (Math_pow dy 2))
  = match dx, dy with
    | Fin a, Fin b => Fin (sqrt (a * a + b * b))
    | _, _ => PInf
    end.
Proof.
  intros Hx Hy. rewrite !pow2_cases.
  destruct dx, dy; try discriminate; simpl; try reflexivity.
  rewrite Rltb_false; [reflexivity|]. nra.
Qed.

Lemma offset_not_NaN (d : num) :
  isNaN (if negb (isNaN d) then d else zero) = false.
Proof. now destruct d. Qed.

(** X1.  The distance between two constructed points is never NaN and
    never negative, it is the same in both directions, and it is 0 from
    a point to itself. *)
Theorem getDistance_nonneg_symmetric (vx vy vx' vy' : value) :
  let p := Point.new vx vy in
  let q := Point.new vx' vy' in
  ge (Point.getDistance (Some p) (Some q)) zero = true
  /\ Point.getDistance (Some p) (Some q) = Point.getDistance (Some q) (Some p)
  /\ Point.getDistance (Some p) (Some p) = zero.
Proof.
  intros p q.
  destruct (Point_new_not_NaN vx vy) as [Hpx Hpy].
  destruct (Point_new_not_NaN vx' vy') as [Hqx Hqy].
  fold p in Hpx, Hpy. fold q in Hqx, Hqy.
  unfold Point.getDistance, Point.getX, Point.getY.
  destruct (offset_coordinates p q) as [-> ->].
  destruct (offset_coordinates q p) as [-> ->].
  destruct (offset_coordinates p p) as [-> ->].
  split; [|split].
  - rewrite hypot_cases by apply offset_not_NaN.
    destruct (if negb (isNaN (sub (Point.x q) (Point.x p)))
              then sub (Point.x q) (Point.x p) else zero) as [a| | |];
      destruct (if negb (isNaN (sub (Point.y q) (Point.y p)))
                then sub (Point.y q) (Point.y p) else zero) as [b| | |];
      try reflexivity.
    unfold ge, le, lt, eq, zero.
    destruct (Rle_lt_or_eq_dec 0 (sqrt (a * a + b * b)) (sqrt_pos _)) as [H|H].
    + now rewrite (Rltb_true H).
    + rewrite (Reqb_true H). apply orb_true_r.
  - now rewrite (@square_symmetric (Point.x p) (Point.x q)),
      (@square_symmetric (Point.y p) (Point.y q)).
  - rewrite hypot_cases by apply offset_not_NaN.
    destruct (Point.x p) as [a| | |], (Point.y p) as [b| | |];
      try discriminate; simpl;
      try (replace (0 * 0 + 0 * 0) with 0 by ring; now rewrite sqrt_0).
    + replace ((a + - a) * (a + - a) + (b + - b) * (b + - b)) with 0 by ring.
      now rewrite sqrt_0.
    + replace ((a + - a) * (a + - a) + 0 * 0) with 0 by ring.
      now rewrite sqrt_0.
    + replace ((a + - a) * (a + - a) + 0 * 0) with 0 by ring.
      now rewrite sqrt_0.
    + replace (0 * 0 + (b + - b) * (b + - b)) with 0 by ring.
      now rewrite sqrt_0.
    + replace (0 * 0 + (b + - b) * (b + - b)) with 0 by ring.
      now rewrite sqrt_0.
Qed.

End Distances.

Section Edges.

Local Open Scope R_scope.

Lemma ge_zero_cases (n : num) :
  ge (if ge n zero then n else zero) zero = true.
Proof.
  destruct (ge n zero) eqn:E; [exact E|].
  unfold ge, le, lt, eq, zero. rewrite Reqb_refl. apply orb_true_r.
Qed.

Lemma ge_add_nonneg (l w : num) :
  isFinite l = true -> ge w zero = true -> ge (add l w) l = true.
Proof.
  destruct l as [a| | |]; try discriminate. intros _.
  destruct w as [b| | |]; try discriminate; [|reflexivity].
  unfold ge, le, lt, eq, zero, add. intros H.
  apply orb_true_iff in H.
  destruct (Rlt_dec a (a + b)) as [Hlt|Hn]; [now rewrite (Rltb_true Hlt)|].
  rewrite (Rltb_false Hn). simpl. apply Reqb_true.
  destruct H as [H|H].
  - unfold Rltb in H. destruct (Rlt_dec 0 b); [lra|discriminate].
  - unfold Reqb in H. destruct (Req_dec_T 0 b); [lra|discriminate].
Qed.

(** X2.  A constructed Rectangle never has a negative or NaN width or
    height, and where its left (top) is finite its right (bottom) edge
    is not before its left (top) edge. *)
Theorem Rectangle_edges_ordered (vtop vleft vwidth vheight : value) :
  let r := Rectangle.new vtop vleft vwidth vheight in
  ge (Rectangle.getWidth r) zero = true
  /\ ge (Rectangle.getHeight r) zero = true
  /\ (isFinite (Rectangle.getLeft r) = true ->
      ge (Rectangle.getRight r) (Rectangle.getLeft r) = true)
  /\ (isFinite (Rectangle.getTop r) = true ->
      ge (Rectangle.getBottom r) (Rectangle.getTop r) = true).
Proof.
  intros r.
  assert (Hw : ge (Rectangle.getWidth r) zero = true) by apply ge_zero_cases.
  assert (Hh : ge (Rectangle.getHeight r) zero = true) by apply ge_zero_cases.
  split; [exact Hw|]. split; [exact Hh|].
  unfold Rectangle.getRight, Rectangle.getBottom, Rectangle.getLeft,
    Rectangle.getTop, Rectangle.getWidth, Rectangle.getHeight in *.
  split; [intros Hl; now apply ge_add_nonneg|].
  intros Ht; now apply ge_add_nonneg.
Qed.

(** a rectangle at (top 20, left 10) of height 40 and unbounded width *)
Lemma Rectangle_edges_ordered_witness :
  ge (Rectangle.getRight
        (Rectangle.new (VNum (Fin 20)) (VNum (Fin 10)) (VNum PInf)
           (VNum (Fin 40))))
     (Rectangle.getLeft
        (Rectangle.new (VNum (Fin 20)) (VNum (Fin 10)) (VNum PInf)
           (VNum (Fin 40))))
  = true.
Proof.
  destruct (Rectangle_edges_ordered (VNum (Fin 20)) (VNum (Fin 10))
              (VNum PInf) (VNum (Fin 40)))
    as (_ & _ & H & _).
  apply H. reflexivity.
Defined.

End Edges.

(* ------------------------------------------------------------------ *)
(** ** Touch events *)

Section Touches.

Local Open Scope R_scope.

(** X3.  On a touch event the coordinates are read from the first entry
    of [touches] or, when [touches] is empty, from the first entry of
    [changedTouches].  They are the touch's page coordinates made
    relative to the container (its offset subtracted, its scroll added)
    and clamped: both lie within the canvas, and a position inside the
    canvas is returned as it is. *)
Theorem getOffset_touch_in_bounds
        (ty : string) (ts cs : list Event.Touch) (tc : Event.Touch)
        (ct : Container.t) (cv : Canvas.t) :
  hd_error (ts ++ cs) = Some tc ->
  (0 <= Canvas.width (Canvas.canvas cv))%Z ->
  (0 <= Canvas.height (Canvas.canvas cv))%Z ->
  let ox := Event.t_pageX tc + - Container.offsetLeft ct
            + Container.scrollLeft ct in
  let oy := Event.t_pageY tc + - Container.offsetTop ct
            + Container.scrollTop ct in
  exists vx vy,
    Canvas.getOffsetX (Some (Event.touch ty ts cs)) ct cv = Ok (Fin vx)
    /\ Canvas.getOffsetY (Some (Event.touch ty ts cs)) ct cv = Ok (Fin vy)
    /\ 0 <= vx <= IZR (Canvas.width (Canvas.canvas cv))
    /\ 0 <= vy <= IZR (Canvas.height (Canvas.canvas cv))
    /\ (0 <= ox <= IZR (Canvas.width (Canvas.canvas cv)) -> vx = ox)
    /\ (0 <= oy <= IZR (Canvas.height (Canvas.canvas cv)) -> vy = oy).
Proof.
  intros Hhd Hw Hh ox oy.
  assert (Ex : Canvas.getOffsetX (Some (Event.touch ty ts cs)) ct cv
               = Ok (Canvas.clamp (Fin ox)
                       (ofZ (Canvas.width (Canvas.canvas cv))))).
  { unfold Canvas.getOffsetX, Event.touch.
    cbn [Event.pageX Canvas.toNumber truthy Canvas.pickSource Event.touches
         Event.changedTouches].
    destruct ts as [|t0 ts]; simpl in Hhd.
    - destruct cs as [|c0 cs]; [discriminate|].
      injection Hhd as ->. reflexivity.
    - injection Hhd as ->. reflexivity. }
  assert (Ey : Canvas.getOffsetY (Some (Event.touch ty ts cs)) ct cv
               = Ok (Canvas.clamp (Fin oy)
                       (ofZ (Canvas.height (Canvas.canvas cv))))).
  { unfold Canvas.getOffsetY, Event.touch.
    cbn [Event.pageY Canvas.toNumber truthy Canvas.pickSource Event.touches
         Event.changedTouches].
    destruct ts as [|t0 ts]; simpl in Hhd.
    - destruct cs as [|c0 cs]; [discriminate|].
      injection Hhd as ->. reflexivity.
    - injection Hhd as ->. reflexivity. }
  destruct (@clamp_in_bounds ox (Canvas.width (Canvas.canvas cv)))
    as (vx & Hvx & Hbx); [now apply IZR_le|].
  destruct (@clamp_in_bounds oy (Canvas.height (Canvas.canvas cv)))
    as (vy & Hvy & Hby); [now apply IZR_le|].
  exists vx, vy. rewrite Ex, Ey, Hvx, Hvy.
  split; [reflexivity|]. split; [reflexivity|].
  split; [exact Hbx|]. split; [exact Hby|]. split.
  - intros Hin. rewrite (clamp_inside _ Hin) in Hvx. now apply Fin_inj.
  - intros Hin. rewrite (clamp_inside _ Hin) in Hvy. now apply Fin_inj.
Qed.

(** a touchend event: no touch is left on the surface, the lifted one is
    in [changedTouches] *)
Lemma getOffset_touch_in_bounds_witness :
  exists vx vy,
    Canvas.getOffsetX
      (Some (Event.touch "touchend" [] [Event.mkTouch 40 50])) page
      (Canvas.mk (Canvas.mkElement 300 150 2) (Context.fresh (fun _ _ => 0))
         (TextStyle.new None "") [] Canvas.initialTransforms)
    = Ok (Fin vx)
    /\ Canvas.getOffsetY
         (Some (Event.touch "touchend" [] [Event.mkTouch 40 50])) page
         (Canvas.mk (Canvas.mkElement 300 150 2)
            (Context.fresh (fun _ _ => 0))
            (TextStyle.new None "") [] Canvas.initialTransforms)
       = Ok (Fin vy)
    /\ 0 <= vx <= 300 /\ 0 <= vy <= 150.
Proof.
  destruct (@getOffset_touch_in_bounds "touchend" []
              [Event.mkTouch 40 50] (Event.mkTouch 40 50) page
              (Canvas.mk (Canvas.mkElement 300 150 2)
                 (Context.fresh (fun _ _ => 0))
                 (TextStyle.new None "") [] Canvas.initialTransforms))
    as (vx & vy & Ex & Ey & Hx & Hy & _).
  - reflexivity.
  - simpl. lia.
  - simpl. lia.
  - exists vx, vy. auto.
Defined.

End Touches.

(* ------------------------------------------------------------------ *)
(** ** Removing and selecting layers *)

Section LayerOperations.

Import ArtCanvas.

Lemma validate_in_range (n : value) (i : Z) (f : Z -> t -> t) (a : t) :
  parseInt n = Some i ->
  (0 <= i < Z.of_nat (List.length (layers a)))%Z ->
  validateLayerNumer n (Some f) a = (true, f i a).
Proof.
  intros Hn Hi. unfold validateLayerNumer. rewrite Hn.
  destruct (Z.leb_spec 0 i); [|lia].
  destruct (Z.ltb_spec i (Z.of_nat (List.length (layers a)))); [|lia].
  reflexivity.
Qed.

Lemma validate_out_of_range (n : value) (f : option (Z -> t -> t)) (a : t) :
  (forall i, parseInt n = Some i ->
             (i < 0 \/ Z.of_nat (List.length (layers a)) <= i)%Z) ->
  validateLayerNumer n f a = (false, a).
Proof.
  intros H. unfold validateLayerNumer.
  destruct (parseInt n) as [i|]; [|reflexivity].
  specialize (H i eq_refl).
  destruct (Z.leb_spec 0 i); [|reflexivity].
  destruct (Z.ltb_spec i (Z.of_nat (List.length (layers a)))); [lia|].
  reflexivity.
Qed.

Lemma layerAt_splice1_below (i j : Z) (l : list Canvas.t) :
  (0 <= i < Z.of_nat (List.length l))%Z -> (j < i)%Z ->
  layerAt j (splice1 i l) = layerAt j l.
Proof.
  intros Hi Hj. unfold layerAt, splice1.
  destruct (Z.ltb_spec j 0); [reflexivity|].
  rewrite nth_error_app1 by (rewrite length_firstn; lia).
  rewrite nth_error_firstn.
  destruct (Nat.ltb_spec (Z.to_nat j) (Z.to_nat i)); [reflexivity|lia].
Qed.

Lemma layerAt_splice1_above (i j : Z) (l : list Canvas.t) :
  (0 <= i < Z.of_nat (List.length l))%Z -> (i <= j)%Z ->
  layerAt j (splice1 i l) = layerAt (j + 1) l.
Proof.
  intros Hi Hj. unfold layerAt, splice1.
  destruct (Z.ltb_spec j 0); [lia|].
  destruct (Z.ltb_spec (j + 1) 0); [lia|].
  rewrite nth_error_app2 by (rewrite length_firstn; lia).
  rewrite nth_error_skipn, length_firstn. f_equal. lia.
Qed.

Lemma removeLayer_in_range (n : value) (i : Z) (a : t) :
  parseInt n = Some i ->
  (0 <= i < Z.of_nat (List.length (layers a)))%Z ->
  removeLayer n a
  = invoke (removelayer i)
      (set_activeLayer (activeLayer a - 1)
         (set_layers (splice1 i (layers a)) a)).
Proof.
  intros Hn Hi. unfold removeLayer.
  now rewrite (@validate_in_range n i _ a Hn Hi).
Qed.

(** X4.  [removeLayer] at an index in range takes exactly that layer out
    of the list: the list is one shorter, the layers below the index
    stay where they are and those above move down by one.  The active
    index is decremented whichever layer was removed, and the removelayer
    callback is invoked once, with the index. *)
Theorem removeLayer_shifts_layers (n : value) (i : Z) (a : t) :
  parseInt n = Some i ->
  (0 <= i < Z.of_nat (List.length (layers a)))%Z ->
  List.length (layers (removeLayer n a)) = pred (List.length (layers a))
  /\ (forall j, (j < i)%Z ->
        layerAt j (layers (removeLayer n a)) = layerAt j (layers a))
  /\ (forall j, (i <= j)%Z ->
        layerAt j (layers (removeLayer n a)) = layerAt (j + 1) (layers a))
  /\ activeLayer (removeLayer n a) = (activeLayer a - 1)%Z
  /\ called (removeLayer n a) = called a ++ [removelayer i].
Proof.
  intros Hn Hi. rewrite (@removeLayer_in_range n i a Hn Hi).
  cbn [layers activeLayer called invoke set_activeLayer set_layers].
  split; [now apply splice1_length|].
  split; [intros j Hj; now apply layerAt_splice1_below|].
  split; [intros j Hj; now apply layerAt_splice1_above|].
  split; reflexivity.
Qed.

(** the second of three layers removed: two are left, the former third
    is now the second *)
Lemma removeLayer_shifts_layers_witness :
  List.length
    (layers (removeLayer (VStr "1")
               (addLayer (VStr "30") (VStr "30")
                  (addLayer (VStr "20") (VStr "20")
                     (new page None (VStr "10") (VStr "10"))))))
  = 2%nat.
Proof.
  destruct (@removeLayer_shifts_layers (VStr "1") 1
              (addLayer (VStr "30") (VStr "30")
                 (addLayer (VStr "20") (VStr "20")
                    (new page None (VStr "10") (VStr "10")))))
    as (H & _).
  - reflexivity.
  - simpl. lia.
  - exact H.
Defined.

(** an operation on the active layer when [layers[activeLayer]] is
    [undefined] *)
Lemma no_active_layer (a : t) :
  activeCanvas a = TypeError ->
  (forall x y, translate x y a = TypeError)
  /\ (forall x y, scale x y a = TypeError)
  /\ (forall d, rotate d a = TypeError)
  /\ getFillStyle a = TypeError
  /\ getStrokeStyle a = TypeError
  /\ getLineWidth a = TypeError
  /\ (forall s, setFillStyle s a = TypeError)
  /\ (forall s, setStrokeStyle s a = TypeError)
  /\ (forall w, setLineWidth w a = TypeError)
  /\ (forall e, onStart e a = TypeError)
  /\ (forall m, String.eqb (toLowerCase m) Mode.TEXT = false ->
                setMode m a = TypeError).
Proof.
  intros H.
  unfold translate, scale, rotate, getFillStyle, getStrokeStyle,
    getLineWidth, setFillStyle, setStrokeStyle, setLineWidth, onStart.
  rewrite H. cbn [bind]. repeat (split; [reflexivity|]).
  intros m Hm. unfold setMode. rewrite Hm.
  destruct ((toLowerCase m =? Mode.HAND)%string
            || (toLowerCase m =? Mode.FIGURE)%string
            || (toLowerCase m =? Mode.TRANSFORM)%string).
  - change (activeCanvas (set_mode (toLowerCase m) a)) with (activeCanvas a).
    now rewrite H.
  - now rewrite H.
Qed.

(** X5.  After [removeLayer] at an index in range, with [k] the active
    index before: removing a layer below the active one keeps the same
    layer active; removing the active layer or any layer above it makes
    the layer at [k - 1] active instead; and when layer 0 was active no
    layer is active any more, so that translate, scale, rotate, the
    style getters and setters, a pointer-down and [setMode] to a mode
    other than text all throw. *)
Theorem removeLayer_active_layer (n : value) (i : Z) (a : t) :
  parseInt n = Some i ->
  (0 <= i < Z.of_nat (List.length (layers a)))%Z ->
  ((i < activeLayer a)%Z ->
   layerAt (activeLayer (removeLayer n a)) (layers (removeLayer n a))
   = layerAt (activeLayer a) (layers a))
  /\ ((activeLayer a <= i)%Z ->
      layerAt (activeLayer (removeLayer n a)) (layers (removeLayer n a))
      = layerAt (activeLayer a - 1) (layers a))
  /\ (activeLayer a = 0%Z ->
      activeCanvas (removeLayer n a) = TypeError
      /\ (forall x y, translate x y (removeLayer n a) = TypeError)
      /\ (forall x y, scale x y (removeLayer n a) = TypeError)
      /\ (forall d, rotate d (removeLayer n a) = TypeError)
      /\ getFillStyle (removeLayer n a) = TypeError
      /\ getStrokeStyle (removeLayer n a) = TypeError
      /\ getLineWidth (removeLayer n a) = TypeError
      /\ (forall s, setFillStyle s (removeLayer n a) = TypeError)
      /\ (forall s, setStrokeStyle s (removeLayer n a) = TypeError)
      /\ (forall w, setLineWidth w (removeLayer n a) = TypeError)
      /\ (forall e, onStart e (removeLayer n a) = TypeError)
      /\ (forall m, String.eqb (toLowerCase m) Mode.TEXT = false ->
                    setMode m (removeLayer n a) = TypeError)).
Proof.
  intros Hn Hi. rewrite (@removeLayer_in_range n i a Hn Hi).
  cbn [layers activeLayer invoke set_activeLayer set_layers].
  split; [|split].
  - intros Hk. rewrite layerAt_splice1_above by lia. f_equal. lia.
  - intros Hk. now rewrite layerAt_splice1_below by lia.
  - intros Hk.
    assert (E : activeCanvas
                  (invoke (removelayer i)
                     (set_activeLayer (activeLayer a - 1)
                        (set_layers (splice1 i (layers a)) a)))
                = TypeError).
    { unfold activeCanvas. cbn [layers activeLayer invoke set_activeLayer
        set_layers]. now rewrite Hk. }
    split; [exact E|]. now apply no_active_layer.
Qed.

(** the only layer of a fresh ArtCanvas removed: [translate] throws *)
Lemma removeLayer_active_layer_witness :
  translate (VNum (Fin 1)) (VNum (Fin 1))
    (removeLayer (VStr "0") (new page None (VStr "10") (VStr "10")))
  = TypeError.
Proof.
  destruct (@removeLayer_active_layer (VStr "0") 0
              (new page None (VStr "10") (VStr "10")))
    as (_ & _ & H).
  - reflexivity.
  - simpl. lia.
  - destruct H as (_ & H & _); [reflexivity|]. apply H.
Defined.

(** X6.  [selectLayer] with an argument that [parseInt] reads as an
    index in range makes that layer the active one, keeps the layer list,
    and invokes the selectlayer callback with the index; with an
    argument that [parseInt] reads as no number or as an index out of
    range it changes nothing.  The argument is a string, or a number that
    is printed without an exponent (0, or of an absolute value from
    10^-6 up to below 10^21), or no number at all.  Whatever the
    argument, an active index in range stays in range. *)
Theorem selectLayer_selects (n : value) (a : t) :
  (plainArgument n ->
   forall i, parseInt n = Some i ->
     (0 <= i < Z.of_nat (List.length (layers a)))%Z ->
     exists cv,
       nth_error (layers a) (Z.to_nat i) = Some cv
       /\ activeCanvas (selectLayer n a) = Ok cv
       /\ activeLayer (selectLayer n a) = i
       /\ layers (selectLayer n a) = layers a
       /\ called (selectLayer n a) = called a ++ [selectlayer i])
  /\ (plainArgument n ->
      (forall i, parseInt n = Some i ->
         (i < 0 \/ Z.of_nat (List.length (layers a)) <= i)%Z) ->
      selectLayer n a = a)
  /\ ((0 <= activeLayer a < Z.of_nat (List.length (layers a)))%Z ->
      (0 <= activeLayer (selectLayer n a)
       < Z.of_nat (List.length (layers (selectLayer n a))))%Z).
Proof.
  split; [|split].
  - intros _ i Hn Hi. unfold selectLayer.
    rewrite (@validate_in_range n i _ a Hn Hi).
    cbn [snd layers activeLayer called invoke set_activeLayer].
    destruct (nth_error (layers a) (Z.to_nat i)) as [cv|] eqn:E.
    + exists cv. split; [reflexivity|].
      split; [|repeat split].
      unfold activeCanvas, layerAt.
      cbn [layers activeLayer invoke set_activeLayer].
      destruct (Z.ltb_spec i 0); [lia|]. now rewrite E.
    + apply nth_error_None in E. lia.
  - intros _ H. unfold selectLayer.
    now rewrite (@validate_out_of_range n _ a H).
  - intros Hk. unfold selectLayer, validateLayerNumer.
    destruct (parseInt n) as [i|]; [|exact Hk].
    destruct (Z.leb_spec 0 i); [|exact Hk].
    destruct (Z.ltb_spec i (Z.of_nat (List.length (layers a)))); [|exact Hk].
    cbn. lia.
Qed.

(** the first of two layers selected *)
Lemma selectLayer_selects_witness :
  activeLayer
    (selectLayer (VStr "0")
       (addLayer (VStr "20") (VStr "20")
          (new page None (VStr "10") (VStr "10"))))
  = 0%Z.
Proof.
  destruct (@selectLayer_selects (VStr "0")
              (addLayer (VStr "20") (VStr "20")
                 (new page None (VStr "10") (VStr "10"))))
    as (H & _).
  destruct (H I 0%Z) as (cv & _ & _ & Hk & _).
  - reflexivity.
  - simpl. lia.
  - exact Hk.
Defined.

End LayerOperations.

(* ------------------------------------------------------------------ *)
(** ** Text mode *)

Section TextMode.

Import ArtCanvas.

Lemma replaceNth_same (n : nat) (cv : Canvas.t) (l : list Canvas.t) :
  nth_error l n = Some cv -> replaceNth n cv l = l.
Proof.
  revert n. induction l as [|c l IH]; intros [|n] H; simpl in *;
    try congruence.
  f_equal. now apply IH.
Qed.


Lemma storeActive_same (a : t) (cv : Canvas.t) :
  activeCanvas a = Ok cv -> storeActive cv a = a.
Proof.
  unfold activeCanvas, storeActive, layerAt.
  destruct (activeLayer a <? 0)%Z; [discriminate|].
  destruct (nth_error (layers a) (Z.to_nat (activeLayer a))) as [c|] eqn:E;
    [|discriminate].
  intros H. injection H as ->. rewrite (@replaceNth_same _ _ _ E).
  now destruct a.
Qed.




(** [setMode] to a mode other than text, in terms of what [drawText]
    returns on the active layer *)
Lemma setMode_other (m : string) (a : t) (cv cv1 : Canvas.t)
      (text : string) (ct : Container.t) :
  String.eqb (toLowerCase m) Mode.TEXT = false ->
  activeCanvas a = Ok cv ->
  Canvas.drawText (textStyle a) (container a) cv = Ok (text, ct, cv1) ->
  exists a',
    setMode m a = Ok a'
    /\ activeCanvas a' = Ok cv1
    /\ container a' = ct
    /\ layers a' = layers (storeActive cv1 a)
    /\ activeLayer a' = activeLayer a
    /\ textStyle a' = textStyle a
    /\ called a' = called a ++ [changemode (toLowerCase m)].
Proof.
  intros Hm Hcv Hd. unfold setMode. rewrite Hm.
  set (a1 := if (toLowerCase m =? Mode.HAND)%string
                || (toLowerCase m =? Mode.FIGURE)%string
                || (toLowerCase m =? Mode.TRANSFORM)%string
             then set_mode (toLowerCase m) a else a).
  assert (E : layers a1 = layers a /\ activeLayer a1 = activeLayer a
              /\ container a1 = container a /\ textStyle a1 = textStyle a
              /\ called a1 = called a).
  { unfold a1.
    destruct ((toLowerCase m =? Mode.HAND)%string
              || (toLowerCase m =? Mode.FIGURE)%string
              || (toLowerCase m =? Mode.TRANSFORM)%string); repeat split. }
  destruct E as (El & Ek & Ec & Es & Ecd).
  assert (Hcv1 : activeCanvas a1 = Ok cv).
  { unfold activeCanvas in *. now rewrite El, Ek. }
  rewrite Hcv1. cbn [bind]. rewrite Es, Ec, Hd. cbn [bind].
  eexists. split; [reflexivity|].
  destruct (storeActive_frame cv1 (set_container ct a1))
    as (H1 & _ & _ & _ & H5 & H6 & H7 & _).
  cbn [container activeLayer textStyle called layers invoke].
  rewrite H1, H5, H6, H7. cbn [container activeLayer textStyle called
    set_container]. rewrite Ek, Es, Ecd.
  split.
  { change (activeCanvas (invoke ?c ?s)) with (activeCanvas s).
    apply activeCanvas_storeActive with (cv := cv).
    unfold activeCanvas in *. cbn [layers activeLayer set_container].
    now rewrite El, Ek. }
  split; [reflexivity|]. split.
  { unfold storeActive. cbn [activeLayer layers set_container].
    rewrite Ek. destruct (activeLayer a <? 0)%Z; cbn [layers set_layers
      set_container]; now rewrite ?El. }
  repeat split.
Qed.

(** X7.  In text mode, while no gesture is in progress (the pressed
    state is not set), a gesture whose pointer-down position (x, y) can
    be read only opens the text box: the listener of the pointer-down
    puts an empty text box at (x, y) unless the container already has
    one (then nothing changes at all), the listeners of the
    pointer-moves and of the pointer-up return at once, whatever their
    events are; no path is stored, none of the draw callbacks is invoked
    and the pressed state stays unset. *)
Theorem text_gesture_opens_textbox
        (a : t) (cv : Canvas.t) (down up : Event.t) (moves : list Event.t)
        (x y : num) :
  mode a = Mode.TEXT ->
  isDown a = false ->
  activeCanvas a = Ok cv ->
  positionOn (container a) cv down = Ok (x, y) ->
  exists a',
    onStart down a = Ok a'
    /\ onMoves moves a' = Ok a'
    /\ onEnd up a' = Ok a'
    /\ gesture down moves up a = Ok a'
    /\ layers a' = layers a
    /\ called a' = called a
    /\ isDown a' = false
    /\ mode a' = Mode.TEXT
    /\ Container.textbox (container a')
       = match Container.textbox (container a) with
         | Some tb => Some tb
         | None =>
             Some (Container.mkTextbox ""
                     (Point.x (pointAt (x, y))) (Point.y (pointAt (x, y))))
         end.
Proof.
  intros Hm Hdown Hcv Hpos.
  destruct (@positionOn_inv _ _ _ _ _ Hpos) as [Ex Ey].
  set (a' := set_container
               (Canvas.createTextbox (Some (Point.new (VNum x) (VNum y)))
                  (container a) cv) a).
  assert (S1 : onStart down a = Ok a').
  { unfold onStart. rewrite Hcv. cbn [bind]. rewrite Ex, Ey. cbn [bind].
    unfold startAt. rewrite Hm. reflexivity. }
  assert (Hd' : isDown a' = false) by exact Hdown.
  assert (S2 : onMoves moves a' = Ok a') by now apply onMoves_idle.
  assert (S3 : onEnd up a' = Ok a').
  { unfold onEnd. now rewrite Hd'. }
  exists a'. split; [exact S1|]. split; [exact S2|]. split; [exact S3|].
  split; [unfold gesture; rewrite S1; cbn [bind]; rewrite S2; exact S3|].
  split; [reflexivity|]. split; [reflexivity|]. split; [exact Hdown|].
  split; [exact Hm|].
  unfold a'. cbn [container set_container]. unfold Canvas.createTextbox.
  destruct (Container.textbox (container a)) as [tb|] eqn:E.
  - exact E.
  - reflexivity.
Qed.

(** a click at (40, 50) on a fresh ArtCanvas switched to text mode,
    released on the left edge of the page *)
Lemma text_gesture_opens_textbox_witness :
  exists a',
    gesture (Event.mouse "mousedown" 40 50) [Event.mouse "mousemove" 60 70]
      (Event.mouse "mouseup" 0 70)
      (mk page Mode.TEXT Figure.RECTANGLE Transform.TRANSLATE
          [Canvas.new page None (VStr "300") (VStr "300") 2] 0 None []
          None false)
    = Ok a'
    /\ called a' = []
    /\ Container.textbox (container a')
       = Some (Container.mkTextbox "" (Fin 40) (Fin 50)).
Proof.
  assert (P : positionOn page
                (Canvas.new page None (VStr "300") (VStr "300") 2)
                (Event.mouse "mousedown" 40 50)
              = Ok (Fin 40, Fin 50)).
  { apply positionOn_mouse; try reflexivity; simpl; lra. }
  destruct (@text_gesture_opens_textbox
              (mk page Mode.TEXT Figure.RECTANGLE Transform.TRANSLATE
                  [Canvas.new page None (VStr "300") (VStr "300") 2] 0 None
                  [] None false)
              (Canvas.new page None (VStr "300") (VStr "300") 2)
              (Event.mouse "mousedown" 40 50) (Event.mouse "mouseup" 0 70)
              [Event.mouse "mousemove" 60 70] (Fin 40) (Fin 50)
              eq_refl eq_refl eq_refl P)
    as (a' & _ & _ & _ & E & _ & Hc & _ & _ & Hb).
  exists a'. split; [exact E|]. split; [exact Hc|exact Hb].
Defined.

End TextMode.

Section TextCommit.

Import ArtCanvas.

Local Open Scope R_scope.

(** X8.  The text workflow, with a text style (and its font) set: a
    pointer-down in text mode at the integer position (x, y), of a
    magnitude that is written without an exponent, opens the
    text box there, the user types [s], and the next [setMode] to a mode
    other than text commits it.  The active layer gets exactly one more
    object, the text [s] in that style at (x, y + font size), where the
    font size is the number the size string starts with; with a size
    string that starts with no number the stored y is 0.  The text box
    is removed, the text is painted once, and the fill colour of the
    context is as before. *)
Theorem text_is_committed_below_the_pointer
        (a : t) (cv : Canvas.t) (style : TextStyle.t) (f : Font.t)
        (x y : Z) (s m ty : string) :
  (Z.abs x < 10 ^ 21)%Z ->
  (Z.abs y < 10 ^ 21)%Z ->
  mode a = Mode.TEXT ->
  activeCanvas a = Ok cv ->
  Container.textbox (container a) = None ->
  textStyle a = Some style ->
  TextStyle.font style = Some f ->
  String.eqb (toLowerCase m) Mode.TEXT = false ->
  exists a1 a2 cv2,
    pointerDown (ofZ x) (ofZ y) ty a = Ok a1
    /\ setMode m (typeText s a1) = Ok a2
    /\ activeCanvas a2 = Ok cv2
    /\ Canvas.paths cv2
       = push (Canvas.paths cv)
           (PText (Text.mk s
                     (Point.mk (ofZ x)
                        match parseInt (VStr (Font.size f)) with
                        | Some fs => Fin (IZR y + IZR fs)
                        | None => zero
                        end)
                     (Some style)))
    /\ Container.textbox (container a2) = None
    /\ Context.fillStyle (Canvas.context cv2)
       = Context.fillStyle (Canvas.context cv)
    /\ Context.drawn (Canvas.context cv2)
       = Context.drawn (Canvas.context cv)
           ++ [(Context.ctm (Canvas.context cv),
                Context.fillText_ s (ofZ x)
                  (add (ofZ y) (ofInt (parseInt (VStr (Font.size f))))))]
    /\ called a2 = called a ++ [changemode (toLowerCase m)].
Proof.
  intros _ _ Hm Hcv Hbox Hst Hf Hother.
  set (a1 := set_container
               (Container.set_textbox
                  (Some (Container.mkTextbox "" (ofZ x) (ofZ y)))
                  (container a)) a).
  assert (E1 : pointerDown (ofZ x) (ofZ y) ty a = Ok a1).
  { unfold pointerDown. rewrite Hcv. cbn [bind]. unfold startAt.
    rewrite Hm. cbn [String.eqb Mode.TEXT Ascii.eqb Bool.eqb].
    unfold Canvas.createTextbox. now rewrite Hbox. }
  set (a1' := typeText s a1).
  assert (Hcv1 : activeCanvas a1' = Ok cv) by exact Hcv.
  set (py := match parseInt (VStr (Font.size f)) with
             | Some fs => Fin (IZR y + IZR fs)
             | None => zero
             end).
  set (fy := add (ofZ y) (ofInt (parseInt (VStr (Font.size f))))).
  set (cv2 := Canvas.set_paths
                (push (Canvas.paths cv)
                   (PText (Text.mk s (Point.mk (ofZ x) py) (Some style))))
                (Canvas.set_context
                   (Context.set_fillStyle
                      (Context.fillStyle (Canvas.context cv))
                      (Context.fillText s (ofZ x) fy
                         (Context.set_fillStyle (TextStyle.getColor style)
                            (Context.set_font (Font.getFontString f)
                               (Canvas.context cv)))))
                   cv)).
  assert (Hd : Canvas.drawText (textStyle a1') (container a1') cv
               = Ok (s, Container.set_textbox None (container a1'), cv2)).
  { unfold Canvas.drawText. cbn [textStyle a1' a1 typeText container
      set_container Container.textbox Container.set_textbox].
    rewrite Hst. unfold TextStyle.getFont. rewrite Hf.
    cbn [Container.value Container.left Container.top Container.textbox
         Container.set_textbox].
    unfold Font.getSize. rewrite !parseInt_ofZ. cbn [ofInt].
    fold fy. unfold cv2.
    replace (Point.new (VNum (ofZ x)) (VNum fy)) with (Point.mk (ofZ x) py);
      [reflexivity|].
    unfold fy, py, Point.new.
    destruct (parseInt (VStr (Font.size f))) as [fs|]; reflexivity. }
  destruct (@setMode_other m a1' cv cv2 s
              (Container.set_textbox None (container a1')) Hother Hcv1 Hd)
    as (a2 & E2 & Hcv2 & Hct & _ & _ & _ & Hcd).
  exists a1, a2, cv2.
  split; [exact E1|]. split; [exact E2|]. split; [exact Hcv2|].
  split; [reflexivity|]. split; [now rewrite Hct|].
  split; [reflexivity|]. split; [reflexivity|]. exact Hcd.
Qed.

(** the word "hi" typed at (40, 50) in 16px Arial, committed by leaving
    text mode *)
Lemma text_is_committed_below_the_pointer_witness :
  exists a1 a2,
    pointerDown (ofZ 40) (ofZ 50) "mousedown"
      (mk page Mode.TEXT Figure.RECTANGLE Transform.TRANSLATE
          [Canvas.new page None (VStr "300") (VStr "300") 2] 0
          (Some (TextStyle.new (Some (Font.new "Arial" "normal" "16px"))
                   "red"))
          [] None false)
    = Ok a1
    /\ setMode "hand" (typeText "hi" a1) = Ok a2
    /\ Container.textbox (container a2) = None.
Proof.
  destruct (@text_is_committed_below_the_pointer
              (mk page Mode.TEXT Figure.RECTANGLE Transform.TRANSLATE
                  [Canvas.new page None (VStr "300") (VStr "300") 2] 0
                  (Some (TextStyle.new
                           (Some (Font.new "Arial" "normal" "16px")) "red"))
                  [] None false)
              (Canvas.new page None (VStr "300") (VStr "300") 2)
              (TextStyle.new (Some (Font.new "Arial" "normal" "16px")) "red")
              (Font.new "Arial" "normal" "16px") 40 50 "hi" "hand"
              "mousedown")
    as (a1 & a2 & cv2 & E1 & E2 & _ & _ & Hb & _).
  - reflexivity.
  - reflexivity.
  - reflexivity.
  - reflexivity.
  - reflexivity.
  - reflexivity.
  - reflexivity.
  - reflexivity.
  - exists a1, a2. auto.
Defined.

(** X9.  A fresh ArtCanvas has no text style, and while none is set
    ([setTextStyle] was not called with a TextStyle) [setMode] to a mode
    other than text commits nothing: every layer and the container,
    with a text box it may hold, are as before. *)
Theorem text_needs_a_style (m : string) (a : t) (cv : Canvas.t) :
  textStyle a = None ->
  activeCanvas a = Ok cv ->
  String.eqb (toLowerCase m) Mode.TEXT = false ->
  (forall ct canvas w h, textStyle (new ct canvas w h) = None)
  /\ exists a',
      setMode m a = Ok a'
      /\ layers a' = layers a
      /\ container a' = container a
      /\ textStyle a' = None.
Proof.
  intros Hst Hcv Hother. split; [reflexivity|].
  assert (Hd : Canvas.drawText (textStyle a) (container a) cv
               = Ok (EmptyString, container a, cv)) by now rewrite Hst.
  destruct (@setMode_other m a cv cv EmptyString (container a) Hother Hcv Hd)
    as (a' & E & _ & Hct & Hl & _ & Hs & _).
  exists a'. split; [exact E|].
  split; [now rewrite Hl, (@storeActive_same a cv Hcv)|].
  split; [exact Hct|]. now rewrite Hs.
Qed.

(** a text box is open on a fresh ArtCanvas put in text mode; leaving
    text mode keeps it *)
Lemma text_needs_a_style_witness :
  exists a',
    setMode "hand"
      (mk (Container.set_textbox
             (Some (Container.mkTextbox "hi" (Fin 40) (Fin 50))) page)
          Mode.TEXT Figure.RECTANGLE Transform.TRANSLATE
          [Canvas.new page None (VStr "300") (VStr "300") 2] 0 None []
          None false)
    = Ok a'
    /\ container a'
       = Container.set_textbox
           (Some (Container.mkTextbox "hi" (Fin 40) (Fin 50))) page.
Proof.
  destruct (@text_needs_a_style "hand"
              (mk (Container.set_textbox
                     (Some (Container.mkTextbox "hi" (Fin 40) (Fin 50))) page)
                  Mode.TEXT Figure.RECTANGLE Transform.TRANSLATE
                  [Canvas.new page None (VStr "300") (VStr "300") 2] 0 None
                  [] None false)
              (Canvas.new page None (VStr "300") (VStr "300") 2))
    as (_ & a' & E & _ & Hc & _).
  - reflexivity.
  - reflexivity.
  - reflexivity.
  - exists a'. auto.
Defined.



End TextCommit.

(* ------------------------------------------------------------------ *)
(** ** Freehand strokes *)

Section Freehand.

Import ArtCanvas.

Lemma startAt_hand (a : t) (cv : Canvas.t) (x y : num) (ty : string) :
  mode a = Mode.HAND ->
  activeCanvas a = Ok cv ->
  exists a1 cv1,
    startAt cv x y ty a = Ok a1
    /\ mode a1 = Mode.HAND /\ isDown a1 = true
    /\ activeCanvas a1 = Ok cv1
    /\ Canvas.paths cv1
       = push (Canvas.paths cv) (Points [Some (pointAt (x, y))])
    /\ called a1 = called a ++ [drawstart x y]
    /\ Context.ctm (Canvas.context cv1) = Context.ctm (Canvas.context cv)
    /\ Context.drawn (Canvas.context cv1)
       = Context.drawn (Canvas.context cv)
           ++ map (pair (Context.ctm (Canvas.context cv)))
                [Context.beginPath_; Context.moveTo_ x y]
    /\ container a1 = container a
    /\ Canvas.canvas cv1 = Canvas.canvas cv.
Proof.
  intros Hm Hcv. unfold startAt. rewrite Hm.
  cbn [String.eqb Mode.TEXT Mode.HAND Ascii.eqb Bool.eqb bind].
  set (cv1 := Canvas.set_paths
                (push (Canvas.paths cv) (Points [Some (pointAt (x, y))]))
                (Canvas.set_context
                   (Context.moveTo x y
                      (Context.beginPath (Canvas.context cv))) cv)).
  exists (invoke (drawstart x y) (set_isDown true (storeActive cv1 a))), cv1.
  split; [reflexivity|].
  destruct (storeActive_frame cv1 a) as (H1 & H2 & _ & _ & _ & _ & H7 & _).
  cbn [mode isDown called container invoke set_isDown]. rewrite H1, H2, H7.
  split; [exact Hm|]. split; [reflexivity|]. split.
  { change (activeCanvas (invoke ?c (set_isDown ?b ?s))) with (activeCanvas s).
    now apply activeCanvas_storeActive with (cv := cv). }
  split; [reflexivity|]. split; [reflexivity|]. split; [reflexivity|].
  split; [cbn; now rewrite <- app_assoc|]. split; reflexivity.
Qed.

Lemma moveAt_hand (a : t) (cv : Canvas.t) (orig : list path)
      (pts : list (option Point.t)) (p : Point.t) (x y : num) (ty : string) :
  mode a = Mode.HAND ->
  activeCanvas a = Ok cv ->
  Canvas.paths cv = push orig (Points (push pts (Some p))) ->
  exists a1 cv1,
    moveAt cv x y ty a = Ok a1
    /\ mode a1 = Mode.HAND /\ isDown a1 = isDown a
    /\ activeCanvas a1 = Ok cv1
    /\ Canvas.paths cv1
       = push orig
           (Points (push (push pts (Some p)) (Some (pointAt (x, y)))))
    /\ called a1 = called a ++ [drawmove x y]
    /\ Context.ctm (Canvas.context cv1) = Context.ctm (Canvas.context cv)
    /\ Context.drawn (Canvas.context cv1)
       = Context.drawn (Canvas.context cv)
           ++ map (pair (Context.ctm (Canvas.context cv)))
                (liveSegments p [(x, y)])
    /\ container a1 = container a
    /\ Canvas.canvas cv1 = Canvas.canvas cv.
Proof.
  intros Hm Hcv Hp. unfold moveAt. rewrite Hm.
  cbn [String.eqb Mode.HAND Ascii.eqb Bool.eqb].
  rewrite Hp, !pop_push. cbn [snd fst popped bind].
  set (cv1 := Canvas.set_paths
                (push orig
                   (Points (push (push pts (Some p))
                              (Some (Point.new (VNum x) (VNum y))))))
                (Canvas.set_context
                   (Context.stroke
                      (Context.lineTo x y
                         (Context.moveTo (Point.getX p) (Point.getY p)
                            (Context.beginPath (Canvas.context cv))))) cv)).
  exists (invoke (drawmove x y) (storeActive cv1 a)), cv1.
  split; [reflexivity|].
  destruct (storeActive_frame cv1 a)
    as (H1 & H2 & _ & _ & _ & _ & H7 & _ & H9).
  cbn [mode isDown called container invoke]. rewrite H1, H2, H7, H9.
  split; [exact Hm|]. split; [reflexivity|]. split.
  { change (activeCanvas (invoke ?c ?s)) with (activeCanvas s).
    now apply activeCanvas_storeActive with (cv := cv). }
  split; [reflexivity|]. split; [reflexivity|]. split; [reflexivity|].
  split; [cbn; now rewrite <- !app_assoc|]. split; reflexivity.
Qed.

(** the listener of the pointer-move, run on events whose positions on
    the canvas of the layer [cv0] in the container [ct] are [qs] *)
Lemma onMoves_hand (ct : Container.t) (cv0 : Canvas.t)
      (moves : list Event.t) (qs : list (num * num)) :
  Forall2 (fun e q => positionOn ct cv0 e = Ok q) moves qs ->
  forall (a : t) (cv : Canvas.t) (orig : list path)
         (pts : list (option Point.t)) (p : Point.t),
    mode a = Mode.HAND -> isDown a = true ->
    activeCanvas a = Ok cv ->
    container a = ct ->
    Canvas.canvas cv = Canvas.canvas cv0 ->
    Canvas.paths cv = push orig (Points (push pts (Some p))) ->
    exists a1 cv1,
      onMoves moves a = Ok a1
      /\ mode a1 = Mode.HAND /\ isDown a1 = true
      /\ activeCanvas a1 = Ok cv1
      /\ Canvas.paths cv1
         = push orig
             (Points (push pts (Some p)
                      ++ map (fun q => Some (pointAt q)) qs))
      /\ called a1
         = called a ++ map (fun q => drawmove (fst q) (snd q)) qs
      /\ Context.ctm (Canvas.context cv1) = Context.ctm (Canvas.context cv)
      /\ Context.drawn (Canvas.context cv1)
         = Context.drawn (Canvas.context cv)
             ++ map (pair (Context.ctm (Canvas.context cv)))
                  (liveSegments p qs)
      /\ container a1 = ct
      /\ Canvas.canvas cv1 = Canvas.canvas cv0.
Proof.
  induction 1 as [|e q moves qs Hq Hrest IH];
    intros a cv orig pts p Hm Hdown Hcv Hct Hel Hp.
  - exists a, cv. simpl. rewrite !app_nil_r. auto 12.
  - simpl onMoves. unfold onMove. rewrite Hdown, Hcv. cbn [negb bind].
    rewrite <- (@positionOn_ext ct cv0 cv e Hel) in Hq. rewrite <- Hct in Hq.
    destruct q as [x y].
    destruct (@positionOn_inv _ _ _ _ _ Hq) as [Ex Ey].
    rewrite Ex, Ey. cbn [bind].
    destruct (@moveAt_hand a cv orig pts p x y (Event.type e) Hm Hcv Hp)
      as (a1 & cv1 & E1 & Hm1 & Hd1 & Hcv1 & Hp1 & Hc1 & Hctm1 & Hdr1
          & Hct1 & Hel1).
    rewrite E1. cbn [bind].
    rewrite Hdown in Hd1. rewrite Hct in Hct1. rewrite Hel in Hel1.
    destruct (IH a1 cv1 orig (push pts (Some p)) (pointAt (x, y))
                Hm1 Hd1 Hcv1 Hct1 Hel1 Hp1)
      as (a2 & cv2 & E2 & Hm2 & Hd2 & Hcv2 & Hp2 & Hc2 & Hctm2 & Hdr2
          & Hct2 & Hel2).
    exists a2, cv2. split; [exact E2|]. split; [exact Hm2|].
    split; [exact Hd2|]. split; [exact Hcv2|].
    split.
    { rewrite Hp2. unfold push. simpl. now rewrite <- !app_assoc. }
    split.
    { rewrite Hc2, Hc1. simpl. now rewrite <- app_assoc. }
    split; [now rewrite Hctm2|].
    split; [|split; assumption].
    rewrite Hdr2, Hdr1, Hctm1. simpl. rewrite <- !app_assoc. reflexivity.
Qed.

(** X11.  A gesture in hand mode delivered to the listeners as events
    whose positions can all be read (the pointer-down at p0, the
    pointer-moves at ps, the pointer-up at p1, as [getOffsetX] and
    [getOffsetY] return them on the active layer) stores one stroke:
    every listener returns, and the active layer gets exactly one more
    entry, the array of the point p0 followed by the points ps in order
    (the pointer-up position is not stored).  The drawstart, drawmove
    and drawend callbacks are invoked once per event, in order, at these
    positions; the pointer-down starts a path and every pointer-move
    draws the segment from the last stored point to its position; the
    pointer-up draws nothing and releases the pressed state. *)
Theorem hand_gesture_stores_stroke
        (a : t) (cv : Canvas.t) (down up : Event.t) (moves : list Event.t)
        (p0 p1 : num * num) (ps : list (num * num)) :
  mode a = Mode.HAND ->
  activeCanvas a = Ok cv ->
  positionOn (container a) cv down = Ok p0 ->
  Forall2 (fun e q => positionOn (container a) cv e = Ok q) moves ps ->
  positionOn (container a) cv up = Ok p1 ->
  exists a3 cv3,
    gesture down moves up a = Ok a3
    /\ activeCanvas a3 = Ok cv3
    /\ Canvas.paths cv3
       = push (Canvas.paths cv)
           (Points (map (fun q => Some (pointAt q)) (p0 :: ps)))
    /\ isDown a3 = false
    /\ called a3
       = called a
           ++ drawstart (fst p0) (snd p0)
              :: map (fun q => drawmove (fst q) (snd q)) ps
           ++ [drawend (fst p1) (snd p1)]
    /\ Context.drawn (Canvas.context cv3)
       = Context.drawn (Canvas.context cv)
           ++ map (pair (Context.ctm (Canvas.context cv)))
                (Context.beginPath_ :: Context.moveTo_ (fst p0) (snd p0)
                 :: liveSegments (pointAt p0) ps).
Proof.
  intros Hm Hcv Hp0 Hps Hp1.
  destruct p0 as [x0 y0]. destruct p1 as [x1 y1].
  destruct (@positionOn_inv _ _ _ _ _ Hp0) as [Ex0 Ey0].
  destruct (@startAt_hand a cv x0 y0 (Event.type down) Hm Hcv)
    as (a1 & cv1 & E1 & Hm1 & Hd1 & Hcv1 & Hpa1 & Hc1 & Hctm1 & Hdr1
        & Hct1 & Hel1).
  destruct (@onMoves_hand (container a) cv moves ps Hps a1 cv1
              (Canvas.paths cv) [] (pointAt (x0, y0))
              Hm1 Hd1 Hcv1 Hct1 Hel1 Hpa1)
    as (a2 & cv2 & E2 & Hm2 & Hd2 & Hcv2 & Hpa2 & Hc2 & Hctm2 & Hdr2
        & Hct2 & Hel2).
  rewrite <- (@positionOn_ext (container a) cv cv2 up Hel2) in Hp1.
  rewrite <- Hct2 in Hp1.
  destruct (@positionOn_inv _ _ _ _ _ Hp1) as [Ex1 Ey1].
  exists (invoke (drawend x1 y1) (set_isDown false (storeActive cv2 a2))), cv2.
  split.
  { unfold gesture, onStart. rewrite Hcv. cbn [bind]. rewrite Ex0, Ey0.
    cbn [bind]. rewrite E1. cbn [bind]. rewrite E2. cbn [bind].
    unfold onEnd. rewrite Hd2, Hcv2. cbn [negb bind]. rewrite Ex1, Ey1.
    cbn [bind]. unfold endAt. rewrite Hm2.
    cbn [String.eqb Mode.HAND Ascii.eqb Bool.eqb bind]. reflexivity. }
  split.
  { change (activeCanvas (invoke ?c (set_isDown ?b ?s))) with (activeCanvas s).
    now apply activeCanvas_storeActive with (cv := cv2). }
  split; [exact Hpa2|]. split; [reflexivity|].
  destruct (storeActive_frame cv2 a2) as (_ & _ & _ & _ & _ & _ & H7 & _).
  cbn [called invoke set_isDown fst snd]. rewrite H7, Hc2, Hc1.
  split; [now rewrite <- !app_assoc|].
  rewrite Hdr2, Hdr1, Hctm1. cbn [map]. rewrite <- !app_assoc. reflexivity.
Qed.

(** a stroke drawn with the mouse from (10, 10) over (20, 15) and
    (30, 25), on a fresh ArtCanvas *)
Lemma hand_gesture_stores_stroke_witness :
  exists a3 cv3,
    gesture (Event.mouse "mousedown" 10 10)
      [Event.mouse "mousemove" 20 15; Event.mouse "mousemove" 30 25]
      (Event.mouse "mouseup" 30 25)
      (new page None (VStr "300") (VStr "300"))
    = Ok a3
    /\ activeCanvas a3 = Ok cv3
    /\ Canvas.paths cv3
       = [Points [Some (Point.mk (Fin 10) (Fin 10));
                  Some (Point.mk (Fin 20) (Fin 15));
                  Some (Point.mk (Fin 30) (Fin 25))]].
Proof.
  assert (P : forall ty x y,
             (0 < x <= 300)%R -> (0 < y <= 300)%R ->
             positionOn (container (new page None (VStr "300") (VStr "300")))
               (Canvas.new page None (VStr "300") (VStr "300") 2)
               (Event.mouse ty x y)
             = Ok (Fin x, Fin y)).
  { intros ty x y Hx Hy. apply positionOn_mouse; try reflexivity; simpl; lra. }
  destruct (@hand_gesture_stores_stroke
              (new page None (VStr "300") (VStr "300"))
              (Canvas.new page None (VStr "300") (VStr "300") 2)
              (Event.mouse "mousedown" 10 10) (Event.mouse "mouseup" 30 25)
              [Event.mouse "mousemove" 20 15; Event.mouse "mousemove" 30 25]
              (Fin 10, Fin 10) (Fin 30, Fin 25)
              [(Fin 20, Fin 15); (Fin 30, Fin 25)])
    as (a3 & cv3 & E & Hcv & Hp & _).
  - reflexivity.
  - reflexivity.
  - apply P; lra.
  - repeat constructor; apply P; lra.
  - apply P; lra.
  - exists a3, cv3. split; [exact E|]. split; [exact Hcv|]. exact Hp.
Defined.

End Freehand.

(* ------------------------------------------------------------------ *)
(** ** When replay throws *)

Section ReplayErrors.

Lemma drawPoints_isOk (ps : list (option Point.t)) :
  forall (j : nat) (c : Context.t),
    isOk (Canvas.drawPoints ps j c) = forallb isSome ps.
Proof.
  induction ps as [|p ps IH]; intros j c; simpl; [reflexivity|].
  destruct p as [p|]; simpl; [apply IH|reflexivity].
Qed.

Lemma drawPath_isOk (p : path) (c : Context.t) :
  isOk (Canvas.drawPath p c) = drawable p.
Proof.
  destruct p as [ps|r|ci|l|s]; simpl; try reflexivity.
  - apply drawPoints_isOk.
  - unfold Line.getStartPoint, Line.getEndPoint.
    destruct (Line.startPoint l), (Line.endPoint l); reflexivity.
  - unfold Text.getTextStyle, TextStyle.getFont.
    destruct (Text.textStyle s) as [ts|]; [|reflexivity].
    destruct (TextStyle.font ts); reflexivity.
Qed.

Lemma drawLoop_isOk (ps : list path) :
  forall c : Context.t, isOk (Canvas.drawLoop ps c) = forallb drawable ps.
Proof.
  induction ps as [|p ps IH]; intros c; simpl; [reflexivity|].
  rewrite <- (drawPath_isOk p c).
  destruct (Canvas.drawPath p c) as [c1|]; simpl; [apply IH|reflexivity].
Qed.

Lemma pointsBounds_isOk (ps : list (option Point.t)) :
  forall b : Canvas.bounds,
    isOk (Canvas.pointsBounds ps b) = forallb isSome ps.
Proof.
  induction ps as [|p ps IH]; intros b; simpl; [reflexivity|].
  destruct p as [p|]; simpl; [|reflexivity].
  destruct b as [[[minX minY] maxX] maxY]. apply IH.
Qed.

Lemma pathCenter_isOk (c : Context.t) (p : path) :
  isOk (Canvas.pathCenter c p) = drawable p.
Proof.
  destruct p as [ps|r|ci|l|s]; simpl; try reflexivity.
  - rewrite <- (pointsBounds_isOk ps (Fin MAX_VALUE, Fin MAX_VALUE, zero, zero)).
    destruct (Canvas.pointsBounds ps (Fin MAX_VALUE, Fin MAX_VALUE, zero, zero));
      reflexivity.
  - unfold Line.getStartPoint, Line.getEndPoint.
    destruct (Line.startPoint l), (Line.endPoint l); reflexivity.
  - unfold Text.getTextStyle, TextStyle.getFont.
    destruct (Text.textStyle s) as [ts|]; [|reflexivity].
    destruct (TextStyle.font ts); reflexivity.
Qed.

Lemma centerLoop_isOk (c : Context.t) (ps : list path) :
  forall xy, isOk (Canvas.centerLoop c ps xy) = forallb drawable ps.
Proof.
  induction ps as [|p ps IH]; intros xy; simpl; [reflexivity|].
  rewrite <- (pathCenter_isOk c p).
  destruct (Canvas.pathCenter c p) as [xy1|]; simpl; [apply IH|reflexivity].
Qed.

Lemma getCenterPoint_isOk (cv : Canvas.t) :
  isOk (Canvas.getCenterPoint cv) = forallb drawable (Canvas.paths cv).
Proof.
  unfold Canvas.getCenterPoint.
  rewrite <- (centerLoop_isOk (Canvas.context cv) (Canvas.paths cv)
                (zero, zero)).
  destruct (Canvas.centerLoop (Canvas.context cv) (Canvas.paths cv)
              (zero, zero)); reflexivity.
Qed.

Lemma transform_isOk (ty : string) (am : amountsArg) (argc : nat)
      (cv : Canvas.t) :
  isOk (Canvas.transform ty am argc cv) = forallb drawable (Canvas.paths cv).
Proof.
  destruct (forallb drawable (Canvas.paths cv)) eqn:Hd.
  - destruct (@transform_ok ty am argc cv Hd) as (cv' & E & _).
    now rewrite E.
  - unfold Canvas.transform, Canvas.beforeReplay.
    pose proof (getCenterPoint_isOk cv) as H. rewrite Hd in H.
    destruct (Canvas.getCenterPoint cv); [discriminate|reflexivity].
Qed.

(** X12.  The pivot computation, the replay and the transform operation
    (with any arguments) succeed exactly on a layer whose stored objects
    are all readable: arrays of points without a hole, lines with both
    end points, texts with a style that has a font.  On any other layer
    each of them throws, and so does every style setter, which replays. *)
Theorem replay_throws_iff_undrawable
        (cv : Canvas.t) (ty : string) (am : amountsArg) (argc : nat)
        (isTransform : bool) (style : string) :
  isOk (Canvas.getCenterPoint cv) = forallb drawable (Canvas.paths cv)
  /\ isOk (Canvas.draw isTransform cv) = forallb drawable (Canvas.paths cv)
  /\ isOk (Canvas.transform ty am argc cv)
     = forallb drawable (Canvas.paths cv)
  /\ isOk (Canvas.setFillStyle style cv) = forallb drawable (Canvas.paths cv)
  /\ isOk (Canvas.setStrokeStyle style cv)
     = forallb drawable (Canvas.paths cv).
Proof.
  assert (Hdraw : forall (b : bool) (c : Canvas.t),
             isOk (Canvas.draw b c) = forallb drawable (Canvas.paths c)).
  { intros b c. unfold Canvas.draw. destruct b.
    - pose proof (transform_isOk "undefined" (NotArray VUndefined) 0 c) as H.
      destruct (forallb drawable (Canvas.paths c)) eqn:Hd.
      + destruct (@transform_ok "undefined" (NotArray VUndefined) 0 c Hd)
          as (c1 & E & Hp & _).
        rewrite E. cbn [bind]. unfold Canvas.drawPaths.
        pose proof (drawLoop_isOk (Canvas.paths c1) (Canvas.context c1)) as H1.
        rewrite Hp, Hd in H1. rewrite Hp.
        destruct (Canvas.drawLoop (Canvas.paths c) (Canvas.context c1));
          [reflexivity|discriminate].
      + destruct (Canvas.transform "undefined" (NotArray VUndefined) 0 c);
          [discriminate|reflexivity].
    - cbn [bind]. unfold Canvas.drawPaths.
      rewrite <- (drawLoop_isOk (Canvas.paths c) (Canvas.context c)).
      destruct (Canvas.drawLoop (Canvas.paths c) (Canvas.context c));
        reflexivity. }
  split; [apply getCenterPoint_isOk|]. split; [apply Hdraw|].
  split; [apply transform_isOk|].
  split.
  - exact (Hdraw true
             (Canvas.set_context
                (Context.set_fillStyle style (Canvas.context cv)) cv)).
  - exact (Hdraw true
             (Canvas.set_context
                (Context.set_strokeStyle style (Canvas.context cv)) cv)).
Qed.

End ReplayErrors.

(* ------------------------------------------------------------------ *)
(** ** Style setters and the save stack *)

Section Styles.

Import ArtCanvas.

Local Open Scope R_scope.

(** [draw(true)] on a layer whose stored objects are drawable: the
    call of [transform] without arguments clears the surface and saves
    the state, no matrix is applied, and the objects are replayed under
    the matrix found *)
Lemma draw_true (cv : Canvas.t) :
  forallb drawable (Canvas.paths cv) = true ->
  exists cv',
    Canvas.draw true cv = Ok cv'
    /\ Canvas.paths cv' = Canvas.paths cv
    /\ Canvas.canvas cv' = Canvas.canvas cv
    /\ Canvas.transforms cv' = Canvas.transforms cv
    /\ Context.strokeStyle (Canvas.context cv')
       = Context.strokeStyle (Canvas.context cv)
    /\ Context.fillStyle (Canvas.context cv')
       = Context.fillStyle (Canvas.context cv)
    /\ Context.lineWidth (Canvas.context cv')
       = Context.lineWidth (Canvas.context cv)
    /\ Context.ctm (Canvas.context cv') = Context.ctm (Canvas.context cv)
    /\ Context.saved (Canvas.context cv')
       = Context.mkState (Context.ctm (Canvas.context cv))
           (Context.strokeStyle (Canvas.context cv))
           (Context.fillStyle (Canvas.context cv))
           (Context.lineWidth (Canvas.context cv))
           (Context.font (Canvas.context cv))
         :: Context.saved (Canvas.context cv)
    /\ Context.drawn (Canvas.context cv')
       = Context.drawn (Canvas.context cv)
           ++ (Context.ctm (Canvas.context cv),
               Context.clearRect_ zero zero
                 (ofZ (Canvas.width (Canvas.canvas cv)))
                 (ofZ (Canvas.height (Canvas.canvas cv))))
           :: redraw (Context.ctm (Canvas.context cv)) (Canvas.paths cv).
Proof.
  intros Hd.
  destruct (@getCenterPoint_ok cv Hd) as (p & Ep).
  unfold Canvas.draw, Canvas.transform, Canvas.beforeReplay.
  rewrite Ep. cbn [bind Nat.ltb Nat.leb].
  change (Canvas.applyAmounts "undefined" (Canvas.toArray (NotArray VUndefined))
            (Canvas.transforms cv)) with (Canvas.transforms cv).
  change (Canvas.applyMatrix "undefined" p (Canvas.transforms cv) ?c) with c.
  unfold Canvas.drawPaths.
  cbn [Canvas.paths Canvas.context Canvas.set_context Canvas.clear
       Canvas.set_transforms].
  match goal with
  | |- context [Canvas.drawLoop _ ?c] =>
      destruct (@drawLoop_ok (Canvas.paths cv) Hd c) as (c2 & E2 & S2 & _);
      destruct (@drawLoop_drawn (Canvas.paths cv) c c2 E2) as [_ D2]
  end.
  rewrite E2. cbn [bind]. eexists. split; [reflexivity|].
  cbn [Canvas.paths Canvas.canvas Canvas.transforms Canvas.context
       Canvas.set_context].
  unfold surfaceState in S2. injection S2 as S_ss S_fs S_lw S_ctm S_sv S_ms.
  rewrite S_ss, S_fs, S_lw, S_ctm, S_sv, D2.
  destruct cv as [el ctx ts ps trs]. destruct ctx. cbn.
  repeat (split; [reflexivity|]). now rewrite <- app_assoc.
Qed.

(** X13.  The style setters of the active layer, on a layer whose
    stored objects are drawable: once the style is assigned, the surface
    is cleared and every stored object is replayed under the matrix that
    the context has at that moment; the translate, scale and rotate
    amounts of the TransformState are not applied again.  Each call
    leaves one more saved state on the stack of the context, which is
    never restored.  A positive finite line width is read back by
    [getLineWidth]; a line width that is not a positive number changes
    nothing and replays nothing. *)
Theorem style_setters_replay_untransformed
        (a : t) (cv : Canvas.t) (color : string) (w : R) (v : value) :
  activeCanvas a = Ok cv ->
  forallb drawable (Canvas.paths cv) = true ->
  (exists a' cv',
      setFillStyle color a = Ok a'
      /\ activeCanvas a' = Ok cv'
      /\ Canvas.paths cv' = Canvas.paths cv
      /\ Canvas.transforms cv' = Canvas.transforms cv
      /\ Context.ctm (Canvas.context cv') = Context.ctm (Canvas.context cv)
      /\ List.length (Context.saved (Canvas.context cv'))
         = S (List.length (Context.saved (Canvas.context cv)))
      /\ Context.drawn (Canvas.context cv')
         = Context.drawn (Canvas.context cv)
             ++ (Context.ctm (Canvas.context cv),
                 Context.clearRect_ zero zero
                   (ofZ (Canvas.width (Canvas.canvas cv)))
                   (ofZ (Canvas.height (Canvas.canvas cv))))
             :: redraw (Context.ctm (Canvas.context cv)) (Canvas.paths cv))
  /\ (exists a' cv',
        setStrokeStyle color a = Ok a'
        /\ activeCanvas a' = Ok cv'
        /\ Canvas.paths cv' = Canvas.paths cv
        /\ Canvas.transforms cv' = Canvas.transforms cv
        /\ Context.ctm (Canvas.context cv') = Context.ctm (Canvas.context cv)
        /\ List.length (Context.saved (Canvas.context cv'))
           = S (List.length (Context.saved (Canvas.context cv)))
        /\ Context.drawn (Canvas.context cv')
           = Context.drawn (Canvas.context cv)
               ++ (Context.ctm (Canvas.context cv),
                   Context.clearRect_ zero zero
                     (ofZ (Canvas.width (Canvas.canvas cv)))
                     (ofZ (Canvas.height (Canvas.canvas cv))))
               :: redraw (Context.ctm (Canvas.context cv)) (Canvas.paths cv))
  /\ (0 < w ->
      exists a' cv',
        setLineWidth (VNum (Fin w)) a = Ok a'
        /\ activeCanvas a' = Ok cv'
        /\ getLineWidth a' = Ok (Fin w)
        /\ Canvas.paths cv' = Canvas.paths cv
        /\ Context.ctm (Canvas.context cv') = Context.ctm (Canvas.context cv)
        /\ List.length (Context.saved (Canvas.context cv'))
           = S (List.length (Context.saved (Canvas.context cv)))
        /\ Context.drawn (Canvas.context cv')
           = Context.drawn (Canvas.context cv)
               ++ (Context.ctm (Canvas.context cv),
                   Context.clearRect_ zero zero
                     (ofZ (Canvas.width (Canvas.canvas cv)))
                     (ofZ (Canvas.height (Canvas.canvas cv))))
               :: redraw (Context.ctm (Canvas.context cv)) (Canvas.paths cv))
  /\ (gt (parseFloat v) zero = false -> setLineWidth v a = Ok a).
Proof.
  intros Hcv Hd. split; [|split; [|split]].
  - destruct (@draw_true
                (Canvas.set_context
                   (Context.set_fillStyle color (Canvas.context cv)) cv) Hd)
      as (cv' & E & Hp & _ & Ht & _ & _ & _ & Hctm & Hsv & Hdr).
    exists (storeActive cv' a), cv'.
    assert (Hcv' : activeCanvas (storeActive cv' a) = Ok cv')
      by now apply activeCanvas_storeActive with (cv := cv).
    split.
    { unfold setFillStyle. rewrite Hcv. cbn [bind].
      unfold Canvas.setFillStyle. now rewrite E. }
    split; [exact Hcv'|].
    split; [exact Hp|]. split; [exact Ht|]. split; [exact Hctm|].
    split; [now rewrite Hsv|]. exact Hdr.
  - destruct (@draw_true
                (Canvas.set_context
                   (Context.set_strokeStyle color (Canvas.context cv)) cv) Hd)
      as (cv' & E & Hp & _ & Ht & _ & _ & _ & Hctm & Hsv & Hdr).
    exists (storeActive cv' a), cv'.
    assert (Hcv' : activeCanvas (storeActive cv' a) = Ok cv')
      by now apply activeCanvas_storeActive with (cv := cv).
    split.
    { unfold setStrokeStyle. rewrite Hcv. cbn [bind].
      unfold Canvas.setStrokeStyle. now rewrite E. }
    split; [exact Hcv'|].
    split; [exact Hp|]. split; [exact Ht|]. split; [exact Hctm|].
    split; [now rewrite Hsv|]. exact Hdr.
  - intros Hw.
    destruct (@draw_true
                (Canvas.set_context
                   (Context.set_lineWidth (Fin w) (Canvas.context cv)) cv) Hd)
      as (cv' & E & Hp & _ & _ & _ & _ & Hlw & Hctm & Hsv & Hdr).
    exists (storeActive cv' a), cv'.
    assert (Hcv' : activeCanvas (storeActive cv' a) = Ok cv')
      by now apply activeCanvas_storeActive with (cv := cv).
    split.
    { unfold setLineWidth. rewrite Hcv. cbn [bind].
      unfold Canvas.setLineWidth. cbn [parseFloat gt lt zero].
      unfold Context.assign_lineWidth. rewrite (Rltb_true Hw).
      now rewrite E. }
    split; [exact Hcv'|]. split.
    { unfold getLineWidth. rewrite Hcv'. cbn [bind].
      unfold Canvas.getLineWidth. now rewrite Hlw. }
    split; [exact Hp|]. split; [exact Hctm|].
    split; [now rewrite Hsv|]. exact Hdr.
  - intros Hv. unfold setLineWidth. rewrite Hcv. cbn [bind].
    unfold Canvas.setLineWidth. rewrite Hv. cbn [bind].
    now rewrite (@storeActive_same a cv Hcv).
Qed.

(** the fill colour of a fresh ArtCanvas set to red *)
Lemma style_setters_replay_untransformed_witness :
  exists a' cv',
    setFillStyle "red" (new page None (VStr "300") (VStr "300")) = Ok a'
    /\ activeCanvas a' = Ok cv'
    /\ Canvas.paths cv' = [].
Proof.
  destruct (@style_setters_replay_untransformed
              (new page None (VStr "300") (VStr "300"))
              (Canvas.new page None (VStr "300") (VStr "300") 2)
              "red" 1 VUndefined)
    as ((a' & cv' & E & Hcv & Hp & _) & _).
  - reflexivity.
  - reflexivity.
  - exists a', cv'. split; [exact E|]. split; [exact Hcv|exact Hp].
Defined.

End Styles.

(* ------------------------------------------------------------------ *)
(** ** The context around a transform *)

Section TransformReplay.

(** X14.  [transform] on a layer whose stored objects are drawable.
    Called with both arguments it saves the state of the context,
    replays under the pixel mapping and restores: afterwards the
    styles, the matrix and the save stack of the context are as before,
    and the calls made are one clearRect followed by the replay of every
    stored object under the pixel mapping.  Called with fewer than two
    arguments it clears and stops before the replay: the matrix is left
    at the pixel mapping, the saved state stays on the stack, and
    nothing is redrawn. *)
Theorem transform_balances_save_restore
        (ty : string) (am : amountsArg) (argc : nat) (cv : Canvas.t) :
  forallb drawable (Canvas.paths cv) = true ->
  exists cv' m,
    Canvas.transform ty am argc cv = Ok cv'
    /\ pixelMapping ty am cv = Ok m
    /\ Canvas.paths cv' = Canvas.paths cv
    /\ ((1 < argc)%nat ->
        surfaceState (Canvas.context cv') = surfaceState (Canvas.context cv)
        /\ Context.font (Canvas.context cv') = Context.font (Canvas.context cv)
        /\ Context.drawn (Canvas.context cv')
           = Context.drawn (Canvas.context cv)
               ++ (Context.ctm (Canvas.context cv),
                   Context.clearRect_ zero zero
                     (ofZ (Canvas.width (Canvas.canvas cv)))
                     (ofZ (Canvas.height (Canvas.canvas cv))))
               :: redraw m (Canvas.paths cv))
    /\ ((argc <= 1)%nat ->
        Context.ctm (Canvas.context cv') = m
        /\ Context.saved (Canvas.context cv')
           = Context.mkState (Context.ctm (Canvas.context cv))
               (Context.strokeStyle (Canvas.context cv))
               (Context.fillStyle (Canvas.context cv))
               (Context.lineWidth (Canvas.context cv))
               (Context.font (Canvas.context cv))
             :: Context.saved (Canvas.context cv)
        /\ Context.drawn (Canvas.context cv')
           = Context.drawn (Canvas.context cv)
               ++ [(Context.ctm (Canvas.context cv),
                    Context.clearRect_ zero zero
                      (ofZ (Canvas.width (Canvas.canvas cv)))
                      (ofZ (Canvas.height (Canvas.canvas cv))))]).
Proof.
  intros Hd. destruct argc as [|[|n]].
  - destruct (@getCenterPoint_ok cv Hd) as (p & Ep).
    unfold pixelMapping, Canvas.transform, Canvas.beforeReplay.
    rewrite Ep. cbn [bind Nat.ltb Nat.leb].
    set (tr := Canvas.applyAmounts ty (Canvas.toArray am) (Canvas.transforms cv)).
    destruct (applyMatrix_ctm ty p tr
                (Context.save
                   (Canvas.context (Canvas.clear (Canvas.set_transforms tr cv)))))
      as (m & Em).
    rewrite Em. eexists. exists m.
    split; [reflexivity|]. split; [reflexivity|]. split; [reflexivity|].
    split; [intros H; lia|]. intros _.
    destruct cv as [el ctx ts ps trs]. destruct ctx. cbn. auto.
  - destruct (@getCenterPoint_ok cv Hd) as (p & Ep).
    unfold pixelMapping, Canvas.transform, Canvas.beforeReplay.
    rewrite Ep. cbn [bind Nat.ltb Nat.leb].
    set (tr := Canvas.applyAmounts ty (Canvas.toArray am) (Canvas.transforms cv)).
    destruct (applyMatrix_ctm ty p tr
                (Context.save
                   (Canvas.context (Canvas.clear (Canvas.set_transforms tr cv)))))
      as (m & Em).
    rewrite Em. eexists. exists m.
    split; [reflexivity|]. split; [reflexivity|]. split; [reflexivity|].
    split; [intros H; lia|]. intros _.
    destruct cv as [el ctx ts ps trs]. destruct ctx. cbn. auto.
  - change (Canvas.transform ty am (S (S n)) cv)
      with (Canvas.transform ty am 2 cv).
    destruct (@transform2_ok ty am cv Hd)
      as (cv' & m & added & E & Em & Hp & _ & _ & _ & Hs & Hf & Hdr & Ha).
    exists cv', m. split; [exact E|]. split; [exact Em|]. split; [exact Hp|].
    split; [|intros H; lia]. intros _.
    split; [exact Hs|]. split; [exact Hf|]. now rewrite Hdr, Ha.
Qed.

(** a translation of a fresh layer: the call returns *)
Lemma transform_balances_save_restore_witness :
  exists cv' m,
    Canvas.transform Transform.TRANSLATE
      (IsArray [VNum (Fin 5); VNum (Fin 5)]) 2
      (Canvas.new page None (VStr "300") (VStr "300") 2)
    = Ok cv'
    /\ pixelMapping Transform.TRANSLATE
         (IsArray [VNum (Fin 5); VNum (Fin 5)])
         (Canvas.new page None (VStr "300") (VStr "300") 2)
       = Ok m
    /\ Canvas.paths cv' = [].
Proof.
  destruct (@transform_balances_save_restore Transform.TRANSLATE
              (IsArray [VNum (Fin 5); VNum (Fin 5)]) 2
              (Canvas.new page None (VStr "300") (VStr "300") 2))
    as (cv' & m & E & Em & Hp & _).
  - reflexivity.
  - exists cv', m. split; [exact E|]. split; [exact Em|exact Hp].
Defined.

End TransformReplay.

(* ------------------------------------------------------------------ *)
(** ** The geometry of the pixel mapping *)

Section MappingGeometry.

Local Open Scope R_scope.

Lemma pair_ext (a b a' b' : R) : a = a' -> b = b' -> (a, b) = (a', b').
Proof. intros -> ->. reflexivity. Qed.

(** X15.  While the stored rotation is 0, the pixel mapping of each of
    the three kinds is the plain scale and translation: a point (x, y)
    of a stored object is painted at (sx * x + tx, sy * y + ty),
    wherever the pivot is.  Scaling is therefore about the origin of the
    canvas, not about the pivot. *)
Theorem unrotated_mapping_scales_about_origin
        (type : string) (am : amountsArg) (cv : Canvas.t)
        (cx cy tx ty sx sy : R) (sk : Canvas.xy) :
  Canvas.getCenterPoint cv = Ok (Point.mk (Fin cx) (Fin cy)) ->
  Canvas.applyAmounts type (Canvas.toArray am) (Canvas.transforms cv)
  = Canvas.mkTransforms (Canvas.mkXY (Fin tx) (Fin ty))
      (Canvas.mkXY (Fin sx) (Fin sy)) sk (Fin 0) ->
  isTransformName (toLowerCase type) = true ->
  exists m,
    pixelMapping type am cv = Ok m
    /\ forall x y, mapPoint m x y = (sx * x + tx, sy * y + ty).
Proof.
  intros Hc Ha Hk. unfold isTransformName in Hk.
  apply orb_true_iff in Hk. destruct Hk as [Hk|Hk];
    [apply orb_true_iff in Hk; destruct Hk as [Hk|Hk]|];
    apply String.eqb_eq in Hk.
  - rewrite (@pixelMapping_translate_scale type am cv cx cy tx ty sx sy 0 sk
               Hc Ha (or_introl Hk)).
    eexists. split; [reflexivity|]. intros x y.
    cbv [mapPoint mmul rotationAbout scaleTranslation translation rotation
         ma mb mc md me mf].
    rewrite cos_0, sin_0. apply pair_ext; ring.
  - rewrite (@pixelMapping_translate_scale type am cv cx cy tx ty sx sy 0 sk
               Hc Ha (or_intror Hk)).
    eexists. split; [reflexivity|]. intros x y.
    cbv [mapPoint mmul rotationAbout scaleTranslation translation rotation
         ma mb mc md me mf].
    rewrite cos_0, sin_0. apply pair_ext; ring.
  - rewrite (@pixelMapping_rotate type am cv cx cy tx ty sx sy 0 sk Hc Ha Hk).
    eexists. split; [reflexivity|]. intros x y.
    cbv [mapPoint mmul rotationAbout scaleTranslation translation rotation
         ma mb mc md me mf].
    rewrite cos_0, sin_0. apply pair_ext; ring.
Qed.

(** a circle about (10, 10) translated by (5, 7) on a fresh layer *)
Lemma unrotated_mapping_scales_about_origin_witness :
  exists m,
    pixelMapping Transform.TRANSLATE (IsArray [VNum (Fin 5); VNum (Fin 7)])
      (Canvas.set_paths [PCircle (Circle.mk (Fin 10) (Fin 10) (Fin 5))]
         (Canvas.new page None (VNum (Fin 300)) (VNum (Fin 300)) 2))
    = Ok m
    /\ forall x y, mapPoint m x y = (1 * x + 5, 1 * y + 7).
Proof.
  apply (@unrotated_mapping_scales_about_origin Transform.TRANSLATE
           (IsArray [VNum (Fin 5); VNum (Fin 7)])
           (Canvas.set_paths [PCircle (Circle.mk (Fin 10) (Fin 10) (Fin 5))]
              (Canvas.new page None (VNum (Fin 300)) (VNum (Fin 300)) 2))
           10 10 5 7 1 1 (Canvas.mkXY zero zero)).
  - reflexivity.
  - reflexivity.
  - reflexivity.
Defined.

(** X16.  The rotation of the pixel mapping is about the pivot.  For
    kind rotate the pivot is painted where the stored scale and
    translation alone send it; for kind translate or scale the point
    that the scale and translation send to the pivot is painted at the
    pivot.  With the scale (1, 1) and the translation (0, 0) the pivot
    stays where it is, for every angle. *)
Theorem rotation_is_about_the_pivot
        (type : string) (am : amountsArg) (cv : Canvas.t)
        (cx cy tx ty sx sy r : R) (sk : Canvas.xy) :
  Canvas.getCenterPoint cv = Ok (Point.mk (Fin cx) (Fin cy)) ->
  Canvas.applyAmounts type (Canvas.toArray am) (Canvas.transforms cv)
  = Canvas.mkTransforms (Canvas.mkXY (Fin tx) (Fin ty))
      (Canvas.mkXY (Fin sx) (Fin sy)) sk (Fin r) ->
  isTransformName (toLowerCase type) = true ->
  exists m,
    pixelMapping type am cv = Ok m
    /\ (toLowerCase type = Transform.ROTATE ->
        mapPoint m cx cy = (sx * cx + tx, sy * cy + ty))
    /\ (toLowerCase type <> Transform.ROTATE ->
        forall x y, sx * x + tx = cx -> sy * y + ty = cy ->
                    mapPoint m x y = (cx, cy))
    /\ (sx = 1 -> sy = 1 -> tx = 0 -> ty = 0 -> mapPoint m cx cy = (cx, cy)).
Proof.
  intros Hc Ha Hk. unfold isTransformName in Hk.
  apply orb_true_iff in Hk. destruct Hk as [Hk|Hk];
    [apply orb_true_iff in Hk; destruct Hk as [Hk|Hk]|];
    apply String.eqb_eq in Hk.
  - rewrite (@pixelMapping_translate_scale type am cv cx cy tx ty sx sy r sk
               Hc Ha (or_introl Hk)).
    eexists. split; [reflexivity|].
    split; [intros Hr; rewrite Hk in Hr; discriminate|].
    split.
    + intros _ x y Hx Hy. subst cx cy.
      cbv [mapPoint mmul rotationAbout scaleTranslation translation rotation
           ma mb mc md me mf]. apply pair_ext; ring.
    + intros -> -> -> ->.
      cbv [mapPoint mmul rotationAbout scaleTranslation translation rotation
           ma mb mc md me mf]. apply pair_ext; ring.
  - rewrite (@pixelMapping_translate_scale type am cv cx cy tx ty sx sy r sk
               Hc Ha (or_intror Hk)).
    eexists. split; [reflexivity|].
    split; [intros Hr; rewrite Hk in Hr; discriminate|].
    split.
    + intros _ x y Hx Hy. subst cx cy.
      cbv [mapPoint mmul rotationAbout scaleTranslation translation rotation
           ma mb mc md me mf]. apply pair_ext; ring.
    + intros -> -> -> ->.
      cbv [mapPoint mmul rotationAbout scaleTranslation translation rotation
           ma mb mc md me mf]. apply pair_ext; ring.
  - rewrite (@pixelMapping_rotate type am cv cx cy tx ty sx sy r sk Hc Ha Hk).
    eexists. split; [reflexivity|].
    split.
    + intros _.
      cbv [mapPoint mmul rotationAbout scaleTranslation translation rotation
           ma mb mc md me mf]. apply pair_ext; ring.
    + split; [intros Hr; contradiction|].
      intros -> -> -> ->.
      cbv [mapPoint mmul rotationAbout scaleTranslation translation rotation
           ma mb mc md me mf]. apply pair_ext; ring.
Qed.

(** a layer rotated by 1 radian that holds a circle about (10, 10),
    translated by (0, 0): the centre of the circle stays at (10, 10) *)
Lemma rotation_is_about_the_pivot_witness :
  exists m,
    pixelMapping Transform.TRANSLATE (IsArray [VNum (Fin 0); VNum (Fin 0)])
      (Canvas.mk (Canvas.mkElement 300 300 2) (Context.fresh (fun _ _ => 0))
         (TextStyle.new None "")
         [PCircle (Circle.mk (Fin 10) (Fin 10) (Fin 5))]
         (Canvas.mkTransforms (Canvas.mkXY zero zero)
            (Canvas.mkXY (Fin 1) (Fin 1)) (Canvas.mkXY zero zero) (Fin 1)))
    = Ok m
    /\ mapPoint m 10 10 = (10, 10).
Proof.
  destruct (@rotation_is_about_the_pivot Transform.TRANSLATE
              (IsArray [VNum (Fin 0); VNum (Fin 0)])
              (Canvas.mk (Canvas.mkElement 300 300 2)
                 (Context.fresh (fun _ _ => 0)) (TextStyle.new None "")
                 [PCircle (Circle.mk (Fin 10) (Fin 10) (Fin 5))]
                 (Canvas.mkTransforms (Canvas.mkXY zero zero)
                    (Canvas.mkXY (Fin 1) (Fin 1)) (Canvas.mkXY zero zero)
                    (Fin 1)))
              10 10 0 0 1 1 1 (Canvas.mkXY zero zero))
    as (m & E & _ & _ & H).
  - reflexivity.
  - reflexivity.
  - reflexivity.
  - exists m. split; [exact E|]. apply H; reflexivity.
Defined.

End MappingGeometry.

(* ------------------------------------------------------------------ *)
(** ** What a transform gesture sets *)

Section TransformDrag.

Import ArtCanvas.

Local Open Scope R_scope.

Lemma kind_cases (k : string) :
  isTransformName k = true ->
  k = Transform.TRANSLATE \/ k = Transform.SCALE \/ k = Transform.ROTATE.
Proof.
  unfold isTransformName. intros H.
  apply orb_true_iff in H. destruct H as [H|H];
    [apply orb_true_iff in H; destruct H as [H|H]|];
    apply String.eqb_eq in H; auto.
Qed.

Lemma othersKept_refl (k : string) (tr : Canvas.Transforms) :
  othersKept k tr tr.
Proof. unfold othersKept. auto. Qed.

Lemma othersKept_trans (k : string) (tr1 tr2 tr3 : Canvas.Transforms) :
  othersKept k tr1 tr2 -> othersKept k tr2 tr3 -> othersKept k tr1 tr3.
Proof.
  intros (S1 & T1 & C1 & R1) (S2 & T2 & C2 & R2). unfold othersKept.
  split; [congruence|]. split; [intros H; rewrite (T2 H); auto|].
  split; [intros H; rewrite (C2 H); auto|]. intros H; rewrite (R2 H); auto.
Qed.

Lemma applyAmounts_othersKept (k : string) (amounts : list value)
      (tr : Canvas.Transforms) :
  isTransformName k = true ->
  othersKept k tr (Canvas.applyAmounts k amounts tr).
Proof.
  intros Hk. destruct (@kind_cases k Hk) as [-> | [-> | ->]];
    unfold Canvas.applyAmounts; cbn.
  - destruct amounts as [|a0 [|a1 rest]]; try apply othersKept_refl.
    destruct (isNaN (parseFloat a0) || isNaN (parseFloat a1));
      [apply othersKept_refl|].
    unfold othersKept; cbn. repeat split; intros H; congruence.
  - destruct amounts as [|a0 [|a1 rest]]; try apply othersKept_refl.
    destruct (isNaN (parseFloat a0) || isNaN (parseFloat a1));
      [apply othersKept_refl|].
    unfold othersKept; cbn. repeat split; intros H; congruence.
  - destruct amounts as [|a0 rest]; try apply othersKept_refl.
    destruct (isNaN (parseFloat a0)); [apply othersKept_refl|].
    unfold othersKept; cbn. repeat split; intros H; congruence.
Qed.

Lemma _transform_state (a : t) (cv : Canvas.t) (orig : list path)
      (p : Point.t) (x y : num) :
  Canvas.paths cv = push orig (Points [Some p]) ->
  forallb drawable orig = true ->
  exists cv',
    _transform cv x y a = Ok cv'
    /\ Canvas.paths cv' = push orig (Points [Some p])
    /\ Canvas.canvas cv' = Canvas.canvas cv
    /\ Canvas.transforms cv'
       = Canvas.applyAmounts (transform a)
           (gestureAmounts (transform a)
              (Point.getOffsetPoint (Some p) (Some (pointAt (x, y))))
              (Canvas.canvas cv))
           (Canvas.transforms cv).
Proof.
  intros Hp Hd. unfold _transform. rewrite Hp, pop_push.
  change (pop [Some p]) with (@nil (option Point.t), Some (Some p)).
  cbn [snd fst popped].
  destruct (@transform_ok (transform a)
              (IsArray (gestureAmounts (transform a)
                          (Point.getOffsetPoint (Some p)
                             (Some (Point.new (VNum x) (VNum y))))
                          (Canvas.getCanvas cv)))
              2 (Canvas.set_paths orig cv) Hd) as (cv1 & E & Hp1 & Hc1 & Ht1).
  rewrite E. cbn [bind]. eexists. split; [reflexivity|].
  cbn [Canvas.paths Canvas.set_paths Canvas.canvas Canvas.transforms].
  rewrite Hp1, Hc1, Ht1. repeat split.
Qed.

Lemma moveAt_transform_state (a : t) (cv : Canvas.t) (orig : list path)
      (p : Point.t) (x y : num) (ty : string) :
  mode a = Mode.TRANSFORM ->
  activeCanvas a = Ok cv ->
  Canvas.paths cv = push orig (Points [Some p]) ->
  forallb drawable orig = true ->
  exists a1 cv1,
    moveAt cv x y ty a = Ok a1
    /\ mode a1 = Mode.TRANSFORM /\ isDown a1 = isDown a
    /\ transform a1 = transform a
    /\ activeCanvas a1 = Ok cv1
    /\ Canvas.paths cv1 = push orig (Points [Some p])
    /\ Canvas.canvas cv1 = Canvas.canvas cv
    /\ Canvas.transforms cv1
       = Canvas.applyAmounts (transform a)
           (gestureAmounts (transform a)
              (Point.getOffsetPoint (Some p) (Some (pointAt (x, y))))
              (Canvas.canvas cv))
           (Canvas.transforms cv)
    /\ container a1 = container a.
Proof.
  intros Hm Hcv Hp Hd. unfold moveAt. rewrite Hm.
  cbn [String.eqb Mode.TRANSFORM Mode.TEXT Mode.HAND Mode.FIGURE Ascii.eqb
       Bool.eqb].
  destruct (@_transform_state a cv orig p x y Hp Hd)
    as (cv1 & E & Hp1 & Hc1 & Ht1).
  rewrite E. cbn [bind].
  exists (invoke (drawmove x y) (storeActive cv1 a)), cv1.
  split; [reflexivity|].
  destruct (storeActive_frame cv1 a) as (H1 & H2 & _ & H4 & _ & _ & _ & _ & H9).
  cbn [mode isDown transform container invoke]. rewrite H1, H2, H4, H9, Hm.
  split; [reflexivity|]. split; [reflexivity|]. split; [reflexivity|].
  split; [|auto 6].
  change (activeCanvas (invoke ?c ?s)) with (activeCanvas s).
  now apply activeCanvas_storeActive with (cv := cv).
Qed.

(** the listener of the pointer-move on events that can be read: the
    anchor stays, and so does everything of the TransformState that the
    kind of the transform does not set *)
Lemma onMoves_transform_state (moves : list Event.t) :
  forallb readable moves = true ->
  forall (a : t) (cv : Canvas.t) (orig : list path) (p : Point.t),
    mode a = Mode.TRANSFORM -> isDown a = true ->
    isTransformName (transform a) = true ->
    activeCanvas a = Ok cv ->
    Canvas.paths cv = push orig (Points [Some p]) ->
    forallb drawable orig = true ->
    exists a1 cv1,
      onMoves moves a = Ok a1
      /\ mode a1 = Mode.TRANSFORM /\ isDown a1 = true
      /\ transform a1 = transform a
      /\ activeCanvas a1 = Ok cv1
      /\ Canvas.paths cv1 = push orig (Points [Some p])
      /\ Canvas.canvas cv1 = Canvas.canvas cv
      /\ othersKept (transform a) (Canvas.transforms cv)
           (Canvas.transforms cv1)
      /\ container a1 = container a.
Proof.
  induction moves as [|e moves IH]; intros Hr a cv orig p Hm Hdown Hk Hcv Hp Hd.
  - exists a, cv. simpl. repeat split; auto.
  - simpl in Hr. apply andb_true_iff in Hr. destruct Hr as [He Hr].
    simpl onMoves. unfold onMove. rewrite Hdown, Hcv. cbn [negb bind].
    destruct (@readable_offsets e (container a) cv He) as (x & y & Ex & Ey).
    rewrite Ex, Ey. cbn [bind].
    destruct (@moveAt_transform_state a cv orig p x y (Event.type e)
                Hm Hcv Hp Hd)
      as (a1 & cv1 & E1 & Hm1 & Hd1 & Hk1 & Hcv1 & Hp1 & Hc1 & Ht1 & Hct1).
    rewrite E1. cbn [bind]. rewrite Hdown in Hd1.
    assert (Hk' : isTransformName (transform a1) = true) by now rewrite Hk1.
    destruct (IH Hr a1 cv1 orig p Hm1 Hd1 Hk' Hcv1 Hp1 Hd)
      as (a2 & cv2 & E2 & Hm2 & Hd2 & Hk2 & Hcv2 & Hp2 & Hc2 & Ht2 & Hct2).
    exists a2, cv2. split; [exact E2|]. split; [exact Hm2|].
    split; [exact Hd2|]. split; [now rewrite Hk2|]. split; [exact Hcv2|].
    split; [exact Hp2|]. split; [now rewrite Hc2|].
    split; [|now rewrite Hct2].
    rewrite Hk1 in Ht2.
    apply othersKept_trans with (tr2 := Canvas.transforms cv1); [|exact Ht2].
    rewrite Ht1. now apply applyAmounts_othersKept.
Qed.

Lemma atan2_finite (b a : R) : exists r, Math_atan2 (Fin b) (Fin a) = Fin r.
Proof.
  unfold Math_atan2.
  destruct (Rltb 0 a); [eauto|]. destruct (Rltb a 0).
  - destruct (Rltb b 0); eauto.
  - destruct (Rltb 0 b); [eauto|]. destruct (Rltb b 0); eauto.
Qed.

(** the amounts of a drag by the finite offset (dx, dy) *)
Lemma gestureAmounts_translate (dx dy : R) (el : Canvas.Element)
      (tr : Canvas.Transforms) :
  Canvas.translate
    (Canvas.applyAmounts Transform.TRANSLATE
       (gestureAmounts Transform.TRANSLATE (Point.mk (Fin dx) (Fin dy)) el) tr)
  = Canvas.mkXY (Fin dx) (Fin dy).
Proof. reflexivity. Qed.

Lemma gestureAmounts_scale (dx dy : R) (el : Canvas.Element)
      (tr : Canvas.Transforms) :
  Canvas.width el <> 0%Z -> Canvas.height el <> 0%Z ->
  Canvas.scale
    (Canvas.applyAmounts Transform.SCALE
       (gestureAmounts Transform.SCALE (Point.mk (Fin dx) (Fin dy)) el) tr)
  = Canvas.mkXY (Fin (1 + dx / IZR (Canvas.width el)))
      (Fin (1 + dy / IZR (Canvas.height el))).
Proof.
  intros Hw Hh.
  assert (Hw' : IZR (Canvas.width el) <> 0) by now apply not_0_IZR.
  assert (Hh' : IZR (Canvas.height el) <> 0) by now apply not_0_IZR.
  assert (Ex : (if negb (eq (Fin dx) zero)
                then add (Fin 1) (div (Fin dx) (ofZ (Canvas.width el)))
                else Fin 1)
               = Fin (1 + dx / IZR (Canvas.width el))).
  { unfold eq, zero, div, ofZ, add. rewrite (Reqb_false Hw').
    destruct (Req_dec_T dx 0) as [->|Hn].
    - rewrite Reqb_refl. cbn. f_equal. unfold Rdiv. ring.
    - now rewrite (Reqb_false Hn). }
  assert (Ey : (if negb (eq (Fin dy) zero)
                then add (Fin 1) (div (Fin dy) (ofZ (Canvas.height el)))
                else Fin 1)
               = Fin (1 + dy / IZR (Canvas.height el))).
  { unfold eq, zero, div, ofZ, add. rewrite (Reqb_false Hh').
    destruct (Req_dec_T dy 0) as [->|Hn].
    - rewrite Reqb_refl. cbn. f_equal. unfold Rdiv. ring.
    - now rewrite (Reqb_false Hn). }
  unfold gestureAmounts.
  cbn [String.eqb Transform.SCALE Transform.TRANSLATE Ascii.eqb Bool.eqb
       Point.getX Point.getY Point.x Point.y].
  rewrite Ex, Ey. reflexivity.
Qed.

(** the rotation: the angle of the offset is turned into degrees by
    [_transform], and back into radians by [transform] *)
Lemma gestureAmounts_rotate (dx dy : R) (el : Canvas.Element)
      (tr : Canvas.Transforms) :
  Canvas.rotate
    (Canvas.applyAmounts Transform.ROTATE
       (gestureAmounts Transform.ROTATE (Point.mk (Fin dx) (Fin dy)) el) tr)
  = div (mul (mul (div (Math_atan2 (Fin dy) (Fin dx)) Math_PI) (Fin 180))
           Math_PI)
      (Fin 180).
Proof.
  unfold gestureAmounts.
  cbn [String.eqb Transform.SCALE Transform.TRANSLATE Transform.ROTATE
       Ascii.eqb Bool.eqb Point.getX Point.getY Point.x Point.y].
  destruct (atan2_finite dy dx) as (r & ->).
  rewrite (@applyAmounts_rotate Transform.ROTATE _ [] tr eq_refl).
  cbn [parseFloat].
  assert (E : div (Fin r) Math_PI = Fin (r / PI)).
  { unfold div, Math_PI. now rewrite (Reqb_false PI_neq0). }
  rewrite E. reflexivity.
Qed.

End TransformDrag.

Section TransformGestureState.

Import ArtCanvas.

Local Open Scope R_scope.

Lemma startAt_transform_state (a : t) (cv : Canvas.t) (x y : num)
      (ty : string) :
  mode a = Mode.TRANSFORM ->
  activeCanvas a = Ok cv ->
  exists a1 cv1,
    startAt cv x y ty a = Ok a1
    /\ mode a1 = Mode.TRANSFORM /\ isDown a1 = true
    /\ transform a1 = transform a
    /\ activeCanvas a1 = Ok cv1
    /\ Canvas.paths cv1
       = push (Canvas.paths cv) (Points [Some (pointAt (x, y))])
    /\ Canvas.canvas cv1 = Canvas.canvas cv
    /\ Canvas.transforms cv1 = Canvas.transforms cv
    /\ container a1 = container a.
Proof.
  intros Hm Hcv. unfold startAt. rewrite Hm. cbn [String.eqb Mode.TRANSFORM
    Mode.TEXT Mode.HAND Mode.FIGURE Ascii.eqb Bool.eqb bind].
  set (cv1 := Canvas.set_paths
                (push (Canvas.paths cv) (Points [Some (pointAt (x, y))])) cv).
  exists (invoke (drawstart x y) (set_isDown true (storeActive cv1 a))), cv1.
  split; [reflexivity|].
  destruct (storeActive_frame cv1 a) as (H1 & H2 & _ & H4 & _).
  cbn [mode isDown transform container invoke set_isDown].
  rewrite H1, H2, H4, Hm.
  split; [reflexivity|]. split; [reflexivity|]. split; [reflexivity|].
  split; [|repeat split].
  change (activeCanvas (invoke ?c (set_isDown ?b ?s))) with (activeCanvas s).
  now apply activeCanvas_storeActive with (cv := cv).
Qed.

Lemma endAt_transform_state (a : t) (cv : Canvas.t) (orig : list path)
      (p : Point.t) (x y : num) (ty : string) :
  mode a = Mode.TRANSFORM ->
  activeCanvas a = Ok cv ->
  Canvas.paths cv = push orig (Points [Some p]) ->
  exists a1 cv1,
    endAt cv x y ty a = Ok a1
    /\ isDown a1 = false
    /\ activeCanvas a1 = Ok cv1
    /\ Canvas.paths cv1 = orig
    /\ Canvas.transforms cv1 = Canvas.transforms cv.
Proof.
  intros Hm Hcv Hp. unfold endAt. rewrite Hm.
  cbn [String.eqb Mode.TRANSFORM Mode.TEXT Mode.HAND Mode.FIGURE Ascii.eqb
       Bool.eqb bind].
  rewrite Hp, pop_push. cbn [fst].
  eexists. exists (Canvas.set_paths orig cv).
  split; [reflexivity|]. split; [reflexivity|].
  split; [|split; reflexivity].
  change (activeCanvas (invoke ?c (set_isDown ?b ?s))) with (activeCanvas s).
  now apply activeCanvas_storeActive with (cv := cv).
Qed.

Lemma transforms_ext (tr tr' : Canvas.Transforms) :
  Canvas.translate tr' = Canvas.translate tr ->
  Canvas.scale tr' = Canvas.scale tr ->
  Canvas.skew tr' = Canvas.skew tr ->
  Canvas.rotate tr' = Canvas.rotate tr ->
  tr' = tr.
Proof. destruct tr, tr'. cbn. intros; subst; reflexivity. Qed.

(** X18.  What a transform gesture leaves in the TransformState of the
    active layer, its stored objects drawable, when the positions of
    all its events can be read: the amounts are computed from the offset
    between the position (x0, y0) read at the pointer-down and the
    position (x, y) read at the last pointer-move, whatever moves came
    before and whatever position is read at the pointer-up.  Kind
    translate: the translation is (x - x0, y - y0).  Kind scale: the
    scale is (1 + (x - x0) / width, 1 + (y - y0) / height) of the canvas.
    Kind rotate: the rotation is the angle atan2 (y - y0, x - x0) turned
    into degrees (divided by pi, times 180) and back into radians (times
    pi, divided by 180).  The other components are those from before
    the gesture, and so are the paths. *)
Theorem transform_gesture_sets_state
        (a : t) (cv : Canvas.t) (down last up : Event.t)
        (moves : list Event.t) (x0 y0 x y : R) :
  mode a = Mode.TRANSFORM ->
  isTransformName (transform a) = true ->
  activeCanvas a = Ok cv ->
  forallb drawable (Canvas.paths cv) = true ->
  positionOn (container a) cv down = Ok (Fin x0, Fin y0) ->
  forallb readable moves = true ->
  positionOn (container a) cv last = Ok (Fin x, Fin y) ->
  readable up = true ->
  exists a3 cv3,
    gesture down (moves ++ [last]) up a = Ok a3
    /\ activeCanvas a3 = Ok cv3
    /\ Canvas.paths cv3 = Canvas.paths cv
    /\ isDown a3 = false
    /\ (transform a = Transform.TRANSLATE ->
        Canvas.transforms cv3
        = Canvas.mkTransforms (Canvas.mkXY (Fin (x - x0)) (Fin (y - y0)))
            (Canvas.scale (Canvas.transforms cv))
            (Canvas.skew (Canvas.transforms cv))
            (Canvas.rotate (Canvas.transforms cv)))
    /\ (transform a = Transform.SCALE ->
        Canvas.width (Canvas.canvas cv) <> 0%Z ->
        Canvas.height (Canvas.canvas cv) <> 0%Z ->
        Canvas.transforms cv3
        = Canvas.mkTransforms (Canvas.translate (Canvas.transforms cv))
            (Canvas.mkXY
               (Fin (1 + (x - x0) / IZR (Canvas.width (Canvas.canvas cv))))
               (Fin (1 + (y - y0) / IZR (Canvas.height (Canvas.canvas cv)))))
            (Canvas.skew (Canvas.transforms cv))
            (Canvas.rotate (Canvas.transforms cv)))
    /\ (transform a = Transform.ROTATE ->
        Canvas.transforms cv3
        = Canvas.mkTransforms (Canvas.translate (Canvas.transforms cv))
            (Canvas.scale (Canvas.transforms cv))
            (Canvas.skew (Canvas.transforms cv))
            (div (mul (mul (div (Math_atan2 (Fin (y - y0)) (Fin (x - x0)))
                              Math_PI)
                         (Fin 180))
                    Math_PI)
               (Fin 180))).
Proof.
  intros Hm Hk Hcv Hd Hp0 Hr Hpl Hru.
  destruct (@positionOn_inv _ _ _ _ _ Hp0) as [Ex0 Ey0].
  destruct (@startAt_transform_state a cv (Fin x0) (Fin y0)
              (Event.type down) Hm Hcv)
    as (a1 & cv1 & E1 & Hm1 & Hd1 & Hk1 & Hcv1 & Hp1 & Hc1 & Ht1 & Hct1).
  assert (Hk1' : isTransformName (transform a1) = true) by now rewrite Hk1.
  destruct (@onMoves_transform_state moves Hr a1 cv1 (Canvas.paths cv)
              (pointAt (Fin x0, Fin y0)) Hm1 Hd1 Hk1' Hcv1 Hp1 Hd)
    as (a2 & cv2 & E2 & Hm2 & Hd2 & Hk2 & Hcv2 & Hp2 & Hc2 & Ht2 & Hct2).
  assert (Hel2 : Canvas.canvas cv2 = Canvas.canvas cv) by now rewrite Hc2.
  rewrite <- (@positionOn_ext (container a) cv cv2 last Hel2) in Hpl.
  rewrite <- Hct1, <- Hct2 in Hpl.
  destruct (@positionOn_inv _ _ _ _ _ Hpl) as [Ex Ey].
  destruct (@moveAt_transform_state a2 cv2 (Canvas.paths cv)
              (pointAt (Fin x0, Fin y0)) (Fin x) (Fin y)
              (Event.type last) Hm2 Hcv2 Hp2 Hd)
    as (a2' & cv2' & E2' & Hm2' & Hd2' & Hk2' & Hcv2' & Hp2' & Hc2' & Ht2'
        & Hct2').
  rewrite Hd2 in Hd2'.
  destruct (@readable_offsets up (container a2') cv2' Hru)
    as (x1 & y1 & Ex1 & Ey1).
  destruct (@endAt_transform_state a2' cv2' (Canvas.paths cv)
              (pointAt (Fin x0, Fin y0)) x1 y1 (Event.type up)
              Hm2' Hcv2' Hp2')
    as (a3 & cv3 & E3 & Hd3 & Hcv3 & Hp3 & Ht3).
  exists a3, cv3. split.
  { unfold gesture, onStart. rewrite Hcv. cbn [bind]. rewrite Ex0, Ey0.
    cbn [bind]. rewrite E1. cbn [bind]. rewrite onMoves_app, E2. cbn [bind].
    cbn [onMoves]. unfold onMove. rewrite Hd2, Hcv2. cbn [negb bind].
    rewrite Ex, Ey. cbn [bind]. rewrite E2'. cbn [bind].
    unfold onEnd. rewrite Hd2', Hcv2'. cbn [negb bind]. rewrite Ex1, Ey1.
    exact E3. }
  split; [exact Hcv3|]. split; [exact Hp3|]. split; [exact Hd3|].
  rewrite Hk2, Hk1 in Ht2'. rewrite Hk1, Ht1 in Ht2. rewrite Hc2, Hc1 in Ht2'.
  change (Point.getOffsetPoint (Some (pointAt (Fin x0, Fin y0)))
            (Some (pointAt (Fin x, Fin y))))
    with (Point.mk (Fin (x - x0)) (Fin (y - y0))) in Ht2'.
  assert (Hkept : othersKept (transform a) (Canvas.transforms cv)
                    (Canvas.transforms cv3)).
  { rewrite Ht3, Ht2'.
    apply othersKept_trans with (tr2 := Canvas.transforms cv2);
      [exact Ht2|]. now apply applyAmounts_othersKept. }
  destruct Hkept as (Hsk & Htr & Hsc & Hro).
  split; [|split].
  - intros K. rewrite K in *. apply transforms_ext; cbn.
    + rewrite Ht3, Ht2'. apply gestureAmounts_translate.
    + apply Hsc. discriminate.
    + exact Hsk.
    + apply Hro. discriminate.
  - intros K Hw Hh. rewrite K in *. apply transforms_ext; cbn.
    + apply Htr. discriminate.
    + rewrite Ht3, Ht2'. now apply gestureAmounts_scale.
    + exact Hsk.
    + apply Hro. discriminate.
  - intros K. rewrite K in *. apply transforms_ext; cbn -[div mul Math_PI Math_atan2].
    + apply Htr. discriminate.
    + apply Hsc. discriminate.
    + exact Hsk.
    + rewrite Ht3, Ht2'. apply gestureAmounts_rotate.
Qed.

(** a circle dragged with the mouse in translate mode from (10, 10) over
    (30, 20) to (60, 40) *)
Lemma transform_gesture_sets_state_witness :
  exists a3 cv3,
    gesture (Event.mouse "mousedown" 10 10)
      ([Event.mouse "mousemove" 30 20] ++ [Event.mouse "mousemove" 60 40])
      (Event.mouse "mouseup" 60 40)
      (mk page Mode.TRANSFORM Figure.RECTANGLE Transform.TRANSLATE
          [Canvas.set_paths [PCircle (Circle.mk (Fin 10) (Fin 10) (Fin 5))]
             (Canvas.new page None (VStr "300") (VStr "300") 2)]
          0 None [] None false)
    = Ok a3
    /\ activeCanvas a3 = Ok cv3
    /\ Canvas.translate (Canvas.transforms cv3)
       = Canvas.mkXY (Fin (60 - 10)) (Fin (40 - 10)).
Proof.
  assert (P : forall ty x y,
             0 < x <= 300 -> 0 < y <= 300 ->
             positionOn page
               (Canvas.set_paths
                  [PCircle (Circle.mk (Fin 10) (Fin 10) (Fin 5))]
                  (Canvas.new page None (VStr "300") (VStr "300") 2))
               (Event.mouse ty x y)
             = Ok (Fin x, Fin y)).
  { intros ty x y Hx Hy. apply positionOn_mouse; try reflexivity; simpl; lra. }
  destruct (@transform_gesture_sets_state
              (mk page Mode.TRANSFORM Figure.RECTANGLE Transform.TRANSLATE
                  [Canvas.set_paths
                     [PCircle (Circle.mk (Fin 10) (Fin 10) (Fin 5))]
                     (Canvas.new page None (VStr "300") (VStr "300") 2)]
                  0 None [] None false)
              (Canvas.set_paths
                 [PCircle (Circle.mk (Fin 10) (Fin 10) (Fin 5))]
                 (Canvas.new page None (VStr "300") (VStr "300") 2))
              (Event.mouse "mousedown" 10 10) (Event.mouse "mousemove" 60 40)
              (Event.mouse "mouseup" 60 40) [Event.mouse "mousemove" 30 20]
              10 10 60 40)
    as (a3 & cv3 & E & Hcv & _ & _ & Ht & _).
  - reflexivity.
  - reflexivity.
  - reflexivity.
  - reflexivity.
  - apply P; lra.
  - cbn [forallb]. rewrite readable_mouse by lra. reflexivity.
  - apply P; lra.
  - apply readable_mouse; lra.
  - exists a3, cv3. split; [exact E|]. split; [exact Hcv|].
    now rewrite (Ht eq_refl).
Defined.

End TransformGestureState.

(* ------------------------------------------------------------------ *)
(** ** The rectangle of a figure gesture *)

Section RectangleGesture.

Import ArtCanvas.

Local Open Scope R_scope.

Lemma clamp_negative (w : R) :
  (if ge (Fin w) zero then Fin w else zero) = Fin (Rmax 0 w).
Proof.
  unfold ge, le, lt, eq, zero, Rmax.
  destruct (Rle_dec 0 w) as [H|H].
  - destruct (Rle_lt_or_eq_dec 0 w H) as [Hlt|Heq].
    + now rewrite (Rltb_true Hlt).
    + rewrite (Reqb_true Heq). now rewrite orb_true_r.
  - rewrite Rltb_false by lra. rewrite Reqb_false by lra. reflexivity.
Qed.

Lemma half_truncated (w : R) :
  ofInt (parseInt (VNum (div (Fin w) (Fin 2)))) = Fin (IZR (trunc (w / 2))).
Proof. unfold div. rewrite (@Reqb_false 2 0) by lra. reflexivity. Qed.

(** X19.  A figure gesture for a rectangle, from the pointer-down at
    the integer position (x0, y0) to the pointer-up at the integer
    position (x1, y1), the stored objects of the layer drawable.  The
    rectangle stored has the width max (0, x1 - x0) and the height
    max (0, y1 - y0): dragged to the left or upwards it is empty.  Its
    field top holds x0 and its field left holds y0.  The replay passes
    (top, left) to [rect], so that the rectangle is painted at (x0, y0),
    where the preview was; the pivot of the transforms reads left as x
    and top as y, and is (y0 + trunc (width / 2), x0 + trunc (height / 2)). *)
Theorem rectangle_gesture_transposes_pivot
        (touchPanel : bool) (a : t) (cv : Canvas.t)
        (x0 y0 x1 y1 : Z) (ps : list (num * num)) :
  mode a = Mode.FIGURE ->
  figure a = Figure.RECTANGLE ->
  activeCanvas a = Ok cv ->
  forallb drawable (Canvas.paths cv) = true ->
  (Z.abs (x1 - x0) < 10 ^ 21)%Z ->
  (Z.abs (y1 - y0) < 10 ^ 21)%Z ->
  let w := Rmax 0 (IZR x1 - IZR x0) in
  let h := Rmax 0 (IZR y1 - IZR y0) in
  exists a3 cv3,
    gestureAt touchPanel (ofZ x0, ofZ y0) ps (ofZ x1, ofZ y1) a = Ok a3
    /\ activeCanvas a3 = Ok cv3
    /\ Canvas.paths cv3
       = push (Canvas.paths cv)
           (PRectangle (Rectangle.mk (ofZ x0) (ofZ y0) (Fin w) (Fin h)))
    /\ pathCalls (PRectangle (Rectangle.mk (ofZ x0) (ofZ y0) (Fin w) (Fin h)))
       = [Context.beginPath_; Context.rect_ (ofZ x0) (ofZ y0) (Fin w) (Fin h);
          Context.stroke_; Context.fill_]
    /\ Canvas.getCenterPoint cv3
       = Ok (Point.mk (Fin (IZR (trunc (w / 2)) + IZR y0))
                      (Fin (IZR (trunc (h / 2)) + IZR x0))).
Proof.
  intros Hm Hf Hcv Hd _ _ w h. unfold ofZ.
  assert (Hname : isFigureName (figure a) = true) by now rewrite Hf.
  destruct (@figure_gesture_at touchPanel a cv (Fin (IZR x0), Fin (IZR y0))
              (Fin (IZR x1), Fin (IZR y1)) ps Hm Hname Hcv)
    as (a1 & a2 & a3 & _ & _ & _ & E & _ & _ & Hp & _).
  unfold activePaths in Hp.
  destruct (activeCanvas a3) as [cv3|] eqn:Hcv3; [|discriminate].
  cbn [bind] in Hp. apply Ok_inj in Hp.
  assert (Hshape : figureShape (figure a)
                     (Point.new (VNum (fst (Fin (IZR x0), Fin (IZR y0))))
                        (VNum (snd (Fin (IZR x0), Fin (IZR y0)))))
                     (fst (Fin (IZR x1), Fin (IZR y1)))
                     (snd (Fin (IZR x1), Fin (IZR y1)))
                   = PRectangle
                       (Rectangle.mk (Fin (IZR x0)) (Fin (IZR y0)) (Fin w)
                          (Fin h))).
  { rewrite Hf. unfold figureShape.
    cbn [String.eqb Figure.RECTANGLE Ascii.eqb Bool.eqb fst snd].
    unfold Rectangle.new. cbn [parseFloat Point.new Point.x Point.y isNaN negb
      Point.getOffsetPoint Point.getX Point.getY sub neg add].
    change (IZR x1 + - IZR x0) with (IZR x1 - IZR x0).
    change (IZR y1 + - IZR y0) with (IZR y1 - IZR y0).
    now rewrite !clamp_negative. }
  rewrite Hshape in Hp.
  exists a3, cv3. split; [exact E|]. split; [exact Hcv3|].
  split; [exact Hp|]. split; [reflexivity|].
  unfold Canvas.getCenterPoint. rewrite Hp. unfold push.
  rewrite centerLoop_last.
  destruct (@centerLoop_ok (Canvas.context cv3) (Canvas.paths cv) Hd
              (zero, zero)) as (xy & Exy).
  rewrite Exy. cbn [bind Canvas.pathCenter Rectangle.getWidth
    Rectangle.getHeight Rectangle.getLeft Rectangle.getTop Rectangle.width
    Rectangle.height Rectangle.left Rectangle.top fst snd].
  rewrite !half_truncated. reflexivity.
Qed.

(** a rectangle dragged from (10, 20) to (50, 40) on a fresh ArtCanvas in
    figure mode *)
Lemma rectangle_gesture_transposes_pivot_witness :
  exists a3 cv3,
    gestureAt false (ofZ 10, ofZ 20) [] (ofZ 50, ofZ 40)
      (mk page Mode.FIGURE Figure.RECTANGLE Transform.TRANSLATE
          [Canvas.new page None (VStr "300") (VStr "300") 2] 0 None []
          None false)
    = Ok a3
    /\ activeCanvas a3 = Ok cv3
    /\ Canvas.paths cv3
       = [PRectangle
            (Rectangle.mk (ofZ 10) (ofZ 20) (Fin (Rmax 0 (50 - 10)))
               (Fin (Rmax 0 (40 - 20))))].
Proof.
  destruct (@rectangle_gesture_transposes_pivot false
              (mk page Mode.FIGURE Figure.RECTANGLE Transform.TRANSLATE
                  [Canvas.new page None (VStr "300") (VStr "300") 2] 0 None
                  [] None false)
              (Canvas.new page None (VStr "300") (VStr "300") 2)
              10 20 50 40 [])
    as (a3 & cv3 & E & Hcv & Hp & _).
  - reflexivity.
  - reflexivity.
  - reflexivity.
  - reflexivity.
  - reflexivity.
  - reflexivity.
  - exists a3, cv3. split; [exact E|]. split; [exact Hcv|exact Hp].
Defined.

End RectangleGesture.

(* ------------------------------------------------------------------ *)
(** ** Mouse events *)

Section MouseEventsInBounds.

Local Open Scope R_scope.

(** X20.  On a mouse event that is neither on the left edge nor on the
    top edge of the page, the coordinates are the page coordinates made
    relative to the container (its offset subtracted, its scroll added)
    and clamped to the canvas: both lie within the canvas, and a
    position inside the canvas is returned as it is. *)
Theorem getOffset_mouse_in_bounds
        (ty : string) (x y : R) (ct : Container.t) (cv : Canvas.t) :
  x <> 0 -> y <> 0 ->
  (0 <= Canvas.width (Canvas.canvas cv))%Z ->
  (0 <= Canvas.height (Canvas.canvas cv))%Z ->
  let ox := x + - Container.offsetLeft ct + Container.scrollLeft ct in
  let oy := y + - Container.offsetTop ct + Container.scrollTop ct in
  exists vx vy,
    Canvas.getOffsetX (Some (Event.mouse ty x y)) ct cv = Ok (Fin vx)
    /\ Canvas.getOffsetY (Some (Event.mouse ty x y)) ct cv = Ok (Fin vy)
    /\ 0 <= vx <= IZR (Canvas.width (Canvas.canvas cv))
    /\ 0 <= vy <= IZR (Canvas.height (Canvas.canvas cv))
    /\ (0 <= ox <= IZR (Canvas.width (Canvas.canvas cv)) -> vx = ox)
    /\ (0 <= oy <= IZR (Canvas.height (Canvas.canvas cv)) -> vy = oy).
Proof.
  intros Hx Hy Hw Hh ox oy.
  rewrite (@getOffsetX_mouse ty x y ct cv Hx).
  rewrite (@getOffsetY_mouse ty x y ct cv Hy).
  fold ox oy.
  destruct (@clamp_in_bounds ox (Canvas.width (Canvas.canvas cv)))
    as (vx & Hvx & Hbx); [now apply IZR_le|].
  destruct (@clamp_in_bounds oy (Canvas.height (Canvas.canvas cv)))
    as (vy & Hvy & Hby); [now apply IZR_le|].
  exists vx, vy. rewrite Hvx, Hvy.
  split; [reflexivity|]. split; [reflexivity|].
  split; [exact Hbx|]. split; [exact Hby|]. split.
  - intros Hin. rewrite (clamp_inside _ Hin) in Hvx. now apply Fin_inj.
  - intros Hin. rewrite (clamp_inside _ Hin) in Hvy. now apply Fin_inj.
Qed.

(** a mouse event at (40, 50) of the page *)
Lemma getOffset_mouse_in_bounds_witness :
  exists vx vy,
    Canvas.getOffsetX (Some (Event.mouse "mousedown" 40 50)) page
      (Canvas.mk (Canvas.mkElement 300 150 2) (Context.fresh (fun _ _ => 0))
         (TextStyle.new None "") [] Canvas.initialTransforms)
    = Ok (Fin vx)
    /\ Canvas.getOffsetY (Some (Event.mouse "mousedown" 40 50)) page
         (Canvas.mk (Canvas.mkElement 300 150 2)
            (Context.fresh (fun _ _ => 0))
            (TextStyle.new None "") [] Canvas.initialTransforms)
       = Ok (Fin vy)
    /\ 0 <= vx <= 300 /\ 0 <= vy <= 150.
Proof.
  destruct (@getOffset_mouse_in_bounds "mousedown" 40 50 page
              (Canvas.mk (Canvas.mkElement 300 150 2)
                 (Context.fresh (fun _ _ => 0))
                 (TextStyle.new None "") [] Canvas.initialTransforms))
    as (vx & vy & Ex & Ey & Hx & Hy & _).
  - lra.
  - lra.
  - simpl. lia.
  - simpl. lia.
  - exists vx, vy. auto.
Defined.

End MouseEventsInBounds.

(* ------------------------------------------------------------------ *)
(** ** The states that runs reach *)

Section WellFormedLayers.

Local Open Scope R_scope.

Lemma wellFormed_drawable (p : path) :
  wellFormed p = true -> drawable p = true.
Proof.
  destruct p as [ps|r|c|l|s]; simpl; auto.
  destruct ps; [discriminate|auto].
Qed.

Lemma layerOk_elim (cv : Canvas.t) :
  layerOk cv = true ->
  forallb wellFormed (Canvas.paths cv) = true
  /\ noNaN (Canvas.transforms cv) = true.
Proof. unfold layerOk. intros H. now apply andb_true_iff in H. Qed.

Lemma layerOk_intro (cv : Canvas.t) :
  forallb wellFormed (Canvas.paths cv) = true ->
  noNaN (Canvas.transforms cv) = true ->
  layerOk cv = true.
Proof. unfold layerOk. intros -> ->. reflexivity. Qed.

Lemma layerOk_drawable (cv : Canvas.t) :
  layerOk cv = true -> forallb drawable (Canvas.paths cv) = true.
Proof.
  intros H. apply layerOk_elim in H. destruct H as [H _].
  rewrite forallb_forall in *. intros p Hp.
  now apply wellFormed_drawable, H.
Qed.

Lemma pop_cases {A : Type} (l : list A) :
  (l = [] /\ pop l = ([], None))
  \/ exists l' x, l = l' ++ [x] /\ pop l = (l', Some x).
Proof.
  destruct l as [|x l' _] using rev_ind.
  - left. split; reflexivity.
  - right. exists l', x. split; [reflexivity|]. exact (pop_push l' x).
Qed.

Lemma wellFormed_points (ps : list (option Point.t)) :
  wellFormed (Points ps) = true ->
  exists ps' p, ps = ps' ++ [Some p] /\ forallb isSome ps' = true.
Proof.
  intros H.
  destruct (pop_cases ps) as [[-> _] | (ps' & x & -> & _)]; [discriminate|].
  assert (H0 : forallb isSome (ps' ++ [x]) = true).
  { simpl in H. destruct (ps' ++ [x]); [discriminate|exact H]. }
  rewrite forallb_app in H0. apply andb_true_iff in H0.
  destruct H0 as [H1 H2]. simpl in H2.
  destruct x as [p|]; [|discriminate]. eauto.
Qed.

Lemma wellFormed_points_intro (ps' : list (option Point.t)) (p : Point.t) :
  forallb isSome ps' = true -> wellFormed (Points (ps' ++ [Some p])) = true.
Proof.
  intros H. simpl. destruct (ps' ++ [Some p]) eqn:E.
  - destruct ps'; discriminate.
  - rewrite <- E, forallb_app, H. reflexivity.
Qed.

Lemma wellFormed_push (ps : list path) (p : path) :
  forallb wellFormed ps = true -> wellFormed p = true ->
  forallb wellFormed (push ps p) = true.
Proof.
  intros H Hp. unfold push. rewrite forallb_app, H. simpl. now rewrite Hp.
Qed.

Lemma wellFormed_popped (ps rest : list path) (p : path) :
  forallb wellFormed ps = true -> pop ps = (rest, Some p) ->
  forallb wellFormed rest = true /\ wellFormed p = true.
Proof.
  intros H E.
  destruct (pop_cases ps) as [[-> E'] | (l' & x & -> & E')];
    rewrite E' in E; [discriminate|].
  injection E as <- <-. rewrite forallb_app in H.
  apply andb_true_iff in H. destruct H as [H1 H2]. simpl in H2.
  split; [exact H1|]. now destruct (wellFormed x).
Qed.

Lemma rotation_not_NaN (d : num) :
  isNaN d = false -> isNaN (div (mul d Math_PI) (Fin 180)) = false.
Proof.
  destruct d as [r| | |]; try discriminate; intros _.
  - now rewrite degrees_to_radians.
  - unfold mul, Math_PI. rewrite (Reqb_false PI_neq0). unfold scaleInf.
    destruct (Rltb PI 0); unfold div, scaleInf, neg;
      destruct (Rltb 180 0); reflexivity.
  - unfold mul, Math_PI. rewrite (Reqb_false PI_neq0). unfold scaleInf.
    destruct (Rltb PI 0); unfold div, scaleInf, neg;
      destruct (Rltb 180 0); reflexivity.
Qed.

Lemma applyAmounts_noNaN (ty : string) (am : list value)
      (tr : Canvas.Transforms) :
  noNaN tr = true -> noNaN (Canvas.applyAmounts ty am tr) = true.
Proof.
  intros H. unfold Canvas.applyAmounts.
  destruct (toLowerCase ty =? Transform.TRANSLATE)%string.
  { destruct am as [|a0 [|a1 rest]]; try exact H.
    destruct (isNaN (parseFloat a0)) eqn:E0; [exact H|].
    destruct (isNaN (parseFloat a1)) eqn:E1; [exact H|].
    cbn [orb]. unfold noNaN in *. cbn. rewrite E0, E1. cbn.
    repeat (apply andb_true_iff in H; destruct H as [H ?]).
    repeat (apply andb_true_iff; split); auto. }
  destruct (toLowerCase ty =? Transform.SCALE)%string.
  { destruct am as [|a0 [|a1 rest]]; try exact H.
    destruct (isNaN (parseFloat a0)) eqn:E0; [exact H|].
    destruct (isNaN (parseFloat a1)) eqn:E1; [exact H|].
    cbn [orb]. unfold noNaN in *. cbn. rewrite E0, E1. cbn.
    repeat (apply andb_true_iff in H; destruct H as [H ?]).
    repeat (apply andb_true_iff; split); auto. }
  destruct (toLowerCase ty =? Transform.ROTATE)%string; [|exact H].
  destruct am as [|a0 rest]; try exact H.
  destruct (isNaN (parseFloat a0)) eqn:E0; [exact H|].
  unfold noNaN in *. cbn -[div mul Math_PI].
  rewrite (rotation_not_NaN _ E0).
  repeat (apply andb_true_iff in H; destruct H as [H ?]).
  repeat (apply andb_true_iff; split); auto.
Qed.

Lemma transform_layerOk (ty : string) (am : amountsArg) (argc : nat)
      (cv cv' : Canvas.t) :
  layerOk cv = true -> Canvas.transform ty am argc cv = Ok cv' ->
  layerOk cv' = true.
Proof.
  intros H E.
  destruct (@transform_ok ty am argc cv (layerOk_drawable _ H))
    as (cv1 & E1 & Hp & _ & Ht).
  rewrite E in E1. apply Ok_inj in E1. subst cv1.
  apply layerOk_elim in H. destruct H as [H1 H2].
  apply layerOk_intro; [now rewrite Hp|].
  rewrite Ht. now apply applyAmounts_noNaN.
Qed.

Lemma draw_layerOk (b : bool) (cv cv' : Canvas.t) :
  layerOk cv = true -> Canvas.draw b cv = Ok cv' -> layerOk cv' = true.
Proof.
  intros H E. unfold Canvas.draw in E.
  assert (Hstep : forall c c', layerOk c = true ->
                    Canvas.drawPaths c = Ok c' -> layerOk c' = true).
  { intros c c' Hc Ec. unfold Canvas.drawPaths in Ec.
    destruct (Canvas.drawLoop (Canvas.paths c) (Canvas.context c));
      [|discriminate].
    cbn [bind] in Ec. apply Ok_inj in Ec. now subst c'. }
  destruct b.
  - destruct (Canvas.transform "undefined" (NotArray VUndefined) 0 cv)
      as [cv1|] eqn:E1; [|discriminate].
    cbn [bind] in E. apply (Hstep cv1 cv'); [|exact E].
    now apply (@transform_layerOk "undefined" (NotArray VUndefined) 0%nat cv
                 cv1).
  - cbn [bind] in E. now apply (Hstep cv cv').
Qed.

Lemma drawText_layerOk (ts : option TextStyle.t) (ct ct1 : Container.t)
      (cv cv1 : Canvas.t) (text : string) :
  layerOk cv = true ->
  Canvas.drawText ts ct cv = Ok (text, ct1, cv1) ->
  layerOk cv1 = true
  /\ Container.styleWidth ct1 = Container.styleWidth ct
  /\ Container.styleHeight ct1 = Container.styleHeight ct.
Proof.
  unfold Canvas.drawText. intros H E.
  destruct ts as [style|]; [|injection E as _ <- <-; auto].
  destruct (Container.textbox ct) as [tb|]; [|injection E as _ <- <-; auto].
  unfold TextStyle.getFont in E.
  destruct (TextStyle.font style) as [f|] eqn:Ef; [|discriminate].
  injection E as _ <- <-. split; [|split; reflexivity].
  apply layerOk_elim in H. destruct H as [H1 H2].
  apply layerOk_intro; [|exact H2].
  cbn [Canvas.paths Canvas.set_paths]. apply wellFormed_push; [exact H1|].
  cbn. now rewrite Ef.
Qed.

End WellFormedLayers.

Section WellFormedStates.

Import ArtCanvas.

Lemma stateOk_elim (a : t) :
  stateOk a = true ->
  isModeName (mode a) = true
  /\ isFigureName (figure a) = true
  /\ isTransformName (transform a) = true
  /\ forallb layerOk (layers a) = true
  /\ (0 <? Container.styleWidth (container a))%Z = true
  /\ (0 <? Container.styleHeight (container a))%Z = true.
Proof.
  unfold stateOk. intros H.
  repeat (apply andb_true_iff in H; destruct H as [H ?]). auto 10.
Qed.

Lemma stateOk_intro (a : t) :
  isModeName (mode a) = true ->
  isFigureName (figure a) = true ->
  isTransformName (transform a) = true ->
  forallb layerOk (layers a) = true ->
  (0 <? Container.styleWidth (container a))%Z = true ->
  (0 <? Container.styleHeight (container a))%Z = true ->
  stateOk a = true.
Proof. unfold stateOk. intros -> -> -> -> -> ->. reflexivity. Qed.

Lemma stateOk_frame (a a' : t) :
  stateOk a = true -> sameFrame a a' ->
  forallb layerOk (layers a') = true -> stateOk a' = true.
Proof.
  intros H (Hm & Hf & Hk & Hw & Hh) Hl.
  destruct (stateOk_elim _ H) as (H1 & H2 & H3 & _ & H5 & H6).
  apply stateOk_intro; congruence.
Qed.

Lemma sameFrame_refl (a : t) : sameFrame a a.
Proof. unfold sameFrame. auto. Qed.

Lemma forallb_replaceNth (f : Canvas.t -> bool) (n : nat) (cv' : Canvas.t)
      (l : list Canvas.t) :
  forallb f l = true -> f cv' = true -> forallb f (replaceNth n cv' l) = true.
Proof.
  revert n. induction l as [|c l IH]; intros n H Hc; [now destruct n|].
  simpl in H. apply andb_true_iff in H. destruct H as [H1 H2].
  destruct n; simpl.
  - now rewrite Hc, H2.
  - rewrite H1. now apply IH.
Qed.

Lemma storeActive_stateOk (cv' : Canvas.t) (a : t) :
  stateOk a = true -> layerOk cv' = true -> stateOk (storeActive cv' a) = true.
Proof.
  intros H Hc. apply stateOk_frame with (a := a); [exact H| |].
  - destruct (storeActive_frame cv' a) as (H1 & H2 & H3 & H4 & _).
    unfold sameFrame. rewrite H1, H2, H3, H4. auto.
  - destruct (stateOk_elim _ H) as (_ & _ & _ & Hl & _).
    unfold storeActive. destruct (activeLayer a <? 0)%Z; [exact Hl|].
    cbn [layers set_layers]. now apply forallb_replaceNth.
Qed.

Lemma activeCanvas_layerOk (a : t) (cv : Canvas.t) :
  stateOk a = true -> activeCanvas a = Ok cv -> layerOk cv = true.
Proof.
  intros H E. destruct (stateOk_elim _ H) as (_ & _ & _ & Hl & _).
  unfold activeCanvas, layerAt in E.
  destruct (activeLayer a <? 0)%Z; [discriminate|].
  destruct (nth_error (layers a) (Z.to_nat (activeLayer a))) as [c|] eqn:En;
    [|discriminate].
  apply Ok_inj in E. subst c. rewrite forallb_forall in Hl.
  apply Hl. eapply nth_error_In. exact En.
Qed.

Lemma _figure_stateOk (a a1 : t) (cv cv1 : Canvas.t) (x y : num)
      (ev : string) :
  stateOk a = true -> layerOk cv = true ->
  _figure cv x y ev a = Ok (cv1, a1) ->
  layerOk cv1 = true /\ stateOk a1 = true.
Proof.
  intros Hs Hc E. unfold _figure in E.
  destruct (isStartType ev).
  { injection E as <- <-. split; [exact Hc|exact Hs]. }
  destruct (layerOk_elim _ Hc) as [Hp Hn].
  destruct (pop (Canvas.paths cv)) as [rest [top|]] eqn:Epop; [|discriminate].
  destruct top as [ps|r|c|l|s]; try discriminate.
  destruct (wellFormed_popped _ Hp Epop) as [Hrest Htop].
  destruct (wellFormed_points _ Htop) as (ps' & p & -> & Hps').
  change (ps' ++ [Some p]) with (push ps' (Some p)) in E.
  rewrite pop_push in E. cbn [snd fst popped] in E.
  destruct (Context.putImageData (imagedata a) zero zero
              (Canvas.context
                 (Canvas.set_paths (push rest (Points (push ps' (Some p)))) cv)))
    as [ctx1|]; [|discriminate].
  cbn [bind] in E.
  assert (Hanchor : forallb wellFormed (push rest (Points (push ps' (Some p))))
                    = true).
  { apply wellFormed_push; [exact Hrest|].
    now apply wellFormed_points_intro. }
  assert (Hfin : forall (shape : path) (c : Context.t),
             wellFormed shape = true ->
             layerOk
               (if isEndType ev
                then Canvas.set_paths
                       (push
                          (fst (pop
                                  (Canvas.paths
                                     (Canvas.set_context c
                                        (Canvas.set_paths
                                           (push rest
                                              (Points (push ps' (Some p))))
                                           cv)))))
                          shape)
                       (Canvas.set_context c
                          (Canvas.set_paths
                             (push rest (Points (push ps' (Some p)))) cv))
                else Canvas.set_context c
                       (Canvas.set_paths
                          (push rest (Points (push ps' (Some p)))) cv))
             = true).
  { intros shape c Hshape. destruct (isEndType ev).
    - apply layerOk_intro; [|exact Hn].
      cbn [Canvas.paths Canvas.set_paths Canvas.set_context].
      rewrite pop_push. cbn [fst]. now apply wellFormed_push.
    - apply layerOk_intro; [exact Hanchor|exact Hn]. }
  destruct (figure a =? Figure.RECTANGLE)%string.
  { injection E as <- <-. split; [|exact Hs]. now apply Hfin. }
  destruct (figure a =? Figure.CIRCLE)%string.
  { injection E as <- <-. split; [|exact Hs]. now apply Hfin. }
  destruct (figure a =? Figure.LINE)%string.
  { injection E as <- <-. split; [|exact Hs]. now apply Hfin. }
  injection E as <- <-. split; [|exact Hs].
  apply layerOk_intro; [exact Hanchor|exact Hn].
Qed.

Lemma _transform_layerOk (a : t) (cv cv1 : Canvas.t) (x y : num) :
  layerOk cv = true -> _transform cv x y a = Ok cv1 -> layerOk cv1 = true.
Proof.
  intros Hc E. unfold _transform in E.
  destruct (layerOk_elim _ Hc) as [Hp Hn].
  destruct (pop (Canvas.paths cv)) as [rest [top|]] eqn:Epop; [|discriminate].
  destruct top as [ps|r|c|l|s]; try discriminate.
  destruct (wellFormed_popped _ Hp Epop) as [Hrest Htop].
  destruct (wellFormed_points _ Htop) as (ps' & p & -> & Hps').
  change (ps' ++ [Some p]) with (push ps' (Some p)) in E.
  rewrite pop_push in E. cbn [snd fst popped] in E.
  match type of E with
  | bind ?m _ = _ => destruct m as [cv2|] eqn:Et; [|discriminate]
  end.
  cbn [bind] in E. apply Ok_inj in E. subst cv1.
  assert (H2 : layerOk cv2 = true).
  { eapply transform_layerOk; [|exact Et]. now apply layerOk_intro. }
  destruct (layerOk_elim _ H2) as [Hp2 Hn2].
  apply layerOk_intro; [|exact Hn2].
  cbn [Canvas.paths Canvas.set_paths]. apply wellFormed_push; [exact Hp2|].
  now apply wellFormed_points_intro.
Qed.

End WellFormedStates.

Section Reachable.

Import ArtCanvas.

Lemma startAt_stateOk (a a' : t) (cv : Canvas.t) (x y : num) (ev : string) :
  stateOk a = true -> layerOk cv = true ->
  startAt cv x y ev a = Ok a' -> stateOk a' = true.
Proof.
  intros Hs Hc E. unfold startAt in E.
  destruct (mode a =? Mode.TEXT)%string.
  { apply Ok_inj in E. subst a'.
    apply stateOk_frame with (a := a); [exact Hs| |].
    - unfold sameFrame, Canvas.createTextbox. cbn [mode figure transform
        container set_container].
      destruct (Container.textbox (container a)); auto.
    - now destruct (stateOk_elim _ Hs) as (_ & _ & _ & Hl & _). }
  match type of E with
  | bind ?m _ = _ => destruct m as [[cv1 a1]|] eqn:Er; [|discriminate]
  end.
  cbn [bind] in E. apply Ok_inj in E. subst a'.
  assert (H1 : layerOk cv1 = true /\ stateOk a1 = true).
  { destruct (mode a =? Mode.HAND)%string.
    - injection Er as <- <-. split; [|exact Hs].
      destruct (layerOk_elim _ Hc) as [Hp Hn]. now apply layerOk_intro.
    - destruct (mode a =? Mode.FIGURE)%string.
      + now apply (@_figure_stateOk a a1 cv cv1 x y ev).
      + injection Er as <- <-. auto. }
  destruct H1 as [Hc1 Hs1].
  change (stateOk
            (storeActive
               (Canvas.set_paths
                  (push (Canvas.paths cv1)
                     (Points [Some (Point.new (VNum x) (VNum y))])) cv1) a1)
          = true).
  apply storeActive_stateOk; [exact Hs1|].
  destruct (layerOk_elim _ Hc1) as [Hp Hn]. apply layerOk_intro; [|exact Hn].
  cbn [Canvas.paths Canvas.set_paths]. now apply wellFormed_push.
Qed.

Lemma moveAt_stateOk (a a' : t) (cv : Canvas.t) (x y : num) (ev : string) :
  stateOk a = true -> layerOk cv = true ->
  moveAt cv x y ev a = Ok a' -> stateOk a' = true.
Proof.
  intros Hs Hc E. unfold moveAt in E.
  match type of E with
  | bind ?m _ = _ => destruct m as [[cv1 a1]|] eqn:Er; [|discriminate]
  end.
  cbn [bind] in E. apply Ok_inj in E. subst a'.
  assert (H1 : layerOk cv1 = true /\ stateOk a1 = true).
  { destruct (mode a =? Mode.HAND)%string.
    - destruct (layerOk_elim _ Hc) as [Hp Hn].
      destruct (pop (Canvas.paths cv)) as [rest [top|]] eqn:Epop;
        [|discriminate].
      destruct top as [ps|r|c|l|s]; try discriminate.
      destruct (wellFormed_popped _ Hp Epop) as [Hrest Htop].
      destruct (wellFormed_points _ Htop) as (ps' & p & -> & Hps').
      change (ps' ++ [Some p]) with (push ps' (Some p)) in Er.
      rewrite pop_push in Er. cbn [snd fst popped] in Er.
      injection Er as <- <-. split; [|exact Hs].
      apply layerOk_intro; [|exact Hn].
      cbn [Canvas.paths Canvas.set_paths Canvas.set_context].
      apply wellFormed_push; [exact Hrest|].
      apply wellFormed_points_intro. unfold push.
      rewrite forallb_app, Hps'. reflexivity.
    - destruct (mode a =? Mode.TEXT)%string.
      { injection Er as <- <-. auto. }
      destruct (mode a =? Mode.FIGURE)%string.
      { now apply (@_figure_stateOk a a1 cv cv1 x y ev). }
      destruct (mode a =? Mode.TRANSFORM)%string.
      + destruct (_transform cv x y a) as [cv2|] eqn:Et; [|discriminate].
        cbn [bind] in Er. injection Er as <- <-. split; [|exact Hs].
        now apply (@_transform_layerOk a cv cv2 x y).
      + injection Er as <- <-. auto. }
  destruct H1 as [Hc1 Hs1].
  change (stateOk (storeActive cv1 a1) = true).
  now apply storeActive_stateOk.
Qed.

Lemma endAt_stateOk (a a' : t) (cv : Canvas.t) (x y : num) (ev : string) :
  stateOk a = true -> layerOk cv = true ->
  endAt cv x y ev a = Ok a' -> stateOk a' = true.
Proof.
  intros Hs Hc E. unfold endAt in E.
  match type of E with
  | bind ?m _ = _ => destruct m as [[cv1 a1]|] eqn:Er; [|discriminate]
  end.
  cbn [bind] in E. apply Ok_inj in E. subst a'.
  assert (H1 : layerOk cv1 = true /\ stateOk a1 = true).
  { destruct (mode a =? Mode.HAND)%string.
    { injection Er as <- <-. auto. }
    destruct (mode a =? Mode.FIGURE)%string.
    { destruct (_figure cv x y ev a) as [[cv2 a2]|] eqn:Ef; [|discriminate].
      cbn [bind fst snd] in Er. injection Er as <- <-.
      destruct (@_figure_stateOk a a2 cv cv2 x y ev Hs Hc Ef) as [H1 H2].
      split; [exact H1|exact H2]. }
    destruct (mode a =? Mode.TEXT)%string.
    { injection Er as <- <-. auto. }
    destruct (mode a =? Mode.TRANSFORM)%string.
    - injection Er as <- <-. split; [|exact Hs].
      destruct (layerOk_elim _ Hc) as [Hp Hn].
      apply layerOk_intro; [|exact Hn].
      cbn [Canvas.paths Canvas.set_paths].
      destruct (pop_cases (Canvas.paths cv)) as [[_ ->] | (l' & top & El & ->)];
        [reflexivity|].
      cbn [fst]. rewrite El, forallb_app in Hp.
      now apply andb_true_iff in Hp.
    - injection Er as <- <-. auto. }
  destruct H1 as [Hc1 Hs1].
  change (stateOk (storeActive cv1 a1) = true).
  now apply storeActive_stateOk.
Qed.

Lemma listener_stateOk (a a' : t) (e : Event.t)
      (body : Canvas.t -> num -> num -> string -> t -> result t) :
  (forall cv x y, layerOk cv = true ->
                  body cv x y (Event.type e) a = Ok a' -> stateOk a' = true) ->
  stateOk a = true ->
  (cv <- activeCanvas a ;;
   x <- Canvas.getOffsetX (Some e) (container a) cv ;;
   y <- Canvas.getOffsetY (Some e) (container a) cv ;;
   body cv x y (Event.type e) a) = Ok a' ->
  stateOk a' = true.
Proof.
  intros Hbody Hs E.
  destruct (activeCanvas a) as [cv|] eqn:Hcv; [|discriminate].
  cbn [bind] in E.
  destruct (Canvas.getOffsetX (Some e) (container a) cv) as [x|];
    [|discriminate].
  cbn [bind] in E.
  destruct (Canvas.getOffsetY (Some e) (container a) cv) as [y|];
    [|discriminate].
  cbn [bind] in E.
  apply (Hbody cv x y); [|exact E].
  now apply (@activeCanvas_layerOk a cv).
Qed.

Lemma layerCall_stateOk (a a' : t) (cv : Canvas.t) (r : result Canvas.t) :
  stateOk a = true ->
  activeCanvas a = Ok cv ->
  (forall cv1, r = Ok cv1 -> layerOk cv1 = true) ->
  (canvas1 <- r ;; Ok (storeActive canvas1 a)) = Ok a' ->
  stateOk a' = true.
Proof.
  intros Hs Hcv Hr E. destruct r as [cv1|]; [|discriminate].
  cbn [bind] in E. apply Ok_inj in E. subst a'.
  apply storeActive_stateOk; [exact Hs|]. now apply Hr.
Qed.

Lemma new_stateOk (ct : Container.t)
      (canvas : option (Canvas.Element * Context.t)) (w h : value) :
  stateOk (new ct canvas w h) = true.
Proof.
  apply stateOk_intro; try reflexivity.
  - cbn. destruct (parseInt w) as [wz|]; [|reflexivity].
    destruct (Z.ltb_spec 0 wz) as [H|H]; [|reflexivity].
    now apply Z.ltb_lt.
  - cbn. destruct (parseInt h) as [hz|]; [|reflexivity].
    destruct (Z.ltb_spec 0 hz) as [H|H]; [|reflexivity].
    now apply Z.ltb_lt.
Qed.

Lemma addLayer_stateOk (w h : value) (a : t) :
  stateOk a = true -> stateOk (addLayer w h a) = true.
Proof.
  intros Hs. apply stateOk_frame with (a := a);
    [exact Hs|unfold sameFrame; repeat split|].
  destruct (stateOk_elim _ Hs) as (_ & _ & _ & Hl & _).
  cbn [layers addLayer invoke set_activeLayer set_layers]. unfold push.
  rewrite forallb_app, Hl. reflexivity.
Qed.

Lemma validate_stateOk (n : value) (f : Z -> t -> t) (a : t) :
  (forall i s, stateOk s = true -> stateOk (f i s) = true) ->
  stateOk a = true ->
  stateOk (snd (validateLayerNumer n (Some f) a)) = true.
Proof.
  intros Hf Hs. unfold validateLayerNumer.
  destruct (parseInt n) as [i|]; [|exact Hs].
  destruct ((0 <=? i)%Z && (i <? Z.of_nat (List.length (layers a)))%Z);
    [|exact Hs].
  now apply Hf.
Qed.

Lemma forallb_firstn (f : Canvas.t -> bool) (n : nat) (l : list Canvas.t) :
  forallb f l = true -> forallb f (firstn n l) = true.
Proof.
  revert n. induction l as [|c l IH]; intros [|n] H; simpl in *; auto.
  apply andb_true_iff in H. destruct H as [-> H]. now apply IH.
Qed.

Lemma forallb_skipn (f : Canvas.t -> bool) (n : nat) (l : list Canvas.t) :
  forallb f l = true -> forallb f (skipn n l) = true.
Proof.
  revert n. induction l as [|c l IH]; intros [|n] H; simpl in *; auto.
  apply andb_true_iff in H. destruct H as [_ H]. now apply IH.
Qed.

Lemma forallb_splice1 (f : Canvas.t -> bool) (i : Z) (l : list Canvas.t) :
  forallb f l = true -> forallb f (splice1 i l) = true.
Proof.
  intros H. unfold splice1.
  now rewrite forallb_app, forallb_firstn, forallb_skipn.
Qed.

Lemma setMode_stateOk (m : string) (a a' : t) :
  stateOk a = true -> setMode m a = Ok a' -> stateOk a' = true.
Proof.
  intros Hs E. unfold setMode in E.
  destruct (stateOk_elim _ Hs) as (Hm & Hf & Hk & Hl & Hw & Hh).
  match type of E with
  | bind (activeCanvas ?s) _ = _ =>
      set (a1 := s) in *; assert (Hs1 : stateOk a1 = true)
  end.
  { unfold a1.
    destruct ((toLowerCase m =? Mode.HAND)%string
              || (toLowerCase m =? Mode.FIGURE)%string
              || (toLowerCase m =? Mode.TRANSFORM)%string) eqn:Ev.
    - apply stateOk_intro; try assumption.
      cbn [mode set_mode]. unfold isModeName.
      apply orb_true_iff in Ev. destruct Ev as [Ev|Ev];
        [apply orb_true_iff in Ev; destruct Ev as [Ev|Ev]|];
        rewrite Ev; cbn; now rewrite ?orb_true_r.
    - destruct (toLowerCase m =? Mode.TEXT)%string eqn:Et; [|exact Hs].
      apply addLayer_stateOk. apply stateOk_intro; try assumption.
      cbn [mode set_mode]. unfold isModeName. rewrite Et.
      now rewrite ?orb_true_r. }
  destruct (activeCanvas a1) as [cv|] eqn:Hcv; [|discriminate].
  cbn [bind] in E.
  destruct (Canvas.drawText (textStyle a1) (container a1) cv)
    as [[[text ct1] cv1]|] eqn:Ed; [|discriminate].
  cbn [bind] in E. apply Ok_inj in E. subst a'.
  destruct (@drawText_layerOk (textStyle a1) (container a1) ct1 cv cv1 text
              (@activeCanvas_layerOk a1 cv Hs1 Hcv) Ed) as (Hc1 & Hw1 & Hh1).
  change (stateOk (storeActive cv1 (set_container ct1 a1)) = true).
  apply storeActive_stateOk; [|exact Hc1].
  apply stateOk_frame with (a := a1); [exact Hs1| |].
  - unfold sameFrame. cbn [mode figure transform container set_container].
    auto.
  - now destruct (stateOk_elim _ Hs1) as (_ & _ & _ & Hl1 & _).
Qed.

Lemma perform_stateOk (c : apiCall) (a a' : t) :
  stateOk a = true -> perform c a = Ok a' -> stateOk a' = true.
Proof.
  intros Hs E. destruct (stateOk_elim _ Hs) as (Hm & Hf & Hk & Hl & Hw & Hh).
  destruct c as [w h|n|n|m|f|k|style|tx ty|sx sy|d|fs|ss|lw|event|event|event
                |text]; cbn [perform] in E.
  - apply Ok_inj in E. subst a'. now apply addLayer_stateOk.
  - apply Ok_inj in E. subst a'. unfold removeLayer.
    apply validate_stateOk; [|exact Hs].
    intros i s Hss. destruct (stateOk_elim _ Hss) as (? & ? & ? & Hls & ? & ?).
    apply stateOk_intro; try assumption.
    cbn [layers invoke set_activeLayer set_layers]. now apply forallb_splice1.
  - apply Ok_inj in E. subst a'. unfold selectLayer.
    apply validate_stateOk; [|exact Hs]. intros i s Hss. exact Hss.
  - now apply (@setMode_stateOk m a a').
  - apply Ok_inj in E. subst a'. unfold setFigure.
    destruct ((toLowerCase f =? Figure.RECTANGLE)%string
              || (toLowerCase f =? Figure.CIRCLE)%string
              || (toLowerCase f =? Figure.LINE)%string) eqn:Ev;
      [|exact Hs].
    apply stateOk_intro; assumption.
  - apply Ok_inj in E. subst a'. unfold setTransform.
    destruct ((toLowerCase k =? Transform.TRANSLATE)%string
              || (toLowerCase k =? Transform.SCALE)%string
              || (toLowerCase k =? Transform.ROTATE)%string) eqn:Ev;
      [|exact Hs].
    apply stateOk_intro; assumption.
  - apply Ok_inj in E. subst a'. destruct style; exact Hs.
  - unfold translate in E.
    destruct (activeCanvas a) as [cv|] eqn:Hcv; [|discriminate].
    cbn [bind] in E. eapply layerCall_stateOk; [exact Hs|exact Hcv| |exact E].
    intros cv1 E1. eapply transform_layerOk; [|exact E1].
    now apply (@activeCanvas_layerOk a cv).
  - unfold scale in E.
    destruct (activeCanvas a) as [cv|] eqn:Hcv; [|discriminate].
    cbn [bind] in E. eapply layerCall_stateOk; [exact Hs|exact Hcv| |exact E].
    intros cv1 E1. eapply transform_layerOk; [|exact E1].
    now apply (@activeCanvas_layerOk a cv).
  - unfold rotate in E.
    destruct (activeCanvas a) as [cv|] eqn:Hcv; [|discriminate].
    cbn [bind] in E. eapply layerCall_stateOk; [exact Hs|exact Hcv| |exact E].
    intros cv1 E1. eapply transform_layerOk; [|exact E1].
    now apply (@activeCanvas_layerOk a cv).
  - unfold setFillStyle in E.
    destruct (activeCanvas a) as [cv|] eqn:Hcv; [|discriminate].
    cbn [bind] in E. eapply layerCall_stateOk; [exact Hs|exact Hcv| |exact E].
    intros cv1 E1. unfold Canvas.setFillStyle in E1.
    eapply draw_layerOk; [|exact E1].
    exact (@activeCanvas_layerOk a cv Hs Hcv).
  - unfold setStrokeStyle in E.
    destruct (activeCanvas a) as [cv|] eqn:Hcv; [|discriminate].
    cbn [bind] in E. eapply layerCall_stateOk; [exact Hs|exact Hcv| |exact E].
    intros cv1 E1. unfold Canvas.setStrokeStyle in E1.
    eapply draw_layerOk; [|exact E1].
    exact (@activeCanvas_layerOk a cv Hs Hcv).
  - unfold setLineWidth in E.
    destruct (activeCanvas a) as [cv|] eqn:Hcv; [|discriminate].
    cbn [bind] in E. eapply layerCall_stateOk; [exact Hs|exact Hcv| |exact E].
    intros cv1 E1. unfold Canvas.setLineWidth in E1.
    destruct (gt (parseFloat lw) zero).
    + eapply draw_layerOk; [|exact E1].
      exact (@activeCanvas_layerOk a cv Hs Hcv).
    + apply Ok_inj in E1. subst cv1. exact (@activeCanvas_layerOk a cv Hs Hcv).
  - unfold onStart in E. eapply listener_stateOk; [|exact Hs|exact E].
    intros cv x y Hc Eb.
    now apply (@startAt_stateOk a a' cv x y (Event.type event)).
  - unfold onMove in E. destruct (negb (isDown a)).
    + apply Ok_inj in E. now subst a'.
    + eapply listener_stateOk; [|exact Hs|exact E].
      intros cv x y Hc Eb.
      now apply (@moveAt_stateOk a a' cv x y (Event.type event)).
  - unfold onEnd in E. destruct (negb (isDown a)).
    + apply Ok_inj in E. now subst a'.
    + eapply listener_stateOk; [|exact Hs|exact E].
      intros cv x y Hc Eb.
      now apply (@endAt_stateOk a a' cv x y (Event.type event)).
  - apply Ok_inj in E. subst a'. unfold typeText.
    destruct (Container.textbox (container a)); exact Hs.
Qed.

Lemma run_stateOk (cs : list apiCall) :
  forall a a', stateOk a = true -> run cs a = Ok a' -> stateOk a' = true.
Proof.
  induction cs as [|c cs IH]; intros a a' Hs E; simpl in E.
  - apply Ok_inj in E. now subst a'.
  - destruct (perform c a) as [a1|] eqn:E1; [|discriminate].
    cbn [bind] in E. apply (IH a1 a'); [|exact E].
    now apply (@perform_stateOk c a a1).
Qed.

End Reachable.

Section ReachableStates.

Import ArtCanvas.

(** X21.  Every state reached from a fresh ArtCanvas by a run of calls
    of the public interface, pointer events and typing, in which no call
    throws: the mode, the figure and the transform are among the names
    their setters accept; the container keeps a positive size; and on
    every layer each stored object is an array of points that is not
    empty and has no hole, a rectangle, a circle, a line with both end
    points or a text with a style that has a font, so that every stored
    object can be replayed; no component of a TransformState is NaN. *)
Theorem reachable_states_are_well_formed
        (ct : Container.t) (canvas : option (Canvas.Element * Context.t))
        (w h : value) (cs : list apiCall) (a : t) :
  run cs (new ct canvas w h) = Ok a ->
  isModeName (mode a) = true
  /\ isFigureName (figure a) = true
  /\ isTransformName (transform a) = true
  /\ (0 < getContainerWidth a)%Z
  /\ (0 < getContainerHeight a)%Z
  /\ forall cv, In cv (layers a) ->
       forallb wellFormed (Canvas.paths cv) = true
       /\ forallb drawable (Canvas.paths cv) = true
       /\ noNaN (Canvas.transforms cv) = true.
Proof.
  intros E.
  assert (Hs : stateOk a = true).
  { apply (@run_stateOk cs (new ct canvas w h) a); [|exact E].
    apply new_stateOk. }
  destruct (stateOk_elim _ Hs) as (Hm & Hf & Hk & Hl & Hw & Hh).
  split; [exact Hm|]. split; [exact Hf|]. split; [exact Hk|].
  split; [now apply Z.ltb_lt|]. split; [now apply Z.ltb_lt|].
  intros cv Hin. rewrite forallb_forall in Hl. specialize (Hl cv Hin).
  destruct (layerOk_elim _ Hl) as [Hp Hn].
  split; [exact Hp|]. split; [now apply layerOk_drawable|exact Hn].
Qed.

(** a second layer added after the figure was set to circle *)
Lemma reachable_states_are_well_formed_witness :
  isFigureName
    (figure
       (addLayer (VStr "10") (VStr "10")
          (setFigure "circle" (new page None (VStr "300") (VStr "300")))))
  = true.
Proof.
  destruct (@reachable_states_are_well_formed page None (VStr "300")
              (VStr "300")
              [CallSetFigure "circle"; CallAddLayer (VStr "10") (VStr "10")]
              (addLayer (VStr "10") (VStr "10")
                 (setFigure "circle"
                    (new page None (VStr "300") (VStr "300")))))
    as (_ & H & _).
  - reflexivity.
  - exact H.
Defined.

(** X22.  In such a state translate, scale, rotate and the three style
    setters throw exactly when there is no active layer (the active
    index points at no layer): whatever was drawn, typed or transformed
    before, none of them fails on the stored objects. *)
Theorem reachable_states_throw_only_without_layer
        (ct : Container.t) (canvas : option (Canvas.Element * Context.t))
        (w h : value) (cs : list apiCall) (a : t)
        (vx vy : value) (style : string) :
  run cs (new ct canvas w h) = Ok a ->
  isOk (translate vx vy a) = isOk (activeCanvas a)
  /\ isOk (scale vx vy a) = isOk (activeCanvas a)
  /\ isOk (rotate vx a) = isOk (activeCanvas a)
  /\ isOk (setFillStyle style a) = isOk (activeCanvas a)
  /\ isOk (setStrokeStyle style a) = isOk (activeCanvas a)
  /\ isOk (setLineWidth vx a) = isOk (activeCanvas a).
Proof.
  intros E.
  assert (Hs : stateOk a = true).
  { apply (@run_stateOk cs (new ct canvas w h) a); [|exact E].
    apply new_stateOk. }
  destruct (activeCanvas a) as [cv|] eqn:Hcv.
  - pose proof (layerOk_drawable _ (@activeCanvas_layerOk a cv Hs Hcv)) as Hd.
    assert (Ht : forall ty am,
               isOk (canvas1 <- Canvas.transform ty am 2 cv ;;
                     Ok (storeActive canvas1 a)) = true).
    { intros ty am.
      destruct (@transform_ok ty am 2 cv Hd) as (cv1 & E1 & _).
      now rewrite E1. }
    assert (Hdr : forall cv0, Canvas.paths cv0 = Canvas.paths cv ->
                isOk (canvas1 <- Canvas.draw true cv0 ;;
                      Ok (storeActive canvas1 a)) = true).
    { intros cv0 Hp. rewrite <- Hp in Hd.
      destruct (@draw_true cv0 Hd) as (cv1 & E1 & _). now rewrite E1. }
    unfold translate, scale, rotate, setFillStyle, setStrokeStyle,
      setLineWidth. rewrite Hcv. cbn [bind isOk].
    split; [apply Ht|]. split; [apply Ht|]. split; [apply Ht|].
    split; [now apply Hdr|]. split; [now apply Hdr|].
    unfold Canvas.setLineWidth.
    destruct (gt (parseFloat vx) zero); [now apply Hdr|reflexivity].
  - destruct (@no_active_layer a Hcv)
      as (H1 & H2 & H3 & _ & _ & _ & H7 & H8 & H9 & _).
    rewrite H1, H2, H3, H7, H8, H9. repeat split.
Qed.

(** the only layer of a fresh ArtCanvas removed: no layer is active, and
    [translate] throws *)
Lemma reachable_states_throw_only_without_layer_witness :
  isOk (translate (VNum (Fin 1)) (VNum (Fin 1))
          (removeLayer (VStr "0") (new page None (VStr "300") (VStr "300"))))
  = isOk (activeCanvas
            (removeLayer (VStr "0")
               (new page None (VStr "300") (VStr "300")))).
Proof.
  destruct (@reachable_states_throw_only_without_layer page None
              (VStr "300") (VStr "300") [CallRemoveLayer (VStr "0")]
              (removeLayer (VStr "0")
                 (new page None (VStr "300") (VStr "300")))
              (VNum (Fin 1)) (VNum (Fin 1)) "red")
    as (H & _).
  - reflexivity.
  - exact H.
Defined.

End ReachableStates.

(* ------------------------------------------------------------------ *)
(** ** Sizes of the container and of the first layer *)

Section Sizes.

Import ArtCanvas.



End Sizes.

(* ------------------------------------------------------------------ *)
(** ** The pivot of a line; an emptied layer *)

Section MorePivots.

Local Open Scope R_scope.




(** X25.  [clearPaths] empties a layer whatever it held: the pivot is
    the origin, and a transform with both arguments returns, keeps the
    layer empty and only clears the surface. *)
Theorem clearPaths_then_transform
        (ty : string) (am : amountsArg) (cv : Canvas.t) :
  Canvas.getCenterPoint (Canvas.clearPaths cv) = Ok (Point.mk zero zero)
  /\ exists cv',
      Canvas.transform ty am 2 (Canvas.clearPaths cv) = Ok cv'
      /\ Canvas.paths cv' = []
      /\ surfaceState (Canvas.context cv') = surfaceState (Canvas.context cv)
      /\ Context.drawn (Canvas.context cv')
         = Context.drawn (Canvas.context cv)
             ++ [(Context.ctm (Canvas.context cv),
                  Context.clearRect_ zero zero
                    (ofZ (Canvas.width (Canvas.canvas cv)))
                    (ofZ (Canvas.height (Canvas.canvas cv))))].
Proof.
  split; [reflexivity|].
  destruct (@transform2_ok ty am (Canvas.clearPaths cv) eq_refl)
    as (cv' & m & added & E & _ & Hp & _ & _ & _ & Hs & _ & Hdr & Ha).
  exists cv'. split; [exact E|]. split; [exact Hp|]. split; [exact Hs|].
  rewrite Hdr, Ha. reflexivity.
Qed.

End MorePivots.

(* ------------------------------------------------------------------ *)
(** ** The draw callbacks *)

Section DrawCallbacks.

Import ArtCanvas.

Lemma _figure_called (a a1 : t) (cv cv1 : Canvas.t) (x y : num)
      (ev : string) :
  _figure cv x y ev a = Ok (cv1, a1) ->
  called a1 = called a /\ mode a1 = mode a /\ isDown a1 = isDown a.
Proof.
  unfold _figure. intros E.
  destruct (isStartType ev); [injection E as _ <-; auto|].
  destruct (pop (Canvas.paths cv)) as [rest [[ps|r|c|l|s]|]];
    try discriminate.
  match type of E with
  | bind ?m _ = _ => destruct m as [ctx1|]; [|discriminate]
  end.
  cbn [bind] in E.
  destruct (figure a =? Figure.RECTANGLE)%string.
  { destruct (popped (snd (pop ps))); [|discriminate].
    injection E as _ <-. auto. }
  destruct (figure a =? Figure.CIRCLE)%string.
  { destruct (popped (snd (pop ps))); [|discriminate].
    injection E as _ <-. auto. }
  destruct (figure a =? Figure.LINE)%string.
  { destruct (popped (snd (pop ps))); [|discriminate].
    injection E as _ <-. auto. }
  injection E as _ <-. auto.
Qed.

Lemma startAt_called (a a' : t) (cv : Canvas.t) (x y : num) (ev : string) :
  (mode a =? Mode.TEXT)%string = false ->
  startAt cv x y ev a = Ok a' ->
  called a' = called a ++ [drawstart x y]
  /\ mode a' = mode a /\ isDown a' = true.
Proof.
  intros Hm E. unfold startAt in E. rewrite Hm in E.
  match type of E with
  | bind ?m _ = _ => destruct m as [[cv1 a1]|] eqn:Er; [|discriminate]
  end.
  cbn [bind] in E. apply Ok_inj in E. subst a'.
  assert (H : called a1 = called a /\ mode a1 = mode a).
  { destruct (mode a =? Mode.HAND)%string; [injection Er as _ <-; auto|].
    destruct (mode a =? Mode.FIGURE)%string; [|injection Er as _ <-; auto].
    destruct (@_figure_called a a1 cv cv1 x y ev Er) as (H1 & H2 & _). auto. }
  destruct H as [Hc Hmo].
  match goal with
  | |- called (invoke _ (set_isDown _ (storeActive ?c _))) = _ /\ _ =>
      destruct (storeActive_frame c a1) as (_ & H2 & _ & _ & _ & _ & H7 & _)
  end.
  cbn [called mode isDown invoke set_isDown]. rewrite H2, H7, Hc, Hmo. auto.
Qed.

Lemma moveAt_called (a a' : t) (cv : Canvas.t) (x y : num) (ev : string) :
  moveAt cv x y ev a = Ok a' ->
  called a' = called a ++ [drawmove x y]
  /\ mode a' = mode a /\ isDown a' = isDown a.
Proof.
  intros E. unfold moveAt in E.
  match type of E with
  | bind ?m _ = _ => destruct m as [[cv1 a1]|] eqn:Er; [|discriminate]
  end.
  cbn [bind] in E. apply Ok_inj in E. subst a'.
  assert (H : called a1 = called a /\ mode a1 = mode a
              /\ isDown a1 = isDown a).
  { destruct (mode a =? Mode.HAND)%string.
    { destruct (pop (Canvas.paths cv)) as [rest [[ps|r|c|l|s]|]];
        try discriminate.
      destruct (popped (snd (pop ps))); [|discriminate].
      injection Er as _ <-. auto. }
    destruct (mode a =? Mode.TEXT)%string; [injection Er as _ <-; auto|].
    destruct (mode a =? Mode.FIGURE)%string.
    { exact (@_figure_called a a1 cv cv1 x y ev Er). }
    destruct (mode a =? Mode.TRANSFORM)%string; [|injection Er as _ <-; auto].
    destruct (_transform cv x y a); [|discriminate].
    cbn [bind] in Er. injection Er as _ <-. auto. }
  destruct H as (Hc & Hmo & Hd).
  destruct (storeActive_frame cv1 a1) as (_ & H2 & _ & _ & _ & _ & H7 & _ & H9).
  cbn [called mode isDown invoke]. rewrite H2, H7, H9, Hc, Hmo, Hd. auto.
Qed.

Lemma endAt_called (a a' : t) (cv : Canvas.t) (x y : num) (ev : string) :
  endAt cv x y ev a = Ok a' ->
  called a' = called a ++ [drawend x y] /\ isDown a' = false.
Proof.
  intros E. unfold endAt in E.
  match type of E with
  | bind ?m _ = _ => destruct m as [[cv1 a1]|] eqn:Er; [|discriminate]
  end.
  cbn [bind] in E. apply Ok_inj in E. subst a'.
  assert (H : called a1 = called a).
  { destruct (mode a =? Mode.HAND)%string; [injection Er as _ <-; auto|].
    destruct (mode a =? Mode.FIGURE)%string.
    { destruct (_figure cv x y ev a) as [[cv2 a2]|] eqn:Ef; [|discriminate].
      cbn [bind fst snd] in Er. injection Er as _ <-.
      destruct (@_figure_called a a2 cv cv2 x y ev Ef) as (H1 & _). exact H1. }
    destruct (mode a =? Mode.TEXT)%string; [injection Er as _ <-; auto|].
    destruct (mode a =? Mode.TRANSFORM)%string; injection Er as _ <-; auto. }
  destruct (storeActive_frame cv1 a1) as (_ & _ & _ & _ & _ & _ & H7 & _).
  cbn [called isDown invoke set_isDown]. rewrite H7, H. auto.
Qed.

Lemma pointerMoves_called (ps : list (num * num)) (ty : string) :
  forall a a',
    isDown a = true -> pointerMoves ps ty a = Ok a' ->
    called a' = called a ++ map (fun q => drawmove (fst q) (snd q)) ps
    /\ isDown a' = true.
Proof.
  induction ps as [|q ps IH]; intros a a' Hd E; simpl in E.
  - apply Ok_inj in E. subst a'. simpl. now rewrite app_nil_r.
  - unfold pointerMove in E. rewrite Hd in E. cbn [negb] in E.
    destruct (activeCanvas a) as [cv|]; [|discriminate]. cbn [bind] in E.
    destruct (moveAt cv (fst q) (snd q) ty a) as [a1|] eqn:E1; [|discriminate].
    cbn [bind] in E.
    destruct (@moveAt_called a a1 cv (fst q) (snd q) ty E1) as (Hc & _ & Hd1).
    rewrite Hd in Hd1. destruct (IH a1 a' Hd1 E) as (Hc' & Hd').
    split; [|exact Hd']. rewrite Hc', Hc. simpl. now rewrite <- app_assoc.
Qed.

(** X26.  A gesture outside text mode that is handled without an
    exception invokes the draw callbacks once per event and in the
    order of the events: drawstart at the pointer-down position,
    drawmove at each pointer-move position, drawend at the pointer-up
    position; no other callback is invoked, and the pressed state is
    released at the end. *)
Theorem gesture_callbacks_in_order
        (touchPanel : bool) (a a3 : t) (p0 p1 : num * num)
        (ps : list (num * num)) :
  (mode a =? Mode.TEXT)%string = false ->
  gestureAt touchPanel p0 ps p1 a = Ok a3 ->
  called a3
  = called a
      ++ drawstart (fst p0) (snd p0)
         :: map (fun q => drawmove (fst q) (snd q)) ps
      ++ [drawend (fst p1) (snd p1)]
  /\ isDown a3 = false.
Proof.
  intros Hm E. unfold gestureAt in E.
  destruct (pointerDown (fst p0) (snd p0) (MouseEvents.START touchPanel) a)
    as [a1|] eqn:E1; [|discriminate].
  cbn [bind] in E.
  destruct (pointerMoves ps (MouseEvents.MOVE touchPanel) a1)
    as [a2|] eqn:E2; [|discriminate].
  cbn [bind] in E.
  unfold pointerDown in E1.
  destruct (activeCanvas a) as [cv|]; [|discriminate]. cbn [bind] in E1.
  destruct (@startAt_called a a1 cv (fst p0) (snd p0)
              (MouseEvents.START touchPanel) Hm E1) as (Hc1 & _ & Hd1).
  destruct (@pointerMoves_called ps (MouseEvents.MOVE touchPanel) a1 a2 Hd1 E2)
    as (Hc2 & Hd2).
  unfold pointerUp in E. rewrite Hd2 in E. cbn [negb] in E.
  destruct (activeCanvas a2) as [cv2|]; [|discriminate]. cbn [bind] in E.
  destruct (@endAt_called a2 a3 cv2 (fst p1) (snd p1)
              (MouseEvents.END touchPanel) E) as (Hc3 & Hd3).
  split; [|exact Hd3].
  rewrite Hc3, Hc2, Hc1. rewrite <- !app_assoc. reflexivity.
Qed.

(** a stroke drawn by a gesture in hand mode *)
Lemma gesture_callbacks_in_order_witness :
  exists a3,
    gestureAt false (Fin 10, Fin 10) [(Fin 20, Fin 20)] (Fin 30, Fin 30)
      (mk page Mode.HAND Figure.CIRCLE Transform.TRANSLATE
          [Canvas.new page None (VStr "300") (VStr "300") 2] 0 None []
          None false)
    = Ok a3
    /\ called a3
       = [drawstart (Fin 10) (Fin 10); drawmove (Fin 20) (Fin 20);
          drawend (Fin 30) (Fin 30)].
Proof.
  eexists. split; [reflexivity|].
  refine (proj1 (@gesture_callbacks_in_order false
                   (mk page Mode.HAND Figure.CIRCLE Transform.TRANSLATE
                       [Canvas.new page None (VStr "300") (VStr "300") 2] 0
                       None [] None false)
                   _ (Fin 10, Fin 10) (Fin 30, Fin 30) [(Fin 20, Fin 20)]
                   eq_refl eq_refl)).
Defined.

End DrawCallbacks.
